(** * HapiMicroService: reply handling, request contexts and request logging

    A shallow embedding of [src/src/microservice.js] (class [MicroService],
    [methodOutput] and [createHapiServer]) and of [src/src/context.js] (class
    [Context] and class [Logger]), with the properties of the specification
    and further properties of the code stated over it.

    JavaScript values are a tree-shaped data type; property reads that throw
    in JavaScript return [Throw] here, and the parts of the JavaScript runtime
    and of the npm dependencies that the repository only calls (string to
    number coercion, [JSON.stringify], md5, Boom, the hapi response toolkit,
    bunyan, timers) are either fields of [JsRuntime] or small models that are
    marked as such. *)

From Stdlib Require Import ZArith String Ascii List Bool Lia DecimalString DecimalPos.
Import ListNotations.

Set Warnings "-register-all".

Open Scope string_scope.
Open Scope Z_scope.

(* ================================================================== *)
(** ** JavaScript values *)
(* ================================================================== *)

(** A JavaScript value.  Numbers are the integers (status codes, levels and
    millisecond clocks are all integral here) plus [NaN].  An object carries
    the properties visible on it, in insertion order, and, when it is
    callable, the value a call without arguments returns. *)
Inductive JsVal : Type :=
| JUndefined
| JNull
| JBool (b : bool)
| JNum (n : Z)
| JNaN
| JStr (s : string)
| JObj (call : option JsVal) (props : list (string * JsVal)).

(** What a [throw] carries. *)
Inductive TypeErrorKind : Type :=
| CannotReadPropertyOfNullish
| CannotSetPropertyOfNullish
| CannotCreatePropertyOnPrimitive
| ClassConstructorWithoutNew
| ConvertingCircularStructure
| NotANumber.

Inductive Exn : Type :=
| TypeError (k : TypeErrorKind)
| ReferenceError (identifier : string)
| Thrown (v : JsVal).

(** The completion of an expression: a value, or an exception. *)
Inductive Res (A : Type) : Type :=
| Ok (a : A)
| Throw (e : Exn).
Arguments Ok {A} a.
Arguments Throw {A} e.

Definition bind {A B : Type} (c : Res A) (k : A -> Res B) : Res B :=
  match c with
  | Ok a => k a
  | Throw e => Throw e
  end.

(** [try { body } catch (err) { handler }] *)
Definition try_catch {A : Type} (body : Res A) (handler : Exn -> Res A) : Res A :=
  match body with
  | Ok a => Ok a
  | Throw e => handler e
  end.

Declare Scope js_scope.
Delimit Scope js_scope with js.
Notation "x <- c ;; k" := (bind c (fun x => k))
  (at level 61, c at next level, right associativity) : js_scope.
Open Scope js_scope.

(** [!!v] *)
Definition truthy (v : JsVal) : bool :=
  match v with
  | JUndefined | JNull | JNaN => false
  | JBool b => b
  | JNum n => negb (n =? 0)
  | JStr s => negb (s =? "")%string
  | JObj _ _ => true
  end.

(** [a || b], with [b] already evaluated (used where [b] has no effect). *)
Definition js_or (a b : JsVal) : JsVal := if truthy a then a else b.

Fixpoint lookup (k : string) (ps : list (string * JsVal)) : option JsVal :=
  match ps with
  | [] => None
  | (k', v) :: ps' => if (k =? k')%string then Some v else lookup k ps'
  end.

(** [ps] with [k] bound to [v]: in place when [k] is present, appended
    otherwise (JavaScript keeps insertion order). *)
Fixpoint assign (k : string) (v : JsVal) (ps : list (string * JsVal))
  : list (string * JsVal) :=
  match ps with
  | [] => [(k, v)]
  | (k', v') :: ps' =>
      if (k =? k')%string then (k, v) :: ps' else (k', v') :: assign k v ps'
  end.

(** [delete o[k]] on the property list. *)
Fixpoint remove (k : string) (ps : list (string * JsVal))
  : list (string * JsVal) :=
  match ps with
  | [] => []
  | (k', v') :: ps' =>
      if (k =? k')%string then remove k ps' else (k', v') :: remove k ps'
  end.

(** The value of [v.k] where it does not throw: the property of an object,
    [undefined] when the object has none and on a primitive (none of the keys
    this code reads is a property of a built-in prototype of a primitive). *)
Definition prop (v : JsVal) (k : string) : JsVal :=
  match v with
  | JObj _ ps => match lookup k ps with Some x => x | None => JUndefined end
  | _ => JUndefined
  end.

(** [v.k] and [v[k]]: reading a property of [undefined] or [null] throws. *)
Definition get (v : JsVal) (k : string) : Res JsVal :=
  match v with
  | JUndefined | JNull => Throw (TypeError CannotReadPropertyOfNullish)
  | _ => Ok (prop v k)
  end.

(** [o[k] = v] in strict mode (both source files start with ['use strict']):
    the updated object; it throws on [undefined], [null] and primitives. *)
Definition set (o : JsVal) (k : string) (v : JsVal) : Res JsVal :=
  match o with
  | JObj c ps => Ok (JObj c (assign k v ps))
  | JUndefined | JNull => Throw (TypeError CannotSetPropertyOfNullish)
  | _ => Throw (TypeError CannotCreatePropertyOnPrimitive)
  end.

(** [delete o[k]] where [o] is known to be truthy. *)
Definition delete (o : JsVal) (k : string) : JsVal :=
  match o with
  | JObj c ps => JObj c (remove k ps)
  | _ => o
  end.

(** [typeof v === 'function'] *)
Definition isFunction (v : JsVal) : bool :=
  match v with
  | JObj (Some _) _ => true
  | _ => false
  end.

(** [typeof v === 'string'] *)
Definition isString (v : JsVal) : bool :=
  match v with
  | JStr _ => true
  | _ => false
  end.

(** [typeof v === 'number'] *)
Definition isNumber (v : JsVal) : bool :=
  match v with
  | JNum _ | JNaN => true
  | _ => false
  end.

(** [v === false] *)
Definition strictly_false (v : JsVal) : bool :=
  match v with
  | JBool false => true
  | _ => false
  end.

(** The decimal text of an integer, as [String(n)] prints it. *)
Definition decimal (n : Z) : string := NilZero.string_of_int (Z.to_int n).

(** The white space and the line terminators among the 8-bit characters:
    what [parseInt] skips at the start of its text. *)
Definition white_space (c : ascii) : bool :=
  let n := nat_of_ascii c in
  ((9 <=? n) && (n <=? 13) || (n =? 32) || (n =? 160))%nat.

Fixpoint skip_white_space (s : string) : string :=
  match s with
  | EmptyString => s
  | String c s' => if white_space c then skip_white_space s' else s
  end.

Definition is_digit (c : ascii) : bool :=
  let n := nat_of_ascii c in ((48 <=? n) && (n <=? 57))%nat.

(** The digits a text starts with. *)
Fixpoint leading_digits (s : string) : string :=
  match s with
  | EmptyString => EmptyString
  | String c s' => if is_digit c then String c (leading_digits s') else EmptyString
  end.

(** [parseInt(s, 10)]: white space is skipped, then comes an optional sign,
    then the digits up to the first character that is none; [None] is [NaN],
    the result for a text without such digits. *)
Definition parseInt (s : string) : option Z :=
  let s := skip_white_space s in
  let negative := match s with String "-" _ => true | _ => false end in
  let s := match s with
           | String "-" s' => s'
           | String "+" s' => s'
           | _ => s
           end in
  match leading_digits s with
  | EmptyString => None
  | digits =>
      match NilEmpty.uint_of_string digits with
      | Some d => Some (if negative then - Z.of_uint d else Z.of_uint d)
      | None => None
      end
  end.

(** The characters of a string as properties, from index [i] on. *)
Fixpoint characters (i : nat) (s : string) : list (string * JsVal) :=
  match s with
  | EmptyString => []
  | String c s' =>
      (decimal (Z.of_nat i), JStr (String c EmptyString)) :: characters (S i) s'
  end.

(** The own enumerable properties [Object.assign] copies from a source: the
    properties of an object, the characters of a string, nothing of any
    other primitive. *)
Definition own_enumerable (v : JsVal) : list (string * JsVal) :=
  match v with
  | JObj _ ps => ps
  | JStr s => characters 0 s
  | _ => []
  end.

(** [Object.assign(target, source)] on property lists. *)
Definition Object_assign (target : list (string * JsVal)) (source : JsVal)
  : list (string * JsVal) :=
  fold_left (fun acc kv => assign (fst kv) (snd kv) acc) (own_enumerable source) target.

(** The line feed of ['\n'] *)
Definition LF : string := String (ascii_of_nat 10) EmptyString.

(** What this code uses of the JavaScript runtime and of node's libraries
    without defining it. *)
Record JsRuntime : Type := {
  (** [Number(s)] for a string that is not empty; [None] is [NaN] *)
  Number_of_string : string -> option Z;
  (** [Number(o)] for an object (through [valueOf] and [toString]) *)
  Number_of_object : JsVal -> option Z;
  (** [String(o)] and [o.toString()] for an object *)
  String_of_object : JsVal -> string;
  (** [JSON.stringify(v)]: a string, [undefined], or an exception *)
  JSON_stringify : JsVal -> Res JsVal;
  (** [crypto.createHash('md5').update(s).digest('hex')] *)
  md5_hex : string -> string;
  (** the property [x] of the global object, read by a free identifier [x] *)
  global_object : string -> option JsVal
}.

Section Coercions.

Variable rt : JsRuntime.

(** [Number(v)]; [None] is [NaN]. *)
Definition ToNumber (v : JsVal) : option Z :=
  match v with
  | JUndefined | JNaN => None
  | JNull => Some 0
  | JBool b => Some (if b then 1 else 0)
  | JNum n => Some n
  | JStr s => if (s =? "")%string then Some 0 else Number_of_string rt s
  | JObj _ _ => Number_of_object rt v
  end.

(** [String(v)] *)
Definition ToString (v : JsVal) : string :=
  match v with
  | JUndefined => "undefined"
  | JNull => "null"
  | JBool b => if b then "true" else "false"
  | JNum n => decimal n
  | JNaN => "NaN"
  | JStr s => s
  | JObj _ _ => String_of_object rt v
  end.

(** [v >= n] for a number literal [n] *)
Definition js_ge (v : JsVal) (n : Z) : bool :=
  match ToNumber v with
  | Some x => n <=? x
  | None => false
  end.

(** [v < n] for a number literal [n] *)
Definition js_lt (v : JsVal) (n : Z) : bool :=
  match ToNumber v with
  | Some x => x <? n
  | None => false
  end.

(** [a - b] *)
Definition js_sub (a b : JsVal) : JsVal :=
  match ToNumber a, ToNumber b with
  | Some x, Some y => JNum (x - y)
  | _, _ => JNaN
  end.

(** A free identifier that no scope of the module binds is read from the
    global object, and reading one that is not there throws. *)
Definition free_identifier (x : string) : Res JsVal :=
  match global_object rt x with
  | Some v => Ok v
  | None => Throw (ReferenceError x)
  end.

End Coercions.

(* ================================================================== *)
(** ** The dependencies of [microservice.js] *)
(* ================================================================== *)

(** Boom (npm [boom]): the error [new Boom(err, {statusCode})] builds.  Boom
    makes a number of the status code with [parseInt(statusCode, 10)] and
    asserts that it is a number of 400 or more; the error it returns has
    [isServer] for a status from 500 on and an [output] with that number and
    with headers of its own, empty at first.  Only what this repository
    reads or writes of the error is kept. *)
Module Boom.

Record Output : Type := {
  statusCode : JsVal;
  headers : JsVal
}.

Record t : Type := {
  isServer : bool;
  output : Output
}.

(** What the assertion of Boom throws. *)
Definition AssertionError : Exn :=
  Thrown (JObj None [("name", JStr "AssertionError")]).

(** The error of a status code that is a number of 400 or more. *)
Definition initialize (numberCode : Z) : t :=
  {| isServer := 500 <=? numberCode;
     output := {| statusCode := JNum numberCode; headers := JObj None [] |} |}.

(** [new Boom(err, { statusCode })].  The error [err] is cloned when it is
    an [Error] and becomes the message of a new [Error] otherwise; nothing
    of it decides the output. *)
Definition new (rt : JsRuntime) (err : JsVal) (statusCode : JsVal) : Res t :=
  match parseInt (ToString rt statusCode) with
  | Some numberCode =>
      if 400 <=? numberCode then Ok (initialize numberCode)
      else Throw AssertionError
  | None => Throw AssertionError
  end.

(** [Boom.notFound()] *)
Definition notFound : t := initialize 404.

Definition set_output_headers (b : t) (h : JsVal) : t :=
  {| isServer := isServer b;
     output := {| statusCode := statusCode (output b); headers := h |} |}.

End Boom.

(** The hapi response toolkit, as the interface [replyHandler] and
    [redirectHandler] call. *)
Module Hapi.

Record Toolkit (R : Type) : Type := {
  response : JsVal -> R;
  type : string -> R -> R;
  header : string -> JsVal -> R -> R;
  etag : JsVal -> R -> R;
  redirect : JsVal -> R
}.
Arguments response {R} _ _.
Arguments type {R} _ _ _.
Arguments header {R} _ _ _ _.
Arguments etag {R} _ _ _.
Arguments redirect {R} _ _.

(** A response that records what was asked of it. *)
Record Response : Type := {
  source : JsVal;
  contentType : option string;
  headers : list (string * JsVal);
  etagOf : option JsVal;
  location : option JsVal
}.

Definition toolkit : Toolkit Response := {|
  response := fun v =>
    {| source := v; contentType := None; headers := []; etagOf := None;
       location := None |};
  type := fun ct r =>
    {| source := source r; contentType := Some ct; headers := headers r;
       etagOf := etagOf r; location := location r |};
  header := fun k v r =>
    {| source := source r; contentType := contentType r;
       headers := assign k v (headers r); etagOf := etagOf r;
       location := location r |};
  etag := fun h r =>
    {| source := source r; contentType := contentType r; headers := headers r;
       etagOf := Some h; location := location r |};
  redirect := fun url =>
    {| source := JNull; contentType := None; headers := []; etagOf := None;
       location := Some url |}
|}.

End Hapi.

(* ================================================================== *)
(** ** [src/src/microservice.js] *)
(* ================================================================== *)

Module MicroService.

(** What [replyHandler] returns: a Boom error or a toolkit response. *)
Inductive Reply (R : Type) : Type :=
| ReplyBoom (b : Boom.t)
| ReplyResponse (r : R).
Arguments ReplyBoom {R} b.
Arguments ReplyResponse {R} r.

(** The [{data, hash}] of [methodOutput]. *)
Record Output : Type := {
  data : JsVal;
  hash : JsVal
}.

(** The call [Context()] of [handleContext]: [Context] is declared with
    [class], and a class constructor called without [new] throws. *)
Definition Context_call : Res JsVal := Throw (TypeError ClassConstructorWithoutNew).

Section WithRuntime.

Variable rt : JsRuntime.

(** [methodOutput(result)], lines 206-229. *)
Definition methodOutput (result : JsVal) : Res Output :=
  data <- try_catch (JSON_stringify rt result) (fun err => Throw err) ;;
  hash <- try_catch
            (match data with
             | JStr s => Ok (JStr (md5_hex rt s))
             | _ => Ok JUndefined
             end)
            (fun err => Throw err) ;;
  Ok {| data := result; hash := hash |}.

(** The status code [replyHandler] chooses for an error, lines 134-145. *)
Definition statusCode_of (err : JsVal) : Res JsVal :=
  let statusCode := JNum 404 in
  c <- get err "code" ;;
  sc <- get err "statusCode" ;;
  let code := js_or c sc in
  Ok (if truthy code then
        if js_ge rt code 400 && js_lt rt code 500 then code
        else if js_ge rt code 500 && js_lt rt code 600 then JNum 503
        else statusCode
      else statusCode).

(** [MicroService.replyHandler(err, data, responseToolkit, cacheControl)],
    lines 131-170.  [responseType], the second argument of the call of
    [methodOutput], is an identifier that neither the function nor the module
    declares. *)
Definition replyHandler {R : Type} (err data : JsVal)
  (responseToolkit : Hapi.Toolkit R) (cacheControl : JsVal) : Res (Reply R) :=
  let contentType := "application/json" in
  if truthy err then
    statusCode <- statusCode_of err ;;
    boomErr <- Boom.new rt err statusCode ;;
    h <- get err "headers" ;;
    let boomErr :=
      if truthy h then
        Boom.set_output_headers boomErr
          (JObj None
             (Object_assign
                (own_enumerable
                   (js_or (Boom.headers (Boom.output boomErr)) (JObj None [])))
                h))
      else boomErr in
    Ok (ReplyBoom boomErr)
  else if negb (truthy data) then
    Ok (ReplyBoom Boom.notFound)
  else
    responseType <- free_identifier rt "responseType" ;;
    results <- methodOutput data ;;
    let response := Hapi.response responseToolkit (MicroService.data results) in
    let response := Hapi.type responseToolkit contentType response in
    let response :=
      if truthy cacheControl
      then Hapi.header responseToolkit "cache-control" cacheControl response
      else response in
    let response :=
      if truthy (hash results)
      then Hapi.etag responseToolkit (hash results) response
      else response in
    Ok (ReplyResponse response).

(** [MicroService.redirectHandler(redirectUrl, context, responseToolkit)],
    lines 179-187. *)
Definition redirectHandler {R : Type} (redirectUrl context : JsVal)
  (responseToolkit : Hapi.Toolkit R) : R :=
  let cookie := prop (prop context "headers") "set-cookie" in
  if truthy context && truthy (prop context "headers") && truthy cookie then
    Hapi.header responseToolkit "set-cookie" cookie
      (Hapi.redirect responseToolkit redirectUrl)
  else
    Hapi.redirect responseToolkit redirectUrl.

(** [MicroService.handleContext(request={})], lines 194-198: the default
    applies to a missing or [undefined] argument only. *)
Definition handleContext (request : JsVal) : Res JsVal :=
  let request := match request with JUndefined => JObj None [] | _ => request end in
  headers <- get request "headers" ;;
  id <- get headers "x-request-id" ;;
  v <- (if truthy id then Ok id
        else (c <- Context_call ;; get c "id")) ;;
  Ok (JObj None [("x-request-id", v)]).

End WithRuntime.

End MicroService.

(* ================================================================== *)
(** ** The world the logger runs in *)
(* ================================================================== *)

(** A log handle: the logger [bunyan.createLogger] returns, with the numeric
    level its [level()] answers, or the result of [parent.child(fields)].
    What [child] does with the fields is the sink's business; a handle keeps
    the fields it was derived with. *)
Inductive LogHandle : Type :=
| RootLogger (level : Z)
| Child (parent : LogHandle) (fields : list (string * JsVal)).

Fixpoint level_of (l : LogHandle) : Z :=
  match l with
  | RootLogger n => n
  | Child p _ => level_of p
  end.

(** The methods a record is handed to the sink with. *)
Inductive Level : Type := TRACE | INFO | WARN | ERROR.

(** A call [handle.<level>(data, msg)].  [origin] is ghost state: the timer
    whose callback made the call, [None] for a call made directly. *)
Record LogRecord : Type := {
  rec_level : Level;
  rec_handle : LogHandle;
  rec_data : JsVal;
  rec_msg : string;
  origin : option nat
}.

(** The readings of the outside world, by the number of readings so far. *)
Record Env : Type := {
  (** [Date.now()] *)
  Date_now : nat -> Z;
  (** [uuid.v4()] *)
  uuid_v4 : nat -> string;
  (** the event loop lag in milliseconds, rounded as [toFixed()] rounds it *)
  lag_rounded : nat -> Z
}.

(** [class Context], [src/src/context.js] lines 6-31. *)
Module Context.

Record t : Type := {
  id : JsVal;
  start : JsVal;
  log : option LogHandle;
  timer : option nat
}.

Definition set_timer (c : t) (h : option nat) : t :=
  {| id := id c; start := start c; log := log c; timer := h |}.

End Context.

(** The callback [logIncomingRequest] hands to [setTimeout], with the
    variables it closes over. *)
Record Closure : Type := {
  cl_context : Context.t;
  cl_data : JsVal;
  cl_message : string
}.

(** A pending one-shot timer of the event loop. *)
Record Timer : Type := {
  handle : nat;
  due : Z;
  callback : Closure
}.

Record World : Type := {
  clock_reads : nat;
  uuid_reads : nat;
  lag_reads : nat;
  loop_time : Z;
  timers : list Timer;
  next_timer : nat;
  sink : list LogRecord
}.

(** A computation that reads and changes the world and may throw; what it
    did before throwing stays done. *)
Definition M (A : Type) : Type := World -> Res A * World.

Definition ret {A : Type} (a : A) : M A := fun w => (Ok a, w).

Definition bindM {A B : Type} (c : M A) (k : A -> M B) : M B :=
  fun w =>
    match c w with
    | (Ok a, w') => k a w'
    | (Throw e, w') => (Throw e, w')
    end.

Definition lift {A : Type} (r : Res A) : M A := fun w => (r, w).

Declare Scope io_scope.
Delimit Scope io_scope with io.
Notation "x <- c ;; k" := (bindM c (fun x => k))
  (at level 61, c at next level, right associativity) : io_scope.
Notation "c ;;; k" := (bindM c (fun _ => k))
  (at level 61, right associativity) : io_scope.

(** The delay node gives a timer: the one asked for, or 1 ms when that is
    below 1 or above 2147483647. *)
Definition timer_delay (delay : Z) : Z :=
  if (1 <=? delay) && (delay <=? 2147483647) then delay else 1.

Section Effects.

Variable env : Env.

(** [Date.now()] *)
Definition Date_now_call : M Z := fun w =>
  (Ok (Date_now env (clock_reads w)),
   {| clock_reads := S (clock_reads w); uuid_reads := uuid_reads w;
      lag_reads := lag_reads w; loop_time := loop_time w; timers := timers w;
      next_timer := next_timer w; sink := sink w |}).

(** [uuid.v4()] *)
Definition uuid_v4_call : M string := fun w =>
  (Ok (uuid_v4 env (uuid_reads w)),
   {| clock_reads := clock_reads w; uuid_reads := S (uuid_reads w);
      lag_reads := lag_reads w; loop_time := loop_time w; timers := timers w;
      next_timer := next_timer w; sink := sink w |}).

(** [this.lag().toFixed()] *)
Definition lag_call : M JsVal := fun w =>
  (Ok (JStr (decimal (lag_rounded env (lag_reads w)))),
   {| clock_reads := clock_reads w; uuid_reads := uuid_reads w;
      lag_reads := S (lag_reads w); loop_time := loop_time w; timers := timers w;
      next_timer := next_timer w; sink := sink w |}).

(** [setTimeout(callback, delay)]: a fresh handle; the timer is due after
    [timer_delay delay] milliseconds of loop time. *)
Definition setTimeout (cb : Closure) (delay : Z) : M nat := fun w =>
  (Ok (next_timer w),
   {| clock_reads := clock_reads w; uuid_reads := uuid_reads w;
      lag_reads := lag_reads w; loop_time := loop_time w;
      timers := timers w ++ [{| handle := next_timer w;
                                due := loop_time w + timer_delay delay;
                                callback := cb |}];
      next_timer := S (next_timer w); sink := sink w |}).

(** [clearTimeout(h)]: the timer is no longer pending; nothing happens when
    it is not pending. *)
Definition clearTimeout (h : nat) : M unit := fun w =>
  (Ok tt,
   {| clock_reads := clock_reads w; uuid_reads := uuid_reads w;
      lag_reads := lag_reads w; loop_time := loop_time w;
      timers := filter (fun t => negb (Nat.eqb (handle t) h)) (timers w);
      next_timer := next_timer w; sink := sink w |}).

(** [handle.<level>(data, msg)], made from the callback of timer [from] or
    directly; calling a method of [undefined] throws. *)
Definition emit (from : option nat) (lv : Level) (l : option LogHandle)
  (data : JsVal) (msg : string) : M unit := fun w =>
  match l with
  | None => (Throw (TypeError CannotReadPropertyOfNullish), w)
  | Some h =>
      (Ok tt,
       {| clock_reads := clock_reads w; uuid_reads := uuid_reads w;
          lag_reads := lag_reads w; loop_time := loop_time w;
          timers := timers w; next_timer := next_timer w;
          sink := sink w ++ [{| rec_level := lv; rec_handle := h;
                                rec_data := data; rec_msg := msg;
                                origin := from |}] |})
  end.

End Effects.

(* ================================================================== *)
(** ** [src/src/context.js]: [class Context] and [class Logger] *)
(* ================================================================== *)

(** The hapi request, with the fields the logger reads ([url] is
    [request.raw.req.url]) and the two it writes. *)
Module Request.

Record t : Type := {
  method : JsVal;
  headers : JsVal;
  params : JsVal;
  path : JsVal;
  query : JsVal;
  state : JsVal;
  url : JsVal;
  response : JsVal;
  context : option Context.t
}.

Definition set_context (r : t) (c : option Context.t) : t :=
  {| method := method r; headers := headers r; params := params r;
     path := path r; query := query r; state := state r; url := url r;
     response := response r; context := c |}.

Definition set_response (r : t) (v : JsVal) : t :=
  {| method := method r; headers := headers r; params := params r;
     path := path r; query := query r; state := state r; url := url r;
     response := v; context := context r |}.

End Request.

(** [o[k] = f(o[k])]: an assignment to a property of the object [o.k] refers
    to, seen from [o]. *)
Definition update (o : JsVal) (k : string) (f : JsVal -> Res JsVal) : Res JsVal :=
  x <- get o k ;;
  x' <- f x ;;
  set o k x'.

Module Logger.

(** A [Logger]: [this.log] and [this.unresponsiveTimeout] ([this.lag] is
    read through [lag_call]). *)
Record t : Type := {
  log : LogHandle;
  unresponsiveTimeout : Z
}.

Section WithRuntime.

Variable rt : JsRuntime.
Variable env : Env.

Local Open Scope io_scope.

(** [new Context(id, start, log)], lines 13-22.  [log] is [Some] for a value
    that is truthy and has a function [child], [None] for any other. *)
Definition new_Context (id start : JsVal) (log : option LogHandle) : M Context.t :=
  this_id <- (if truthy id then ret id
              else (u <- uuid_v4_call env ;; ret (JStr u))) ;;
  this_start <- (if truthy start then ret start
                 else (n <- Date_now_call env ;; ret (JNum n))) ;;
  let this_log :=
    match log with
    | Some l => Some (Child l [("request_id", id)])
    | None => None
    end in
  ret {| Context.id := this_id; Context.start := this_start;
         Context.log := this_log; Context.timer := None |}.

(** [context.dt()], lines 28-30. *)
Definition dt (c : Context.t) : M JsVal :=
  n <- Date_now_call env ;;
  ret (js_sub rt (JNum n) (Context.start c)).

(** [Logger.getFullErrorStack(ex)], lines 267-276.  The recursion follows
    the value [ex.cause()] returns, found among the properties of [ex]. *)
Fixpoint getFullErrorStack (ex : JsVal) : JsVal :=
  let ret := js_or (prop ex "stack") (JStr (ToString rt ex)) in
  match ex with
  | JObj _ ps =>
      (fix cause_in (l : list (string * JsVal)) : JsVal :=
         match l with
         | [] => ret
         | (k, v) :: l' =>
             if ("cause" =? k)%string then
               match v with
               | JObj (Some cex) _ =>
                   if truthy cex then
                     JStr (ToString rt ret ++ (LF ++ "Caused by: ")
                           ++ ToString rt (getFullErrorStack cex))
                   else ret
               | _ => ret
               end
             else cause_in l'
         end) ps
  | _ => ret
  end.

(** [Logger.serializeError(err)], lines 248-260. *)
Definition serializeError (err : JsVal) : JsVal :=
  if negb (truthy err) || negb (truthy (prop err "stack")) then err
  else
    JObj None
      [("message", prop err "message");
       ("name", prop err "name");
       ("stack", getFullErrorStack err);
       ("code", prop err "code");
       ("signal", prop err "signal");
       ("data", prop err "data")].

(** [logIncomingRequest(request)], lines 67-97: the request with its context
    attached. *)
Definition logIncomingRequest (this : t) (request : Request.t) : M Request.t :=
  id <- lift (get (Request.headers request) "x-request-id") ;;
  context <- new_Context id JNull (Some (log this)) ;;
  lag <- lag_call env ;;
  let data :=
    JObj None
      [("request",
        JObj None
          [("method", Request.method request);
           ("headers", Request.headers request);
           ("params", Request.params request);
           ("path", Request.path request);
           ("query", Request.query request);
           ("state", Request.state request);
           ("url", Request.url request);
           ("time", Context.start context)]);
       ("lag", lag)] in
  xff <- lift (get (Request.headers request) "x-forwarded-for") ;;
  data <- lift (if truthy xff
                then update data "request" (fun r => set r "remote" xff)
                else Ok data) ;;
  let message :=
    (ToString rt (Request.method request) ++ " "
     ++ ToString rt (Request.path request))%string in
  emit None TRACE (Context.log context) data message ;;;
  h <- setTimeout {| cl_context := context; cl_data := data;
                     cl_message := message |}
         (unresponsiveTimeout this) ;;
  ret (Request.set_context request (Some (Context.set_timer context (Some h)))).

(** The callback of the timer, lines 94-96. *)
Definition unresponsive (h : nat) (cb : Closure) : M unit :=
  match Context.log (cl_context cb) with
  | None => lift (Throw (TypeError CannotReadPropertyOfNullish))
  | Some l =>
      elapsed <- dt (cl_context cb) ;;
      emit (Some h) ERROR (Some l) (cl_data cb)
        (cl_message cb ++ " is unresponsive (" ++ ToString rt elapsed ++ "ms)")
  end.

(** [request.context || new Context(request.headers['x-request-id'], null,
    this.log)], line 105. *)
Definition context_of (this : t) (request : Request.t) : M Context.t :=
  match Request.context request with
  | Some c => ret c
  | None =>
      id <- lift (get (Request.headers request) "x-request-id") ;;
      new_Context id JNull (Some (log this))
  end.

(** [if (context.timer) { clearTimeout(context.timer); delete context.timer; }],
    lines 107-110. *)
Definition disarm (context : Context.t) : M Context.t :=
  match Context.timer context with
  | Some h => clearTimeout h ;;; ret (Context.set_timer context None)
  | None => ret context
  end.

(** The record of the outgoing response, lines 112-136. *)
Definition outgoing_data (this : t) (request : Request.t) (context : Context.t)
  : M JsVal :=
  now <- Date_now_call env ;;
  duration <- dt context ;;
  lag <- lag_call env ;;
  let data :=
    JObj None
      [("request",
        JObj None
          [("method", Request.method request);
           ("path", Request.path request);
           ("query", Request.query request);
           ("url", Request.url request);
           ("time", Context.start context)]);
       ("response", JObj None [("time", JNum now)]);
       ("duration", duration);
       ("lag", lag)] in
  xff <- lift (get (Request.headers request) "x-forwarded-for") ;;
  data <- lift (if truthy xff
                then update data "request" (fun r => set r "remote" xff)
                else Ok data) ;;
  lift (if level_of (log this) <? 30
        then
          (d <- update data "request"
                  (fun r => set r "headers" (Request.headers request)) ;;
           d <- update d "request"
                  (fun r => set r "params" (Request.params request)) ;;
           update d "request"
             (fun r => set r "state" (Request.state request)))%js
        else Ok data).

(** The branch of a Boom error, lines 141-157. *)
Definition log_boom (context : Context.t) (request : Request.t)
  (data : JsVal) (message : string) : M Request.t :=
  let response := Request.response request in
  response <- lift (update response "output" (fun o =>
                      update o "headers" (fun h =>
                        set h "x-request-id" (Context.id context)))) ;;
  let request := Request.set_response request response in
  output <- lift (get response "output") ;;
  data <- lift (update data "response" (fun r =>
                  set r "headers" (prop output "headers"))) ;;
  data <- lift (update data "response" (fun r =>
                  set r "statusCode" (prop output "statusCode"))) ;;
  data <- lift (set data "error" (serializeError response)) ;;
  elapsed <- dt context ;;
  let message :=
    (message ++ (ToString rt (prop output "statusCode") ++ " ("
                 ++ ToString rt elapsed ++ "ms)"))%string in
  isServer <- lift (get response "isServer") ;;
  if truthy isServer then
    emit None ERROR (Context.log context) data message ;;;
    ret request
  else
    stack <- lift (e <- get data "error" ;; get e "stack")%js ;;
    data <- lift (if truthy stack
                  then update data "error" (fun e => Ok (delete e "stack"))
                  else Ok data) ;;
    emit None WARN (Context.log context) data message ;;;
    ret request.

(** The branch of a response whose source has [success === false], lines
    158-168. *)
Definition log_failure (context : Context.t) (request : Request.t)
  (data : JsVal) (message : string) : M Request.t :=
  let response := Request.response request in
  response <- lift (update response "headers" (fun h =>
                      set h "x-request-id" (Context.id context))) ;;
  let request := Request.set_response request response in
  data <- lift (update data "response" (fun r =>
                  set r "headers" (prop response "headers"))) ;;
  data <- lift (update data "response" (fun r =>
                  set r "statusCode" (prop response "statusCode"))) ;;
  data <- lift (set data "error" (serializeError (prop response "source"))) ;;
  elapsed <- dt context ;;
  let message :=
    (message ++ (ToString rt (prop response "statusCode") ++ " ("
                 ++ ToString rt elapsed ++ "ms)"))%string in
  emit None ERROR (Context.log context) data message ;;;
  ret request.

(** The branch of every other response, lines 169-176. *)
Definition log_success (context : Context.t) (request : Request.t)
  (data : JsVal) (message : string) : M Request.t :=
  let response := Request.response request in
  response <- lift (update response "headers" (fun h =>
                      set h "x-request-id" (Context.id context))) ;;
  let request := Request.set_response request response in
  data <- lift (update data "response" (fun r =>
                  set r "headers" (prop response "headers"))) ;;
  data <- lift (update data "response" (fun r =>
                  set r "statusCode" (prop response "statusCode"))) ;;
  elapsed <- dt context ;;
  let message :=
    (message ++ (ToString rt (prop response "statusCode") ++ " ("
                 ++ ToString rt elapsed ++ "ms)"))%string in
  emit None INFO (Context.log context) data message ;;;
  ret request.

(** [logOutgoingResponse(request)], lines 103-177: the request as the call
    leaves it (its response stamped, the timer of its context deleted). *)
Definition logOutgoingResponse (this : t) (request : Request.t) : M Request.t :=
  let response := Request.response request in
  context <- context_of this request ;;
  context <- disarm context ;;
  let request :=
    match Request.context request with
    | Some _ => Request.set_context request (Some context)
    | None => request
    end in
  data <- outgoing_data this request context ;;
  let message :=
    (ToString rt (Request.method request) ++ " "
     ++ ToString rt (Request.path request) ++ " ")%string in
  isBoom <- lift (get response "isBoom") ;;
  if truthy isBoom then
    log_boom context request data message
  else
    source <- lift (get response "source") ;;
    success <- lift (if truthy source then get source "success" else Ok source) ;;
    if truthy source && strictly_false success then
      log_failure context request data message
    else
      log_success context request data message.

(** [data = data || {}; if (typeof data === 'string') data = {info: data}],
    the start of [logInfo], [logWarning] and [logTrace]. *)
Definition wrap_data (data : JsVal) : JsVal :=
  let data := js_or data (JObj None []) in
  if isString data then JObj None [("info", data)] else data.

(** [logInfo(msg, data)], lines 184-192. *)
Definition logInfo (this : t) (msg : string) (data : JsVal) : M unit :=
  emit None INFO (Some (log this)) (wrap_data data) msg.

(** [logWarning(msg, data)], lines 199-207. *)
Definition logWarning (this : t) (msg : string) (data : JsVal) : M unit :=
  emit None WARN (Some (log this)) (wrap_data data) msg.

(** [logError(msg, err)], lines 214-218. *)
Definition logError (this : t) (msg : string) (err : JsVal) : M unit :=
  emit None ERROR (Some (log this)) (JObj None [("err", serializeError err)]) msg.

(** [logTrace(msg, data)], lines 225-233. *)
Definition logTrace (this : t) (msg : string) (data : JsVal) : M unit :=
  emit None TRACE (Some (log this)) (wrap_data data) msg.

End WithRuntime.

End Logger.

(* ================================================================== *)
(** ** The event loop: time passes and due timers fire *)
(* ================================================================== *)

Section EventLoop.

Variable rt : JsRuntime.
Variable env : Env.

(** Is the timer [h] pending? *)
Definition pending (h : nat) (w : World) : bool :=
  existsb (fun t => Nat.eqb (handle t) h) (timers w).

(** [d] milliseconds of loop time pass. *)
Definition advance (d : Z) (w : World) : World :=
  {| clock_reads := clock_reads w; uuid_reads := uuid_reads w;
     lag_reads := lag_reads w; loop_time := loop_time w + Z.max 0 d;
     timers := timers w; next_timer := next_timer w; sink := sink w |}.

(** The timer [t] fires: it stops being pending and its callback runs (a
    timer is one-shot). *)
Definition fire (t : Timer) (w : World) : World :=
  snd (bindM (clearTimeout (handle t))
         (fun _ => Logger.unresponsive rt env (handle t) (callback t)) w).

(** The timers of [ts] that are due and still pending fire, in order. *)
Fixpoint fire_due (ts : list Timer) (w : World) : World :=
  match ts with
  | [] => w
  | t :: ts' =>
      if (due t <=? loop_time w) && pending (handle t) w
      then fire_due ts' (fire t w)
      else fire_due ts' w
  end.

(** One turn of the event loop: [d] milliseconds pass, then the timers that
    are due fire. *)
Definition turn (d : Z) (w : World) : World :=
  let w' := advance d w in fire_due (timers w') w'.

Definition run (ds : list Z) (w : World) : World :=
  fold_left (fun w d => turn d w) ds w.

(** The loop time [ds] takes. *)
Definition elapsed (ds : list Z) : Z :=
  fold_right (fun d acc => Z.max 0 d + acc) 0 ds.

(** The records the callback of timer [h] handed to the sink. *)
Definition fired_by (h : nat) (w : World) : list LogRecord :=
  filter (fun r => match origin r with
                   | Some h' => Nat.eqb h' h
                   | None => false
                   end) (sink w).

(** The pending timers with handle [h]. *)
Definition pending_as (h : nat) (w : World) : list Timer :=
  filter (fun t => Nat.eqb (handle t) h) (timers w).

(** Handles are fresh: every pending timer and every record of a callback
    has a handle below the next one. *)
Definition fresh_handles (w : World) : Prop :=
  Forall (fun t => (handle t < next_timer w)%nat) (timers w)
  /\ Forall (fun r => match origin r with
                      | Some h => (h < next_timer w)%nat
                      | None => True
                      end) (sink w).

(** The records of the callback of [h] among [l]. *)
Definition by_timer (h : nat) (l : list LogRecord) : list LogRecord :=
  filter (fun r => match origin r with
                   | Some h' => Nat.eqb h' h
                   | None => false
                   end) l.

(** What the record of an unresponsive request looks like. *)
Definition unresponsive_record (t : Timer) (r : LogRecord) : Prop :=
  rec_level r = ERROR
  /\ origin r = Some (handle t)
  /\ rec_data r = cl_data (callback t)
  /\ Some (rec_handle r) = Context.log (cl_context (callback t))
  /\ exists n,
       rec_msg r
       = (cl_message (callback t) ++ " is unresponsive ("
          ++ ToString rt (js_sub rt (JNum (Date_now env n))
                            (Context.start (cl_context (callback t))))
          ++ "ms)")%string.

End EventLoop.

(** A computation that leaves the timers alone and hands the sink direct
    records only. *)
Definition quiet {A : Type} (m : M A) : Prop :=
  forall w,
    timers (snd (m w)) = timers w
    /\ next_timer (snd (m w)) = next_timer w
    /\ loop_time (snd (m w)) = loop_time w
    /\ exists l, sink (snd (m w)) = (sink w ++ l)%list
                 /\ Forall (fun r => origin r = None) l.

(** A computation that arms no timer and hands the sink direct records
    only; it may clear timers. *)
Definition tame {A : Type} (m : M A) : Prop :=
  forall w,
    incl (timers (snd (m w))) (timers w)
    /\ next_timer (snd (m w)) = next_timer w
    /\ exists l, sink (snd (m w)) = (sink w ++ l)%list
                 /\ Forall (fun r => origin r = None) l.


(* ================================================================== *)
(** ** The cause chain of an error, in the words of the specification *)
(* ================================================================== *)

(** The number of links of the cause chain of [ex]. *)
Fixpoint chain_length (ex : JsVal) : nat :=
  match ex with
  | JObj _ ps =>
      (fix cause_in (l : list (string * JsVal)) : nat :=
         match l with
         | [] => O
         | (k, v) :: l' =>
             if ("cause" =? k)%string then
               match v with
               | JObj (Some cex) _ => S (chain_length cex)
               | _ => O
               end
             else cause_in l'
         end) ps
  | _ => O
  end.

Section CauseChains.

Variable rt : JsRuntime.

(** The text an error contributes: its stack, or its string form. *)
Definition own_text (ex : JsVal) : string :=
  ToString rt (js_or (prop ex "stack") (JStr (ToString rt ex))).

(** [ex] exposes no function-valued [cause] that returns a truthy error. *)
Definition chain_ends (ex : JsVal) : Prop :=
  isFunction (prop ex "cause") = false
  \/ exists c ps, prop ex "cause" = JObj (Some c) ps /\ truthy c = false.

(** [CauseChain ex texts]: following [cause()] from [ex] while it is a
    function that returns a truthy error visits errors whose texts are
    [texts], [ex] first and the innermost cause last. *)
Inductive CauseChain : JsVal -> list string -> Prop :=
| chain_last (ex : JsVal) :
    chain_ends ex -> CauseChain ex [own_text ex]
| chain_link (ex cex : JsVal) (ps : list (string * JsVal)) (texts : list string) :
    prop ex "cause" = JObj (Some cex) ps ->
    truthy cex = true ->
    CauseChain cex texts ->
    CauseChain ex (own_text ex :: texts).

End CauseChains.

(* ================================================================== *)
(** ** What the outgoing log is stated about *)
(* ================================================================== *)

(** [undefined] or [null] *)
Definition nullish (v : JsVal) : bool :=
  match v with
  | JUndefined | JNull => true
  | _ => false
  end.

Definition is_object (v : JsVal) : bool :=
  match v with
  | JObj _ _ => true
  | _ => false
  end.

(** The headers [logOutgoingResponse] stamps: [output.headers] of a Boom
    error, [headers] of any other response. *)
Definition response_headers (response : JsVal) : JsVal :=
  if truthy (prop response "isBoom")
  then prop (prop response "output") "headers"
  else prop response "headers".

(** The status code of a response: [output.statusCode] of a Boom error,
    [statusCode] of any other response. *)
Definition response_status (response : JsVal) : JsVal :=
  if truthy (prop response "isBoom")
  then prop (prop response "output") "statusCode"
  else prop response "statusCode".

(** A request as hapi hands it to the response event: it has headers, its
    context (when it has one) has a log handle, and the headers of its
    response are an object. *)
Definition loggable (request : Request.t) : bool :=
  negb (nullish (Request.headers request))
  && match Request.context request with
     | Some c => match Context.log c with Some _ => true | None => false end
     | None => true
     end
  && is_object (response_headers (Request.response request)).

(** The id of the context [logOutgoingResponse] works with: the one of the
    context attached to the request, or of the context it creates (the
    [x-request-id] header of the request, or a fresh uuid). *)
Definition outgoing_id (env : Env) (request : Request.t) (w : World) : JsVal :=
  match Request.context request with
  | Some c => Context.id c
  | None =>
      let id := prop (Request.headers request) "x-request-id" in
      if truthy id then id else JStr (uuid_v4 env (uuid_reads w))
  end.

(** The start time of that context. *)
Definition outgoing_start (env : Env) (request : Request.t) (w : World) : JsVal :=
  match Request.context request with
  | Some c => Context.start c
  | None => JNum (Date_now env (clock_reads w))
  end.

(** The classes of an outgoing response, in the order the source
    tests them. *)
Inductive ResponseClass : Type :=
| ServerError
| ClientError
| BusinessFailure
| Success.

Definition classify (response : JsVal) : ResponseClass :=
  if truthy (prop response "isBoom") then
    if truthy (prop response "isServer") then ServerError else ClientError
  else if truthy (prop response "source")
          && strictly_false (prop (prop response "source") "success")
  then BusinessFailure
  else Success.

(** The level each class is logged at. *)
Definition level_for (k : ResponseClass) : Level :=
  match k with
  | ServerError => ERROR
  | ClientError => WARN
  | BusinessFailure => ERROR
  | Success => INFO
  end.

(* ================================================================== *)
(** ** The constructors, [createHapiServer], [addRoutes] and [start] *)
(* ================================================================== *)

(** A parameter declared with a default value: the default stands in for
    [undefined] and for nothing else. *)
Definition default_param (v d : JsVal) : JsVal :=
  match v with
  | JUndefined => d
  | _ => v
  end.

(** The elements of an array literal as properties, from index [i] on. *)
Fixpoint elements (i : nat) (l : list JsVal) : list (string * JsVal) :=
  match l with
  | [] => []
  | v :: l' => (decimal (Z.of_nat i), v) :: elements (S i) l'
  end.

Definition array (l : list JsVal) : JsVal := JObj None (elements 0 l).

(** The object literal [Logger]'s constructor starts its options from,
    lines 52-56. *)
Definition Logger_defaults : list (string * JsVal) :=
  [("name", JStr "service"); ("process", JStr "service"); ("level", JStr "info")].

(** The object literal [createHapiServer] starts the server configuration
    from, lines 243-261. *)
Definition server_defaults : list (string * JsVal) :=
  [("router", JObj None [("stripTrailingSlash", JBool true)]);
   ("routes",
    JObj None
      [("cors",
        JObj None
          [("headers",
            array [JStr "Authorization"; JStr "Content-Type"; JStr "If-None-Match"]);
           ("origin", array [JStr "*"]);
           ("credentials", JBool true)])]);
   ("debug", JBool false)].

(** A [Logger] as its constructor leaves it: [this.options], [this.log],
    the interval [this.lag] probes at, and [this.unresponsiveTimeout]. *)
Record LoggerObject : Type := {
  lg_options : JsVal;
  lg_log : LogHandle;
  lg_lagProbeInterval : JsVal;
  lg_unresponsiveTimeout : JsVal
}.

(** The hapi server [createHapiServer] returns: the configuration it was
    made from, and the [Logger] its two event listeners close over. *)
Record HapiServer : Type := {
  serverConfig : JsVal;
  listener : LoggerObject
}.

(** What [addRoutes] hands to [server.register]: the plugin (its name, its
    version and the routes its [register] function adds, in order) and the
    prefix option. *)
Record Registration : Type := {
  plugin_name : JsVal;
  plugin_version : JsVal;
  plugin_routes : list JsVal;
  routes_prefix : JsVal
}.

(** [try { body } catch (err) { handler }] around effects. *)
Definition try_catchM {A : Type} (body : M A) (handler : Exn -> M A) : M A :=
  fun w =>
    match body w with
    | (Ok a, w') => (Ok a, w')
    | (Throw e, w') => handler e w'
    end.

(** The characters [.] does not match in a regular expression without the
    [s] flag, among the 8-bit characters strings are made of here: line feed
    and carriage return. *)
Definition line_terminator (c : ascii) : bool :=
  (c =? ascii_of_nat 10)%char || (c =? ascii_of_nat 13)%char.

(** [/^\/.+/.test(s)]: a slash first, then at least one character that [.]
    matches. *)
Definition slash_and_more (s : string) : bool :=
  match s with
  | String "/" (String c _) => negb (line_terminator c)
  | _ => false
  end.

(** Every own enumerable key of [v] occurs once, as in an object. *)
Definition unique_keys (v : JsVal) : Prop :=
  NoDup (map fst (own_enumerable v)).

Section Construction.

Variable rt : JsRuntime.
Variable env : Env.

(** [bunyan.createLogger(options)]: the handle, or what bunyan throws at
    options it refuses. *)
Variable createLogger : JsVal -> Res LogHandle.

(** [new Hapi.server(serverConfig)]: hapi throws at a configuration it
    refuses. *)
Variable Hapi_server : JsVal -> Res unit.

(** The delay [setTimeout] makes of its second argument: its number, and a
    number below 1 (which [timer_delay] turns into 1 ms) for [NaN]. *)
Definition milliseconds (v : JsVal) : Z :=
  match ToNumber rt v with
  | Some n => n
  | None => 0
  end.

(** The part of a [Logger] the logging methods read. *)
Definition as_logger (l : LoggerObject) : Logger.t :=
  {| Logger.log := lg_log l;
     Logger.unresponsiveTimeout := milliseconds (lg_unresponsiveTimeout l) |}.

(** [require('event-loop-lag')(ms)], which starts the lag probe: it throws a
    [TypeError] unless [ms] is a number. *)
Definition start_lag_probe (ms : JsVal) : Res unit :=
  if isNumber ms then Ok tt else Throw (TypeError NotANumber).

(** [new Logger(logOptions, lagProbeInterval=250, unresponsiveTimeout=30000)],
    lines 51-61 of [src/src/context.js].  The last statement subscribes the
    listener [on_gc_stats] below to the [stats] events of [./gcStats], a
    module that is not among the sources; subscribing a listener to an event
    emitter returns. *)
Definition Logger_constructor (logOptions lagProbeInterval unresponsiveTimeout : JsVal)
  : Res LoggerObject :=
  let lagProbeInterval := default_param lagProbeInterval (JNum 250) in
  let unresponsiveTimeout := default_param unresponsiveTimeout (JNum 30000) in
  let options := JObj None (Object_assign Logger_defaults logOptions) in
  log <- createLogger options ;;
  _ <- start_lag_probe lagProbeInterval ;;
  Ok {| lg_options := options; lg_log := log;
        lg_lagProbeInterval := lagProbeInterval;
        lg_unresponsiveTimeout := unresponsiveTimeout |}.

(** The listener of the [stats] events, line 60. *)
Definition on_gc_stats (this : LoggerObject) (stats : JsVal) : M unit :=
  Logger.logInfo (as_logger this) "GC" stats.

(** [createHapiServer(userServerConfig, logger)], lines 241-273 of
    [src/src/microservice.js]; [logger] is a [Logger] or a falsy value. *)
Definition createHapiServer (userServerConfig : JsVal) (logger : option LoggerObject)
  : Res HapiServer :=
  log <- match logger with
         | Some l => Ok l
         | None => Logger_constructor JUndefined JUndefined JUndefined
         end ;;
  let serverConfig := JObj None (Object_assign server_defaults userServerConfig) in
  _ <- Hapi_server serverConfig ;;
  Ok {| serverConfig := serverConfig; listener := log |}.

(** The listener of the [request] event, lines 264-266. *)
Definition on_request (server : HapiServer) (request : Request.t) : M Request.t :=
  Logger.logIncomingRequest rt env (as_logger (listener server)) request.

(** The listener of the [response] event, lines 268-270. *)
Definition on_response (server : HapiServer) (request : Request.t) : M Request.t :=
  Logger.logOutgoingResponse rt env (as_logger (listener server)) request.

End Construction.

(** An instance of [class MicroService]. *)
Module Service.

Record t : Type := {
  name : JsVal;
  server : HapiServer;
  log : LoggerObject;
  routePrefix : JsVal;
  port : JsVal;
  healthCheckRoute : JsVal
}.

(** What the handler of the health check route answers. *)
Definition healthy : JsVal :=
  JObj None [("statusCode", JNum 200); ("healthy", JBool true)].

Section WithRuntime.

Variable rt : JsRuntime.
Variable createLogger : JsVal -> Res LogHandle.
Variable Hapi_server : JsVal -> Res unit.

(** The [version] of [package.json]. *)
Variable pkg_version : JsVal.

(** [new MicroService(name, config)], lines 39-68.  The second parameter is
    destructured, which throws on [undefined] and [null]; [this.log] is read
    on line 52, one line before it is assigned, so that [createServer]
    receives [undefined] for its logger.  The handler of the health check
    route is an [async] function: the value kept for its call is the one its
    promise resolves to. *)
Definition constructor (name config : JsVal) : Res t :=
  server <- get config "server" ;;
  let routePrefix := prop config "routePrefix" in
  let log := prop config "log" in
  let lagProbeInterval := prop config "lagProbeInterval" in
  let unresponsiveTimeout := prop config "unresponsiveTimeout" in
  let healthCheckPath :=
    default_param (prop config "healthCheckPath") (JStr "/health") in
  let log := JObj None (Object_assign [("name", name); ("process", name)] log) in
  let this_log : option LoggerObject := None in
  this_server <- createHapiServer createLogger Hapi_server server this_log ;;
  this_log <- Logger_constructor createLogger log lagProbeInterval
                unresponsiveTimeout ;;
  app <- get server "app" ;;
  port <- get app "port" ;;
  Ok {| name := name; server := this_server; log := this_log;
        routePrefix := routePrefix; port := port;
        healthCheckRoute :=
          JObj None
            [("method", JStr "GET");
             ("path", healthCheckPath);
             ("handler", JObj (Some healthy) [])] |}.

(** The prefix [addRoutes] registers the routes under, lines 77-81. *)
Definition prefix_of (routePrefix : JsVal) : JsVal :=
  if negb (slash_and_more (ToString rt routePrefix))
  then JStr ("/" ++ ToString rt routePrefix)
  else routePrefix.

(** [addRoutes(routes)], lines 76-97: the call of [server.register]. *)
Definition addRoutes (this : t) (routes : list JsVal) : Registration :=
  let prefix := prefix_of (routePrefix this) in
  let routes := (routes ++ [healthCheckRoute this])%list in
  {| plugin_name := name this; plugin_version := pkg_version;
     plugin_routes := routes; routes_prefix := prefix |}.

Local Open Scope io_scope.

(** [start()], lines 102-114, with [this.server.start()] as [server_start].
    [this.server.log] reaches hapi's own event log, which no listener of this
    repository reads. *)
Definition start (this : t) (server_start : M unit) : M unit :=
  try_catchM server_start
    (fun err =>
       Logger.logError rt (as_logger rt (log this))
         (ToString rt (name this) ++ " failed to start") JUndefined ;;;
       lift (Throw err)) ;;;
  Logger.logInfo (as_logger rt (log this))
    (ToString rt (name this) ++ " Server Started")
    (JObj None [("port", port this); ("prefix", routePrefix this)]).

End WithRuntime.

End Service.

(** The [request] part of the record [logOutgoingResponse] writes, lines
    113-136: the five fields of the literal, then [remote] for a request
    with a truthy [x-forwarded-for], then the headers, the parameters and the
    state for a logger whose level is below 30. *)
Definition logged_request (this : Logger.t) (request : Request.t) (start : JsVal)
  : JsVal :=
  let xff := prop (Request.headers request) "x-forwarded-for" in
  JObj None
    ([("method", Request.method request);
      ("path", Request.path request);
      ("query", Request.query request);
      ("url", Request.url request);
      ("time", start)]
     ++ (if truthy xff then [("remote", xff)] else [])
     ++ (if level_of (Logger.log this) <? 30
         then [("headers", Request.headers request);
               ("params", Request.params request);
               ("state", Request.state request)]
         else []))%list.

(* ================================================================== *)
(** ** Sample runtimes, for the examples *)
(* ================================================================== *)

(** A runtime that reads decimal strings as numbers, prints every object as
    a plain object, and takes [JSON.stringify] and the global object as
    given. *)
Definition sample_rt (stringify : JsVal -> Res JsVal)
  (globals : string -> option JsVal) : JsRuntime :=
  {| Number_of_string := fun s => option_map Z.of_int (NilEmpty.int_of_string s);
     Number_of_object := fun _ => None;
     String_of_object := fun _ => "[object Object]";
     JSON_stringify := stringify;
     md5_hex := fun s => ("md5:" ++ s)%string;
     global_object := globals |}.

(** Node's global object has no [responseType]. *)
Definition node_globals : string -> option JsVal := fun _ => None.

(** A text at its first [e]: the mantissa, and the exponent when there is
    one. *)
Fixpoint split_exponent (s : string) : string * option string :=
  match s with
  | EmptyString => (EmptyString, None)
  | String c s' =>
      if (c =? "e")%char then (EmptyString, Some s')
      else let (m, e) := split_exponent s' in (String c m, e)
  end.

(** A [Number(s)] that reads decimal integers and, as JavaScript does, the
    exponent notation: ["4e2"] is 400. *)
Definition Number_with_exponent (s : string) : option Z :=
  match split_exponent s with
  | (m, None) => option_map Z.of_int (NilEmpty.int_of_string m)
  | (EmptyString, Some _) | (_, Some EmptyString) => None
  | (m, Some e) =>
      match NilEmpty.int_of_string m, NilEmpty.uint_of_string e with
      | Some a, Some k => Some (Z.of_int a * 10 ^ Z.of_uint k)
      | _, _ => None
      end
  end.

(** The sample runtime with that [Number]. *)
Definition exponent_rt : JsRuntime :=
  {| Number_of_string := Number_with_exponent;
     Number_of_object := fun _ => None;
     String_of_object := fun _ => "[object Object]";
     JSON_stringify := fun _ => Throw (TypeError ConvertingCircularStructure);
     md5_hex := fun s => ("md5:" ++ s)%string;
     global_object := fun _ => None |}.

(** A [JSON.stringify] that fails as it does on circular data. *)
Definition stringify_circular : JsVal -> Res JsVal :=
  fun _ => Throw (TypeError ConvertingCircularStructure).

(** A [JSON.stringify] that answers the same text for every value. *)
Definition stringify_const (text : string) : JsVal -> Res JsVal :=
  fun _ => Ok (JStr text).

Definition sample_env : Env :=
  {| Date_now := fun n => 1000 + 5 * Z.of_nat n;
     uuid_v4 := fun _ => "110ec58a-a0f2-4ac4-8393-c866d813b8d1";
     lag_rounded := fun _ => 2 |}.

Definition empty_world : World :=
  {| clock_reads := 0; uuid_reads := 0; lag_reads := 0; loop_time := 0;
     timers := []; next_timer := 1; sink := [] |}.

(** An error object with a stack; [cause] is the value its [cause()]
    returns, when it has one. *)
Definition sample_error (stack : string) (cause : option JsVal) : JsVal :=
  JObj None
    (("message", JStr "failed") :: ("name", JStr "Error") :: ("stack", JStr stack)
     :: match cause with
        | Some c => [("cause", JObj (Some c) [])]
        | None => []
        end).

(** A Boom error as hapi hands it to the response event. *)
Definition sample_boom (statusCode : Z) (isServer : bool) : JsVal :=
  JObj None
    [("message", JStr "Not Found");
     ("name", JStr "Error");
     ("stack", JStr "Error: Not Found at handler.js:7");
     ("isBoom", JBool true);
     ("isServer", JBool isServer);
     ("output",
      JObj None [("statusCode", JNum statusCode); ("headers", JObj None [])])].

(** A plain hapi response with the given source. *)
Definition sample_response (source : JsVal) : JsVal :=
  JObj None
    [("source", source); ("statusCode", JNum 200); ("headers", JObj None [])].

(** [GET /items] with an [x-request-id], answered by [response]. *)
Definition sample_request (response : JsVal) (context : option Context.t)
  : Request.t :=
  {| Request.method := JStr "GET";
     Request.headers := JObj None [("x-request-id", JStr "r-1")];
     Request.params := JObj None [];
     Request.path := JStr "/items";
     Request.query := JObj None [];
     Request.state := JObj None [];
     Request.url := JStr "/items";
     Request.response := response;
     Request.context := context |}.

Definition sample_logger : Logger.t :=
  {| Logger.log := RootLogger 30; Logger.unresponsiveTimeout := 30000 |}.

(** A [bunyan.createLogger] for the examples: it wants a name that is a
    string, and resolves the names of the levels to their numbers. *)
Definition sample_createLogger (options : JsVal) : Res LogHandle :=
  match prop options "name" with
  | JStr _ =>
      match prop options "level" with
      | JNum n => Ok (RootLogger n)
      | JStr lv =>
          if (lv =? "trace")%string then Ok (RootLogger 10)
          else if (lv =? "debug")%string then Ok (RootLogger 20)
          else if (lv =? "info")%string then Ok (RootLogger 30)
          else if (lv =? "warn")%string then Ok (RootLogger 40)
          else if (lv =? "error")%string then Ok (RootLogger 50)
          else if (lv =? "fatal")%string then Ok (RootLogger 60)
          else Throw (Thrown (JStr "unknown level name"))
      | _ => Ok (RootLogger 30)
      end
  | _ => Throw (Thrown (JStr "options.name (string) is required"))
  end.

(** A hapi that accepts every configuration. *)
Definition sample_Hapi_server (serverConfig : JsVal) : Res unit := Ok tt.

(** The configuration of a service on port 8080 that asks for trace logs
    and for a timeout of 5 seconds. *)
Definition sample_config : JsVal :=
  JObj None
    [("server", JObj None [("app", JObj None [("port", JNum 8080)])]);
     ("routePrefix", JStr "api");
     ("log", JObj None [("level", JStr "trace")]);
     ("unresponsiveTimeout", JNum 5000)].

(* ================================================================== *)
(** ** Properties of the value layer *)
(* ================================================================== *)

Lemma get_truthy (v : JsVal) (k : string) :
  truthy v = true -> get v k = Ok (prop v k).
Proof. destruct v; simpl; intros H; try discriminate; reflexivity. Qed.

Lemma lookup_assign_same (k : string) (v : JsVal) (ps : list (string * JsVal)) :
  lookup k (assign k v ps) = Some v.
Proof.
  induction ps as [|[k' v'] ps IH]; simpl.
  - now rewrite String.eqb_refl.
  - destruct (k =? k')%string eqn:E; simpl.
    + now rewrite String.eqb_refl.
    + now rewrite E.
Qed.

Lemma lookup_assign_other (k k0 : string) (v : JsVal) (ps : list (string * JsVal)) :
  (k0 =? k)%string = false ->
  lookup k0 (assign k v ps) = lookup k0 ps.
Proof.
  intros Hk.
  induction ps as [|[k' v'] ps IH]; simpl.
  - now rewrite Hk.
  - destruct (k =? k')%string eqn:E; simpl.
    + apply String.eqb_eq in E; subst k'. now rewrite Hk.
    + destruct (k0 =? k')%string; [reflexivity | exact IH].
Qed.

Lemma ToNumber_falsy (rt : JsRuntime) (v : JsVal) (n : Z) :
  truthy v = false -> ToNumber rt v = Some n -> n = 0.
Proof.
  destruct v; simpl; try discriminate.
  - intros _ H. now inversion H.
  - destruct b; [discriminate|]. intros _ H. now inversion H.
  - intros H E. apply negb_false_iff, Z.eqb_eq in H. subst. now inversion E.
  - intros H. apply negb_false_iff in H. rewrite H. intros E. now inversion E.
Qed.

(** The decimal text of a number starts with a digit. *)
Lemma digit_first (d : Decimal.uint) :
  d <> Decimal.Nil ->
  exists c rest, NilEmpty.string_of_uint d = String c rest /\ is_digit c = true.
Proof.
  destruct d; intros H; try contradiction; cbn; do 2 eexists; split; reflexivity.
Qed.

Lemma leading_digits_string_of_uint (d : Decimal.uint) :
  leading_digits (NilEmpty.string_of_uint d) = NilEmpty.string_of_uint d.
Proof. induction d; cbn; try rewrite IHd; reflexivity. Qed.

(** [parseInt] of a text that starts with a digit reads its leading digits. *)
Lemma parseInt_digit_first (c : ascii) (rest : string) :
  is_digit c = true ->
  parseInt (String c rest)
  = match NilEmpty.uint_of_string (leading_digits (String c rest)) with
    | Some d => Some (Z.of_uint d)
    | None => None
    end.
Proof.
  intros H.
  destruct c as [[] [] [] [] [] [] [] []]; try discriminate H; reflexivity.
Qed.

(** [parseInt(String(n), 10)] is [n] for a positive integer [n]. *)
Lemma parseInt_decimal (n : Z) : 0 < n -> parseInt (decimal n) = Some n.
Proof.
  destruct n as [|p|p]; try lia. intros _.
  unfold decimal. cbn [Z.to_int NilZero.string_of_int NilZero.string_of_uint].
  pose proof (DecimalPos.Unsigned.to_uint_nonnil p) as Hn.
  destruct (digit_first _ Hn) as (c & rest & Hs & Hd).
  assert (E : NilZero.string_of_uint (Pos.to_uint p)
              = NilEmpty.string_of_uint (Pos.to_uint p)).
  { unfold NilZero.string_of_uint.
    destruct (Pos.to_uint p); [contradiction | reflexivity ..]. }
  rewrite E, Hs, (parseInt_digit_first c rest Hd), <- Hs.
  rewrite leading_digits_string_of_uint, NilEmpty.usu.
  unfold Z.of_uint. now rewrite DecimalPos.Unsigned.of_to.
Qed.

(* ================================================================== *)
(** ** Properties of [microservice.js] *)
(* ================================================================== *)

(** The status code chosen for an error never throws, and is the code in
    the 4xx block, 503 in the 5xx block, 404 otherwise. *)
Lemma statusCode_of_cases (rt : JsRuntime) (err : JsVal) :
  truthy err = true ->
  let code := js_or (prop err "code") (prop err "statusCode") in
  exists sc, MicroService.statusCode_of rt err = Ok sc /\
    match ToNumber rt code with
    | Some n =>
        if (400 <=? n) && (n <? 500) then sc = code
        else if (500 <=? n) && (n <? 600) then sc = JNum 503
        else sc = JNum 404
    | None => sc = JNum 404
    end.
Proof.
  intros Herr code.
  unfold MicroService.statusCode_of.
  rewrite !(get_truthy _ _ Herr). simpl. fold code.
  eexists. split; [reflexivity|].
  unfold js_ge, js_lt.
  destruct (truthy code) eqn:Ht.
  - destruct (ToNumber rt code) as [n|]; simpl; [|reflexivity].
    destruct ((400 <=? n) && (n <? 500)); [reflexivity|].
    destruct ((500 <=? n) && (n <? 600)); reflexivity.
  - destruct (ToNumber rt code) as [n|] eqn:En; [|reflexivity].
    rewrite (ToNumber_falsy rt code n Ht En). reflexivity.
Qed.

(** Boom takes a status code that is a number of 400 or more as it is. *)
Lemma Boom_new_number (rt : JsRuntime) (err : JsVal) (n : Z) :
  400 <= n -> Boom.new rt err (JNum n) = Ok (Boom.initialize n).
Proof.
  intros H. unfold Boom.new. cbn [ToString].
  rewrite parseInt_decimal by lia.
  apply Z.leb_le in H. now rewrite H.
Qed.

(** What Boom makes of a status code it is handed. *)
Lemma Boom_new_cases (rt : JsRuntime) (err sc : JsVal) :
  match parseInt (ToString rt sc) with
  | Some m =>
      if 400 <=? m
      then Boom.new rt err sc = Ok (Boom.initialize m)
      else Boom.new rt err sc = Throw Boom.AssertionError
  | None => Boom.new rt err sc = Throw Boom.AssertionError
  end.
Proof.
  unfold Boom.new. destruct (parseInt (ToString rt sc)) as [m|]; [|reflexivity].
  destruct (400 <=? m); reflexivity.
Qed.

(** The reply to an error: the status code chosen for it, handed to Boom,
    and the headers of the error put on what Boom returns. *)
Lemma replyHandler_error_run (rt : JsRuntime) (R : Type)
  (responseToolkit : Hapi.Toolkit R) (err data cacheControl sc : JsVal) :
  truthy err = true ->
  MicroService.statusCode_of rt err = Ok sc ->
  MicroService.replyHandler rt err data responseToolkit cacheControl
  = match Boom.new rt err sc with
    | Ok b =>
        Ok (MicroService.ReplyBoom
              (if truthy (prop err "headers")
               then Boom.set_output_headers b
                      (JObj None
                         (Object_assign
                            (own_enumerable (Boom.headers (Boom.output b)))
                            (prop err "headers")))
               else b))
    | Throw e => Throw e
    end.
Proof.
  intros Herr Hsc. unfold MicroService.replyHandler. rewrite Herr, Hsc. cbn [bind].
  unfold Boom.new.
  destruct (parseInt (ToString rt sc)) as [m|]; [|reflexivity].
  destruct (400 <=? m); [|reflexivity].
  cbn [bind]. rewrite (get_truthy _ _ Herr). cbn [bind].
  destruct (truthy (prop err "headers")); reflexivity.
Qed.

(** C1 (the code, for every truthy error).  The code of the error is
    [err.code] when that is truthy and [err.statusCode] otherwise.  When the
    code is a number, [replyHandler] returns a Boom error whose status code
    is that number when it is at least 400 and below 500, 503 when it is at
    least 500 and below 600, and 404 otherwise; a code that is no number is
    compared as the number JavaScript makes of it, with the same 503 and 404
    outside the block from 400 to 499, and so a 5xx code other than 503 is
    never returned for a code that is a number.  But a code that is no number
    and compares as one of the block from 400 to 499 is handed to Boom as it
    is: Boom reads it again with [parseInt], answers with the number it
    reads, and throws when it reads no number or one below 400, and then
    [replyHandler] throws where an error wrapper was to be returned.
    Whatever [replyHandler] returns for an error is a Boom error with a
    number of 400 or more for its status code, and whatever it throws is the
    assertion of Boom. *)
Theorem replyHandler_error_statusCode (rt : JsRuntime) (R : Type)
  (responseToolkit : Hapi.Toolkit R) (err data cacheControl : JsVal) :
  truthy err = true ->
  let code :=
    if truthy (prop err "code") then prop err "code" else prop err "statusCode" in
  let reply :=
    MicroService.replyHandler rt err data responseToolkit cacheControl in
  let answers (status : Z) : Prop :=
    exists b,
      reply = Ok (MicroService.ReplyBoom b)
      /\ Boom.statusCode (Boom.output b) = JNum status in
  (forall n, code = JNum n -> 400 <= n < 500 -> answers n)
  /\ (forall n, ToNumber rt code = Some n -> 500 <= n < 600 -> answers 503)
  /\ (forall n, ToNumber rt code = Some n -> n < 400 \/ 600 <= n -> answers 404)
  /\ (ToNumber rt code = None -> answers 404)
  /\ (forall n, ToNumber rt code = Some n -> 400 <= n < 500 ->
      match parseInt (ToString rt code) with
      | Some m =>
          if 400 <=? m then answers m else reply = Throw Boom.AssertionError
      | None => reply = Throw Boom.AssertionError
      end)
  /\ (forall n b m,
        code = JNum n -> reply = Ok (MicroService.ReplyBoom b) ->
        Boom.statusCode (Boom.output b) = JNum m -> 500 <= m < 600 -> m = 503)
  /\ (forall r,
        reply = Ok r ->
        exists b m,
          r = MicroService.ReplyBoom b
          /\ Boom.statusCode (Boom.output b) = JNum m /\ 400 <= m)
  /\ (forall e, reply = Throw e -> e = Boom.AssertionError).
Proof.
  intros Herr code reply answers.
  destruct (statusCode_of_cases rt err Herr) as [sc [Hsc Hcases]].
  unfold js_or in Hcases. fold code in Hcases.
  pose proof (replyHandler_error_run rt R responseToolkit err data cacheControl sc
                Herr Hsc) as Hrun.
  fold reply in Hrun.
  assert (Hnum : forall m, 400 <= m -> sc = JNum m -> answers m).
  { intros m Hm ->. unfold answers. rewrite Hrun, (Boom_new_number rt err m Hm).
    destruct (truthy (prop err "headers")); eexists; split; reflexivity. }
  assert (H4 : forall n, ToNumber rt code = Some n -> 400 <= n < 500 -> sc = code).
  { intros n En Hn. rewrite En in Hcases.
    replace ((400 <=? n) && (n <? 500)) with true in Hcases; [exact Hcases|].
    symmetry. apply andb_true_iff. split; [apply Z.leb_le | apply Z.ltb_lt]; lia. }
  assert (H5 : forall n, ToNumber rt code = Some n -> 500 <= n < 600 -> sc = JNum 503).
  { intros n En Hn. rewrite En in Hcases.
    replace ((400 <=? n) && (n <? 500)) with false in Hcases.
    - replace ((500 <=? n) && (n <? 600)) with true in Hcases; [exact Hcases|].
      symmetry. apply andb_true_iff. split; [apply Z.leb_le | apply Z.ltb_lt]; lia.
    - symmetry. apply andb_false_iff. right. apply Z.ltb_ge. lia. }
  assert (H0 : forall n, ToNumber rt code = Some n -> n < 400 \/ 600 <= n ->
                         sc = JNum 404).
  { intros n En Hn. rewrite En in Hcases.
    replace ((400 <=? n) && (n <? 500)) with false in Hcases.
    - replace ((500 <=? n) && (n <? 600)) with false in Hcases; [exact Hcases|].
      symmetry. apply andb_false_iff.
      destruct Hn; [left; apply Z.leb_gt | right; apply Z.ltb_ge]; lia.
    - symmetry. apply andb_false_iff.
      destruct Hn; [left; apply Z.leb_gt | right; apply Z.ltb_ge]; lia. }
  assert (Hany : forall r,
            reply = Ok r ->
            exists b m,
              r = MicroService.ReplyBoom b
              /\ Boom.statusCode (Boom.output b) = JNum m /\ 400 <= m
              /\ parseInt (ToString rt sc) = Some m).
  { intros r Hr. rewrite Hrun in Hr.
    pose proof (Boom_new_cases rt err sc) as Hb.
    destruct (parseInt (ToString rt sc)) as [m|]; [|rewrite Hb in Hr; discriminate].
    destruct (400 <=? m) eqn:Em; [|rewrite Hb in Hr; discriminate].
    rewrite Hb in Hr. apply Z.leb_le in Em.
    injection Hr as <-. do 2 eexists. split; [reflexivity|].
    split; [|split; [exact Em | reflexivity]].
    destruct (truthy (prop err "headers")); reflexivity. }
  split; [|split; [|split; [|split; [|split; [|split; [|split]]]]]].
  - intros n En Hn. apply Hnum; [lia|].
    rewrite <- En. apply (H4 n); [rewrite En; reflexivity | exact Hn].
  - intros n En Hn. apply Hnum; [lia | exact (H5 n En Hn)].
  - intros n En Hn. apply Hnum; [lia | exact (H0 n En Hn)].
  - intros En. rewrite En in Hcases. apply Hnum; [lia | exact Hcases].
  - intros n En Hn. rewrite <- (H4 n En Hn).
    pose proof (Boom_new_cases rt err sc) as Hb.
    destruct (parseInt (ToString rt sc)) as [m|]; [|now rewrite Hrun, Hb].
    destruct (400 <=? m); [|now rewrite Hrun, Hb].
    unfold answers. rewrite Hrun, Hb.
    destruct (truthy (prop err "headers")); eexists; split; reflexivity.
  - intros n b m En Hr Hst Hm.
    destruct (Hany _ Hr) as (b' & m' & Hb' & Hst' & _ & Hp).
    injection Hb' as <-. rewrite Hst in Hst'. injection Hst' as <-.
    assert (Hsc' : sc = JNum n \/ sc = JNum 503 \/ sc = JNum 404).
    { rewrite En in Hcases. cbn [ToNumber] in Hcases.
      destruct ((400 <=? n) && (n <? 500)); [left; exact Hcases|].
      destruct ((500 <=? n) && (n <? 600)); [right; left | right; right]; exact Hcases. }
    destruct Hsc' as [E | [E | E]]; rewrite E in Hp; cbn [ToString] in Hp.
    + destruct (Z_lt_le_dec 0 n) as [Hpos | Hneg].
      * rewrite (parseInt_decimal n Hpos) in Hp. injection Hp as <-.
        destruct (Z_lt_le_dec n 500) as [Hlt | Hge]; [lia|].
        destruct (Z_lt_le_dec n 600) as [Hlt6 | Hge6]; [|lia].
        assert (E5 : sc = JNum 503) by (apply (H5 n); [now rewrite En | lia]).
        rewrite E in E5. injection E5 as ->. reflexivity.
      * assert (E4 : sc = JNum 404) by (apply (H0 n); [now rewrite En | lia]).
        rewrite E in E4. injection E4 as ->. lia.
    + rewrite (parseInt_decimal 503) in Hp by lia. now injection Hp as <-.
    + rewrite (parseInt_decimal 404) in Hp by lia. injection Hp as <-. lia.
  - intros r Hr. destruct (Hany r Hr) as (b & m & H1 & H2 & H3 & _).
    exists b, m. repeat split; assumption.
  - intros e He. rewrite Hrun in He.
    pose proof (Boom_new_cases rt err sc) as Hb.
    destruct (parseInt (ToString rt sc)) as [m|];
      [destruct (400 <=? m)|]; rewrite Hb in He;
      [discriminate | now injection He as <- | now injection He as <-].
Qed.

(** C1, at errors with a number for a code: [{code: 422}] is answered with
    422, [{statusCode: 422}] and [{code: 0, statusCode: 422}] too (the code
    falls back on [statusCode]), [{code: 502}] with 503, [{code: 900}] and
    [{}] with 404, and [{code: 422, statusCode: 502}] with 422; at the text
    ["422"] for a code the answer is the number 422; and at the text ["4e2"],
    which compares as 400, [replyHandler] throws the assertion of Boom. *)
Lemma replyHandler_error_statusCode_witness :
  let reply (err : JsVal) : Res (MicroService.Reply Hapi.Response) :=
    MicroService.replyHandler exponent_rt err JNull Hapi.toolkit JUndefined in
  let status (err : JsVal) : option JsVal :=
    match reply err with
    | Ok (MicroService.ReplyBoom b) => Some (Boom.statusCode (Boom.output b))
    | _ => None
    end in
  status (JObj None [("code", JNum 422)]) = Some (JNum 422)
  /\ status (JObj None [("statusCode", JNum 422)]) = Some (JNum 422)
  /\ status (JObj None [("code", JNum 0); ("statusCode", JNum 422)])
     = Some (JNum 422)
  /\ status (JObj None [("code", JNum 422); ("statusCode", JNum 502)])
     = Some (JNum 422)
  /\ status (JObj None [("code", JNum 502)]) = Some (JNum 503)
  /\ status (JObj None [("code", JNum 900)]) = Some (JNum 404)
  /\ status (JObj None []) = Some (JNum 404)
  /\ status (JObj None [("code", JStr "422")]) = Some (JNum 422)
  /\ reply (JObj None [("code", JStr "4e2")]) = Throw Boom.AssertionError.
Proof.
  intros reply status.
  assert (Hst : forall err n,
            (exists b,
               reply err = Ok (MicroService.ReplyBoom b)
               /\ Boom.statusCode (Boom.output b) = JNum n) ->
            status err = Some (JNum n)).
  { intros err n (b & Hb & Hs). unfold status. rewrite Hb. now f_equal. }
  split; [|split; [|split; [|split; [|split; [|split; [|split; [|split]]]]]]].
  - apply Hst.
    destruct (replyHandler_error_statusCode exponent_rt _ Hapi.toolkit
                (JObj None [("code", JNum 422)]) JNull JUndefined eq_refl)
      as (H4 & _).
    apply (H4 422); [reflexivity | lia].
  - apply Hst.
    destruct (replyHandler_error_statusCode exponent_rt _ Hapi.toolkit
                (JObj None [("statusCode", JNum 422)]) JNull JUndefined eq_refl)
      as (H4 & _).
    apply (H4 422); [reflexivity | lia].
  - apply Hst.
    destruct (replyHandler_error_statusCode exponent_rt _ Hapi.toolkit
                (JObj None [("code", JNum 0); ("statusCode", JNum 422)])
                JNull JUndefined eq_refl) as (H4 & _).
    apply (H4 422); [reflexivity | lia].
  - apply Hst.
    destruct (replyHandler_error_statusCode exponent_rt _ Hapi.toolkit
                (JObj None [("code", JNum 422); ("statusCode", JNum 502)])
                JNull JUndefined eq_refl) as (H4 & _).
    apply (H4 422); [reflexivity | lia].
  - apply Hst.
    destruct (replyHandler_error_statusCode exponent_rt _ Hapi.toolkit
                (JObj None [("code", JNum 502)]) JNull JUndefined eq_refl)
      as (_ & H5 & _).
    apply (H5 502); [reflexivity | lia].
  - apply Hst.
    destruct (replyHandler_error_statusCode exponent_rt _ Hapi.toolkit
                (JObj None [("code", JNum 900)]) JNull JUndefined eq_refl)
      as (_ & _ & Hout & _).
    apply (Hout 900); [reflexivity | lia].
  - apply Hst.
    destruct (replyHandler_error_statusCode exponent_rt _ Hapi.toolkit
                (JObj None []) JNull JUndefined eq_refl)
      as (_ & _ & _ & Hnan & _).
    apply Hnan. reflexivity.
  - apply Hst.
    destruct (replyHandler_error_statusCode exponent_rt _ Hapi.toolkit
                (JObj None [("code", JStr "422")]) JNull JUndefined eq_refl)
      as (_ & _ & _ & _ & Htext & _).
    exact (Htext 422 eq_refl ltac:(lia)).
  - destruct (replyHandler_error_statusCode exponent_rt _ Hapi.toolkit
                (JObj None [("code", JStr "4e2")]) JNull JUndefined eq_refl)
      as (_ & _ & _ & _ & Htext & _).
    exact (Htext 400 eq_refl ltac:(lia)).
Defined.

(** The code is the first truthy one of [err.code] and [err.statusCode]: a
    text in [err.code] hides a number in [err.statusCode]. *)
Lemma replyHandler_text_code_hides_statusCode :
  exists b,
    MicroService.replyHandler (sample_rt stringify_circular node_globals)
      (JObj None [("code", JStr "ECONNRESET"); ("statusCode", JNum 502)])
      JNull Hapi.toolkit JUndefined
    = Ok (MicroService.ReplyBoom b)
    /\ Boom.statusCode (Boom.output b) = JNum 404.
Proof. eexists. split; reflexivity. Qed.

(** Without an error and without data, [replyHandler] answers not found. *)
Lemma replyHandler_not_found (rt : JsRuntime) (R : Type)
  (responseToolkit : Hapi.Toolkit R) (err data cacheControl : JsVal) :
  truthy err = false ->
  truthy data = false ->
  MicroService.replyHandler rt err data responseToolkit cacheControl
  = Ok (MicroService.ReplyBoom Boom.notFound).
Proof.
  intros He Hd. unfold MicroService.replyHandler. now rewrite He, Hd.
Qed.

(** [methodOutput] rethrows what [JSON.stringify] throws. *)
Lemma methodOutput_rethrows (rt : JsRuntime) (result : JsVal) (e : Exn) :
  JSON_stringify rt result = Throw e ->
  MicroService.methodOutput rt result = Throw e.
Proof. intros H. unfold MicroService.methodOutput. now rewrite H. Qed.

(** [methodOutput] on data that serializes to [text]: the data itself, and
    the md5 of the text. *)
Lemma methodOutput_hash (rt : JsRuntime) (result : JsVal) (text : string) :
  JSON_stringify rt result = Ok (JStr text) ->
  MicroService.methodOutput rt result
  = Ok {| MicroService.data := result;
          MicroService.hash := JStr (md5_hex rt text) |}.
Proof. intros H. unfold MicroService.methodOutput. now rewrite H. Qed.

(** Without an error and with truthy data, [replyHandler] reads the
    identifier [responseType] before anything else. *)
Lemma replyHandler_success_reads_responseType (rt : JsRuntime) (R : Type)
  (responseToolkit : Hapi.Toolkit R) (err data cacheControl : JsVal) :
  truthy err = false ->
  truthy data = true ->
  MicroService.replyHandler rt err data responseToolkit cacheControl
  = bind (free_identifier rt "responseType") (fun _ =>
      bind (MicroService.methodOutput rt data) (fun results =>
        let response :=
          Hapi.type responseToolkit "application/json"
            (Hapi.response responseToolkit (MicroService.data results)) in
        let response :=
          if truthy cacheControl
          then Hapi.header responseToolkit "cache-control" cacheControl response
          else response in
        let response :=
          if truthy (MicroService.hash results)
          then Hapi.etag responseToolkit (MicroService.hash results) response
          else response in
        Ok (MicroService.ReplyResponse response))).
Proof.
  intros He Hd. unfold MicroService.replyHandler. rewrite He, Hd. reflexivity.
Qed.

(** C2 (the code at the failing input): with no error and truthy data, on a
    runtime whose global object has no [responseType], [replyHandler] throws
    a ReferenceError and returns no response. *)
Theorem replyHandler_success_throws_ReferenceError (rt : JsRuntime) (R : Type)
  (responseToolkit : Hapi.Toolkit R) (err data cacheControl : JsVal) :
  truthy err = false ->
  truthy data = true ->
  global_object rt "responseType" = None ->
  MicroService.replyHandler rt err data responseToolkit cacheControl
  = Throw (ReferenceError "responseType").
Proof.
  intros He Hd Hg.
  rewrite (replyHandler_success_reads_responseType rt R _ _ _ _ He Hd).
  unfold free_identifier. now rewrite Hg.
Qed.

(** C2, at [replyHandler(null, {a: 1}, responseToolkit)] in node. *)
Lemma replyHandler_success_throws_ReferenceError_witness :
  MicroService.replyHandler (sample_rt (stringify_const "{a:1}") node_globals)
    JNull (JObj None [("a", JNum 1)]) Hapi.toolkit JUndefined
  = Throw (ReferenceError "responseType").
Proof.
  apply (replyHandler_success_throws_ReferenceError
           (sample_rt (stringify_const "{a:1}") node_globals) _ Hapi.toolkit
           JNull (JObj None [("a", JNum 1)]) JUndefined);
    reflexivity.
Defined.

(** What the success branch builds on a runtime where [responseType] is
    bound: the response holds the data itself (not its serialization), the
    content type, the md5 of the serialization as etag, and the cache-control
    header when one is given. *)
Lemma replyHandler_success_if_bound (rt : JsRuntime) (err data cacheControl v : JsVal)
  (text : string) :
  truthy err = false ->
  truthy data = true ->
  global_object rt "responseType" = Some v ->
  JSON_stringify rt data = Ok (JStr text) ->
  truthy (JStr (md5_hex rt text)) = true ->
  MicroService.replyHandler rt err data Hapi.toolkit cacheControl
  = Ok (MicroService.ReplyResponse
          {| Hapi.source := data;
             Hapi.contentType := Some "application/json";
             Hapi.headers :=
               if truthy cacheControl then [("cache-control", cacheControl)] else [];
             Hapi.etagOf := Some (JStr (md5_hex rt text));
             Hapi.location := None |}).
Proof.
  intros He Hd Hg Hs Hh.
  rewrite (replyHandler_success_reads_responseType rt _ _ _ _ _ He Hd).
  unfold free_identifier. rewrite Hg. cbn [bind].
  rewrite (methodOutput_hash rt data text Hs). cbn [bind].
  cbn [MicroService.hash MicroService.data]. rewrite Hh.
  destruct (truthy cacheControl); reflexivity.
Qed.

(** C9: when [JSON.stringify] throws on the data, [methodOutput] throws the
    same exception, and [replyHandler] (no error, truthy data) returns no
    response: it throws, and what it throws is that exception whenever the
    call of [methodOutput] is reached, that is whenever [responseType] is
    bound. *)
Theorem serialization_failure_is_propagated (rt : JsRuntime) (R : Type)
  (responseToolkit : Hapi.Toolkit R) (err data cacheControl : JsVal) (e : Exn) :
  truthy err = false ->
  truthy data = true ->
  JSON_stringify rt data = Throw e ->
  MicroService.methodOutput rt data = Throw e
  /\ (exists e',
        MicroService.replyHandler rt err data responseToolkit cacheControl = Throw e'
        /\ (forall v, global_object rt "responseType" = Some v -> e' = e)
        /\ (global_object rt "responseType" = None ->
            e' = ReferenceError "responseType")).
Proof.
  intros He Hd Hs.
  split; [exact (methodOutput_rethrows rt data e Hs)|].
  rewrite (replyHandler_success_reads_responseType rt R _ _ _ _ He Hd).
  unfold free_identifier.
  destruct (global_object rt "responseType") as [v|]; cbn [bind].
  - rewrite (methodOutput_rethrows rt data e Hs). cbn [bind].
    exists e. split; [reflexivity|]. split; [reflexivity | discriminate].
  - eexists. split; [reflexivity|]. split; [discriminate | reflexivity].
Qed.

(** C9, at circular data in node: [methodOutput] throws the failure of
    [JSON.stringify], and [replyHandler] throws the ReferenceError of
    [responseType] before it calls [methodOutput]. *)
Lemma serialization_failure_is_propagated_witness :
  let rt := sample_rt stringify_circular node_globals in
  MicroService.methodOutput rt (JObj None [("a", JNum 1)])
  = Throw (TypeError ConvertingCircularStructure)
  /\ MicroService.replyHandler rt JNull (JObj None [("a", JNum 1)])
       Hapi.toolkit JUndefined
     = Throw (ReferenceError "responseType").
Proof.
  intros rt.
  destruct (serialization_failure_is_propagated rt _ Hapi.toolkit JNull
              (JObj None [("a", JNum 1)]) JUndefined
              (TypeError ConvertingCircularStructure) eq_refl eq_refl eq_refl)
    as [Hm [e' [Hr [_ Hn]]]].
  split; [exact Hm|].
  rewrite Hr. f_equal. exact (Hn eq_refl).
Defined.

(** C10: [handleContext] returns (the header it was given) exactly when the
    request has headers with a truthy [x-request-id]; for every other request
    it throws a TypeError: the one of calling the class [Context] without
    [new] when the headers are there, the one of reading a property of
    [undefined] or [null] when they are not, as in a call without argument. *)
Theorem handleContext_throws_without_request_id (request : JsVal) :
  let req := match request with JUndefined => JObj None [] | _ => request end in
  let id := prop (prop req "headers") "x-request-id" in
  (truthy id = true ->
   MicroService.handleContext request = Ok (JObj None [("x-request-id", id)]))
  /\ (truthy id = false ->
      exists k, MicroService.handleContext request = Throw (TypeError k))
  /\ (truthy id = false -> truthy (prop req "headers") = true ->
      MicroService.handleContext request
      = Throw (TypeError ClassConstructorWithoutNew))
  /\ MicroService.handleContext JUndefined
     = Throw (TypeError CannotReadPropertyOfNullish)
  /\ ((exists v, MicroService.handleContext request = Ok v) <-> truthy id = true).
Proof.
  intros req id.
  assert (Hcases :
    (truthy id = true ->
     MicroService.handleContext request = Ok (JObj None [("x-request-id", id)]))
    /\ (truthy id = false ->
        exists k, MicroService.handleContext request = Throw (TypeError k))).
  { unfold MicroService.handleContext. fold req.
    destruct (get req "headers") as [h|e] eqn:Eh.
    - assert (h = prop req "headers") by
        (destruct req; simpl in Eh; inversion Eh; reflexivity).
      subst h. cbn [bind].
      destruct (get (prop req "headers") "x-request-id") as [x|e] eqn:Ex.
      + assert (x = id) by
          (unfold id; destruct (prop req "headers"); simpl in Ex; inversion Ex;
           reflexivity).
        subst x. cbn [bind].
        split; intros Ht; rewrite Ht; cbn [bind].
        * reflexivity.
        * eexists. reflexivity.
      + cbn [bind]. split; intros Ht.
        * unfold id in Ht.
          destruct (prop req "headers"); simpl in Ex, Ht; discriminate.
        * destruct (prop req "headers"); simpl in Ex; inversion Ex;
            eexists; reflexivity.
    - cbn [bind]. split; intros Ht.
      + unfold id in Ht. destruct req; simpl in Eh, Ht; discriminate.
      + destruct req; simpl in Eh; inversion Eh; eexists; reflexivity. }
  destruct Hcases as [Hyes Hno].
  split; [exact Hyes|]. split; [exact Hno|].
  split.
  { intros Ht Hh. unfold MicroService.handleContext. fold req.
    assert (Hg : get req "headers" = Ok (prop req "headers")).
    { destruct req; simpl in Hh |- *; try discriminate; reflexivity. }
    rewrite Hg. cbn [bind]. rewrite (get_truthy _ _ Hh). cbn [bind].
    fold id. rewrite Ht. reflexivity. }
  split; [reflexivity|].
  split.
  - intros [v Hv]. destruct (truthy id) eqn:Ht; [reflexivity|].
    destruct (Hno eq_refl) as [k Hk]. rewrite Hk in Hv. discriminate.
  - intros Ht. eexists. exact (Hyes Ht).
Qed.

(** C10, at a request with headers and no [x-request-id], at a request with
    one, and at the call without argument. *)
Lemma handleContext_throws_without_request_id_witness :
  MicroService.handleContext (JObj None [("headers", JObj None [])])
  = Throw (TypeError ClassConstructorWithoutNew)
  /\ MicroService.handleContext
       (JObj None [("headers", JObj None [("x-request-id", JStr "r-1")])])
     = Ok (JObj None [("x-request-id", JStr "r-1")])
  /\ MicroService.handleContext JUndefined
     = Throw (TypeError CannotReadPropertyOfNullish).
Proof.
  split; [|split].
  - exact (proj1 (proj2 (proj2
             (handleContext_throws_without_request_id
                (JObj None [("headers", JObj None [])])))) eq_refl eq_refl).
  - exact (proj1
             (handleContext_throws_without_request_id
                (JObj None [("headers", JObj None [("x-request-id", JStr "r-1")])]))
             eq_refl).
  - exact (proj1 (proj2 (proj2 (proj2
             (handleContext_throws_without_request_id JUndefined))))).
Defined.

(* ================================================================== *)
(** ** Properties of [class Context] and of the error serializer *)
(* ================================================================== *)

(** What [new Context(id, start, log)] builds when [log] has a [child]
    function: the child is tagged with the argument [id], and the context's
    id is that argument when it is truthy, a fresh uuid otherwise. *)
Lemma new_Context_spec (env : Env) (id start : JsVal) (l : LogHandle) (w : World) :
  exists c w',
    Logger.new_Context env id start (Some l) w = (Ok c, w')
    /\ Context.log c = Some (Child l [("request_id", id)])
    /\ Context.timer c = None
    /\ Context.id c = (if truthy id then id else JStr (uuid_v4 env (uuid_reads w)))
    /\ Context.start c
       = (if truthy start then start else JNum (Date_now env (clock_reads w)))
    /\ timers w' = timers w /\ sink w' = sink w /\ next_timer w' = next_timer w
    /\ loop_time w' = loop_time w.
Proof.
  unfold Logger.new_Context, bindM, ret, uuid_v4_call, Date_now_call.
  destruct (truthy id), (truthy start); cbn; do 2 eexists;
    repeat split; reflexivity.
Qed.

(** C3 (the code at the failing input): when the [id] argument is falsy, the
    context gets a fresh uuid as its id, and the child log handle is tagged
    with the falsy argument, which is not the context's id. *)
Theorem new_Context_tags_with_argument (env : Env) (id start : JsVal)
  (l : LogHandle) (w : World) :
  truthy id = false ->
  uuid_v4 env (uuid_reads w) <> ""%string ->
  exists c w',
    Logger.new_Context env id start (Some l) w = (Ok c, w')
    /\ Context.id c = JStr (uuid_v4 env (uuid_reads w))
    /\ Context.log c = Some (Child l [("request_id", id)])
    /\ Context.id c <> id.
Proof.
  intros Hid Hu.
  destruct (new_Context_spec env id start l w)
    as [c [w' [Hc [Hl [_ [Hi _]]]]]].
  rewrite Hid in Hi.
  exists c, w'. repeat split; try assumption.
  rewrite Hi. intros E. rewrite <- E in Hid. simpl in Hid.
  apply negb_false_iff, String.eqb_eq in Hid. contradiction.
Qed.

(** C3, at [new Context(undefined, null, log)]. *)
Lemma new_Context_tags_with_argument_witness :
  exists c w',
    Logger.new_Context sample_env JUndefined JNull (Some (RootLogger 30)) empty_world
    = (Ok c, w')
    /\ Context.id c = JStr "110ec58a-a0f2-4ac4-8393-c866d813b8d1"
    /\ Context.log c = Some (Child (RootLogger 30) [("request_id", JUndefined)])
    /\ Context.id c <> JUndefined.
Proof.
  apply (new_Context_tags_with_argument sample_env JUndefined JNull
           (RootLogger 30) empty_world eq_refl).
  discriminate.
Defined.

(** With a truthy [id] argument the tag is the context's id. *)
Lemma new_Context_tag_truthy_id (env : Env) (id start : JsVal)
  (l : LogHandle) (w : World) :
  truthy id = true ->
  exists c w',
    Logger.new_Context env id start (Some l) w = (Ok c, w')
    /\ Context.log c = Some (Child l [("request_id", Context.id c)]).
Proof.
  intros Hid.
  destruct (new_Context_spec env id start l w)
    as [c [w' [Hc [Hl [_ [Hi _]]]]]].
  rewrite Hid in Hi. exists c, w'. split; [exact Hc|]. now rewrite Hi.
Qed.

(** [getFullErrorStack], as the source reads. *)
Lemma getFullErrorStack_eq (rt : JsRuntime) (ex : JsVal) :
  Logger.getFullErrorStack rt ex
  = let ret := js_or (prop ex "stack") (JStr (ToString rt ex)) in
    match prop ex "cause" with
    | JObj (Some cex) _ =>
        if truthy cex then
          JStr (ToString rt ret ++ (LF ++ "Caused by: ")
                ++ ToString rt (Logger.getFullErrorStack rt cex))
        else ret
    | _ => ret
    end.
Proof.
  destruct ex as [| | | | | |c ps]; try reflexivity.
  cbn zeta.
  change (Logger.getFullErrorStack rt (JObj c ps))
    with (let ret := js_or (prop (JObj c ps) "stack")
                       (JStr (ToString rt (JObj c ps))) in
          (fix cause_in (l : list (string * JsVal)) : JsVal :=
             match l with
             | [] => ret
             | (k, v) :: l' =>
                 if ("cause" =? k)%string then
                   match v with
                   | JObj (Some cex) _ =>
                       if truthy cex then
                         JStr (ToString rt ret ++ (LF ++ "Caused by: ")
                               ++ ToString rt (Logger.getFullErrorStack rt cex))
                       else ret
                   | _ => ret
                   end
                 else cause_in l'
             end) ps).
  cbn zeta.
  generalize (js_or (prop (JObj c ps) "stack") (JStr (ToString rt (JObj c ps)))).
  intros ret0. unfold prop.
  induction ps as [|[k v] ps IH]; [reflexivity|].
  cbn [lookup]. destruct ("cause" =? k)%string; [reflexivity | exact IH].
Qed.

(** Every chain visits at least the error it starts from. *)
Lemma CauseChain_head (rt : JsRuntime) (ex : JsVal) (texts : list string) :
  CauseChain rt ex texts -> exists rest, texts = own_text rt ex :: rest.
Proof. intros H. destruct H; eexists; reflexivity. Qed.

(** The text of the full stack of an error is the texts of its chain, joined
    by the marker. *)
Lemma getFullErrorStack_chain (rt : JsRuntime) (ex : JsVal) (texts : list string) :
  CauseChain rt ex texts ->
  ToString rt (Logger.getFullErrorStack rt ex)
  = String.concat (LF ++ "Caused by: ") texts.
Proof.
  induction 1 as [ex Hend | ex cex ps texts Hc Ht Hch IH];
    rewrite getFullErrorStack_eq; cbn zeta.
  - destruct Hend as [Hnf | [c [ps [Hc Hf]]]].
    + destruct (prop ex "cause") as [| | | | | |[c|] ps]; try reflexivity.
      discriminate.
    + rewrite Hc, Hf. reflexivity.
  - rewrite Hc, Ht.
    destruct (CauseChain_head rt cex texts Hch) as [rest ->].
    cbn [ToString]. rewrite IH. reflexivity.
Qed.

(** When the stack of an error is a text, so is its full stack. *)
Lemma getFullErrorStack_is_text (rt : JsRuntime) (ex : JsVal) (s : string) :
  prop ex "stack" = JStr s -> s <> ""%string ->
  Logger.getFullErrorStack rt ex
  = JStr (ToString rt (Logger.getFullErrorStack rt ex))
  /\ own_text rt ex = s.
Proof.
  intros Hs Hne.
  assert (Hor : js_or (prop ex "stack") (JStr (ToString rt ex)) = JStr s).
  { rewrite Hs. unfold js_or. simpl.
    destruct (s =? "")%string eqn:E; [apply String.eqb_eq in E; contradiction|].
    reflexivity. }
  split; [|unfold own_text; now rewrite Hor].
  rewrite getFullErrorStack_eq. cbn zeta. rewrite Hor.
  destruct (prop ex "cause") as [| | | | | |[c|] ps]; try reflexivity.
  destruct (truthy c); reflexivity.
Qed.

(** The record [serializeError] builds for an error with a stack text, by
    the texts of its cause chain. *)
Lemma serializeError_chain (rt : JsRuntime) (err : JsVal)
  (s : string) (texts : list string) :
  prop err "stack" = JStr s ->
  s <> ""%string ->
  CauseChain rt err texts ->
  Logger.serializeError rt err
  = JObj None
      [("message", prop err "message");
       ("name", prop err "name");
       ("stack", JStr (String.concat (LF ++ "Caused by: ") texts));
       ("code", prop err "code");
       ("signal", prop err "signal");
       ("data", prop err "data")]
  /\ hd_error texts = Some s.
Proof.
  intros Hs Hne Hch.
  destruct (getFullErrorStack_is_text rt err s Hs Hne) as [Htext Hown].
  split.
  - unfold Logger.serializeError.
    assert (Herr : truthy err = true).
    { destruct err; simpl in Hs; try discriminate; reflexivity. }
    rewrite Herr, Hs. simpl truthy.
    destruct (s =? "")%string eqn:E; [apply String.eqb_eq in E; contradiction|].
    cbn [negb orb].
    rewrite Htext, (getFullErrorStack_chain rt err texts Hch). reflexivity.
  - destruct (CauseChain_head rt err texts Hch) as [rest ->].
    simpl. now rewrite Hown.
Qed.

Lemma chain_length_cause (ex cex : JsVal) (ps : list (string * JsVal)) :
  prop ex "cause" = JObj (Some cex) ps ->
  chain_length ex = S (chain_length cex).
Proof.
  destruct ex as [| | | | | |c qs]; try discriminate.
  unfold prop.
  change (chain_length (JObj c qs))
    with ((fix cause_in (l : list (string * JsVal)) : nat :=
             match l with
             | [] => O
             | (k, v) :: l' =>
                 if ("cause" =? k)%string then
                   match v with
                   | JObj (Some cex) _ => S (chain_length cex)
                   | _ => O
                   end
                 else cause_in l'
             end) qs).
  induction qs as [|[k v] qs IH]; [discriminate|].
  cbn [lookup]. destruct ("cause" =? k)%string; [|exact IH].
  intros H. subst v. reflexivity.
Qed.

(** Every error has a cause chain. *)
Lemma CauseChain_total (rt : JsRuntime) (ex : JsVal) :
  exists texts, CauseChain rt ex texts.
Proof.
  remember (chain_length ex) as n eqn:Hn. revert ex Hn.
  induction n as [|n IH]; intros ex Hn.
  - exists [own_text rt ex]. apply chain_last.
    destruct (prop ex "cause") as [| | | | | |[c|] ps] eqn:E;
      try (left; rewrite E; reflexivity).
    rewrite (chain_length_cause ex c ps E) in Hn. discriminate.
  - destruct (prop ex "cause") as [| | | | | |[c|] ps] eqn:E;
      try (exists [own_text rt ex]; apply chain_last; left; rewrite E; reflexivity).
    destruct (truthy c) eqn:Ht.
    + rewrite (chain_length_cause ex c ps E) in Hn. injection Hn as Hn.
      destruct (IH c Hn) as [texts Hch].
      exists (own_text rt ex :: texts).
      exact (chain_link rt ex c ps texts E Ht Hch).
    + exists [own_text rt ex]. apply chain_last. right.
      exists c, ps. split; assumption.
Qed.

(** The cause chain of an error is unique. *)
Lemma CauseChain_unique (rt : JsRuntime) (ex : JsVal) (t1 t2 : list string) :
  CauseChain rt ex t1 -> CauseChain rt ex t2 -> t1 = t2.
Proof.
  intros H1. revert t2.
  induction H1 as [ex Hend | ex cex ps texts Hc Ht Hch IH]; intros t2 H2.
  - destruct H2 as [ex _ | ex cex ps texts Hc Ht _]; [reflexivity|].
    destruct Hend as [Hnf | [c [qs [Hc' Hf]]]].
    + rewrite Hc in Hnf. discriminate.
    + rewrite Hc in Hc'. injection Hc' as -> _. congruence.
  - destruct H2 as [ex Hend | ex cex' ps' texts' Hc' Ht' Hch'].
    + destruct Hend as [Hnf | [c [qs [Hc' Hf]]]].
      * rewrite Hc in Hnf. discriminate.
      * rewrite Hc in Hc'. injection Hc' as -> _. congruence.
    + rewrite Hc in Hc'. injection Hc' as -> _.
      f_equal. apply IH. exact Hch'.
Qed.

(** C4: for every error with a stack text, [serializeError] builds the record
    whose stack field is the texts of the chain of causes joined by the
    marker "\nCaused by: ": the error's own stack first, then, for each link
    where the current error has a function-valued cause that returns a truthy
    error, the marker and the text of that cause, the innermost cause last.
    Every error has exactly one such chain. *)
Theorem serializeError_stack_follows_causes (rt : JsRuntime) (err : JsVal)
  (s : string) :
  prop err "stack" = JStr s ->
  s <> ""%string ->
  exists texts,
    CauseChain rt err texts
    /\ (forall texts', CauseChain rt err texts' -> texts' = texts)
    /\ hd_error texts = Some s
    /\ Logger.serializeError rt err
       = JObj None
           [("message", prop err "message");
            ("name", prop err "name");
            ("stack", JStr (String.concat (LF ++ "Caused by: ") texts));
            ("code", prop err "code");
            ("signal", prop err "signal");
            ("data", prop err "data")].
Proof.
  intros Hs Hne.
  destruct (CauseChain_total rt err) as [texts Hch].
  destruct (serializeError_chain rt err s texts Hs Hne Hch) as [Hser Hhd].
  exists texts. split; [exact Hch|]. split; [|split; assumption].
  intros texts' Hch'. exact (CauseChain_unique rt err texts' texts Hch' Hch).
Qed.

(** C4, at an error with a chain of three causes: the stack field holds the
    four stack texts in chain order. *)
Lemma serializeError_stack_follows_causes_witness :
  let rt := sample_rt stringify_circular node_globals in
  let e3 := sample_error "Error: d at d.js:4" None in
  let e2 := sample_error "Error: c at c.js:3" (Some e3) in
  let e1 := sample_error "Error: b at b.js:2" (Some e2) in
  let e0 := sample_error "Error: a at a.js:1" (Some e1) in
  prop (Logger.serializeError rt e0) "stack"
  = JStr ("Error: a at a.js:1" ++ (LF ++ "Caused by: ")
          ++ "Error: b at b.js:2" ++ (LF ++ "Caused by: ")
          ++ "Error: c at c.js:3" ++ (LF ++ "Caused by: ")
          ++ "Error: d at d.js:4").
Proof.
  intros rt e3 e2 e1 e0.
  assert (H3 : CauseChain rt e3 ["Error: d at d.js:4"%string]).
  { apply (chain_last rt e3). left. reflexivity. }
  assert (H2 : CauseChain rt e2
                 ["Error: c at c.js:3"; "Error: d at d.js:4"]%string).
  { apply (chain_link rt e2 e3 [] _ eq_refl eq_refl H3). }
  assert (H1 : CauseChain rt e1
                 ["Error: b at b.js:2"; "Error: c at c.js:3";
                  "Error: d at d.js:4"]%string).
  { apply (chain_link rt e1 e2 [] _ eq_refl eq_refl H2). }
  assert (H0 : CauseChain rt e0
                 ["Error: a at a.js:1"; "Error: b at b.js:2";
                  "Error: c at c.js:3"; "Error: d at d.js:4"]%string).
  { apply (chain_link rt e0 e1 [] _ eq_refl eq_refl H1). }
  assert (Hne : "Error: a at a.js:1"%string <> ""%string) by discriminate.
  destruct (serializeError_stack_follows_causes rt e0 _ eq_refl Hne)
    as [texts [_ [Huniq [_ Hser]]]].
  rewrite Hser, <- (Huniq _ H0). reflexivity.
Defined.

(** C5: [serializeError] returns its input unchanged when the input is falsy
    or has no stack; it builds the record of message, name, stack, code,
    signal and data only for a truthy input with a truthy stack. *)
Theorem serializeError_identity (rt : JsRuntime) (err : JsVal) :
  (truthy err = false \/ prop err "stack" = JUndefined ->
   Logger.serializeError rt err = err)
  /\ (truthy (prop err "stack") = false -> Logger.serializeError rt err = err)
  /\ (Logger.serializeError rt err = err
      \/ (truthy err = true /\ truthy (prop err "stack") = true
          /\ Logger.serializeError rt err
             = JObj None
                 [("message", prop err "message");
                  ("name", prop err "name");
                  ("stack", Logger.getFullErrorStack rt err);
                  ("code", prop err "code");
                  ("signal", prop err "signal");
                  ("data", prop err "data")])).
Proof.
  unfold Logger.serializeError.
  split; [|split].
  - intros [H | H]; rewrite H; [reflexivity|].
    simpl. now rewrite orb_true_r.
  - intros H. rewrite H. simpl. now rewrite orb_true_r.
  - destruct (truthy err); [|left; reflexivity].
    destruct (truthy (prop err "stack")); [right | left; reflexivity].
    repeat split.
Qed.

(** C5, at [undefined], at a string, at an object without a stack, and at an
    object with one. *)
Lemma serializeError_identity_witness :
  let rt := sample_rt stringify_circular node_globals in
  Logger.serializeError rt JUndefined = JUndefined
  /\ Logger.serializeError rt (JStr "timeout") = JStr "timeout"
  /\ Logger.serializeError rt (JObj None [("success", JBool false)])
     = JObj None [("success", JBool false)]
  /\ Logger.serializeError rt (sample_error "Error: a" None)
     <> sample_error "Error: a" None.
Proof.
  intros rt. split; [|split; [|split]].
  - exact (proj1 (serializeError_identity rt JUndefined) (or_introl eq_refl)).
  - exact (proj1 (serializeError_identity rt (JStr "timeout")) (or_intror eq_refl)).
  - exact (proj1 (serializeError_identity rt (JObj None [("success", JBool false)]))
             (or_intror eq_refl)).
  - discriminate.
Defined.

(* ================================================================== *)
(** ** Properties of [logOutgoingResponse] *)
(* ================================================================== *)

Lemma bindM_ok {A B : Type} (c : M A) (k : A -> M B) (w w' : World) (a : A) :
  c w = (Ok a, w') -> bindM c k w = k a w'.
Proof. intros H. unfold bindM. now rewrite H. Qed.

Lemma get_object (v : JsVal) (k : string) :
  nullish v = false -> get v k = Ok (prop v k).
Proof. destruct v; simpl; intros H; try discriminate; reflexivity. Qed.

Lemma is_object_not_nullish (v : JsVal) : is_object v = true -> nullish v = false.
Proof. destruct v; simpl; intros H; try discriminate; reflexivity. Qed.

Lemma is_object_prop (v : JsVal) (k : string) :
  is_object (prop v k) = true -> is_object v = true.
Proof. destruct v; simpl; intros H; try discriminate; reflexivity. Qed.

(** Assigning a property of an object. *)
Lemma set_ok (o : JsVal) (k : string) (v : JsVal) :
  is_object o = true ->
  exists o', set o k v = Ok o'
    /\ is_object o' = true
    /\ prop o' k = v
    /\ (forall k', (k' =? k)%string = false -> prop o' k' = prop o k').
Proof.
  destruct o as [| | | | | |c ps]; simpl; intros H; try discriminate.
  eexists. split; [reflexivity|]. split; [reflexivity|]. split.
  - simpl. now rewrite lookup_assign_same.
  - intros k' Hk. simpl. now rewrite (lookup_assign_other _ _ _ _ Hk).
Qed.

(** Assigning inside the object a property refers to. *)
Lemma update_ok (o : JsVal) (k : string) (f : JsVal -> Res JsVal) (x' : JsVal) :
  is_object o = true ->
  f (prop o k) = Ok x' ->
  exists o', update o k f = Ok o'
    /\ is_object o' = true
    /\ prop o' k = x'
    /\ (forall k', (k' =? k)%string = false -> prop o' k' = prop o k').
Proof.
  intros Ho Hf. unfold update.
  rewrite (get_object _ _ (is_object_not_nullish _ Ho)). cbn [bind].
  rewrite Hf. cbn [bind]. apply set_ok. exact Ho.
Qed.

Lemma append_assoc (a b c : string) : ((a ++ b) ++ c = a ++ b ++ c)%string.
Proof. induction a as [|x a IH]; simpl; [reflexivity | now rewrite IH]. Qed.

Lemma bindM_ok_inv {A B : Type} (m : M A) (k : A -> M B) (w w' : World) (b : B) :
  bindM m k w = (Ok b, w') ->
  exists a w1, m w = (Ok a, w1) /\ k a w1 = (Ok b, w').
Proof.
  unfold bindM. destruct (m w) as [[a|e] w1]; intros H; [|discriminate].
  exists a, w1. split; [reflexivity | exact H].
Qed.

Lemma lift_ok_inv {A : Type} (r : Res A) (w w' : World) (a : A) :
  lift r w = (Ok a, w') -> r = Ok a /\ w' = w.
Proof. unfold lift. intros H. inversion H. split; reflexivity. Qed.

Lemma set_ok_inv (o : JsVal) (k : string) (v o' : JsVal) :
  set o k v = Ok o' -> is_object o = true.
Proof. destruct o; simpl; intros H; try discriminate; reflexivity. Qed.

Lemma update_ok_inv (o : JsVal) (k : string) (f : JsVal -> Res JsVal) (o' : JsVal) :
  update o k f = Ok o' -> exists x', f (prop o k) = Ok x' /\ is_object o = true.
Proof.
  unfold update. intros H.
  destruct (get o k) as [x|e] eqn:Eg; [|discriminate]. cbn [bind] in H.
  assert (x = prop o k) by (destruct o; simpl in Eg; inversion Eg; reflexivity).
  subst x.
  destruct (f (prop o k)) as [x'|e] eqn:Ef; [|discriminate]. cbn [bind] in H.
  exists x'. split; [reflexivity | exact (set_ok_inv _ _ _ _ H)].
Qed.

Lemma emit_ok_inv (from : option nat) (lv : Level) (l : option LogHandle)
  (data : JsVal) (msg : string) (w w' : World) (u : unit) :
  emit from lv l data msg w = (Ok u, w') -> exists h, l = Some h.
Proof. unfold emit. destruct l as [h|]; intros H; [now exists h | discriminate]. Qed.

Section OutgoingLog.
Variable rt : JsRuntime.
Variable env : Env.

Lemma dt_run (c : Context.t) (w : World) :
  Logger.dt rt env c w
  = (Ok (js_sub rt (JNum (Date_now env (clock_reads w))) (Context.start c)),
     {| clock_reads := S (clock_reads w); uuid_reads := uuid_reads w;
        lag_reads := lag_reads w; loop_time := loop_time w; timers := timers w;
        next_timer := next_timer w; sink := sink w |}).
Proof. reflexivity. Qed.

Lemma outgoing_data_spec (this : Logger.t) (request : Request.t) (c : Context.t) (w : World) :
  nullish (Request.headers request) = false ->
  exists rq dur lag w',
    Logger.outgoing_data rt env this request c w
    = (Ok (JObj None
             [("request", rq);
              ("response", JObj None [("time", JNum (Date_now env (clock_reads w)))]);
              ("duration", dur); ("lag", lag)]), w')
    /\ sink w' = sink w /\ timers w' = timers w /\ next_timer w' = next_timer w
    /\ loop_time w' = loop_time w.
Proof.
  intros Hh. unfold Logger.outgoing_data.
  unfold bindM at 1. cbn [Date_now_call].
  unfold bindM at 1. rewrite dt_run.
  unfold bindM at 1. cbn [lag_call].
  unfold bindM at 1. cbn [lift]. rewrite (get_object _ _ Hh).
  unfold bindM, lift.
  destruct (truthy (prop (Request.headers request) "x-forwarded-for"));
    destruct (level_of (Logger.log this) <? 30); cbn;
    do 4 eexists; (split; [reflexivity|]); repeat split.
Qed.

Lemma log_success_spec (c : Context.t) (request : Request.t)
  (rq t dur lag : JsVal) (message : string) (w : World) (l : LogHandle) :
  Context.log c = Some l ->
  is_object (prop (Request.response request) "headers") = true ->
  exists response' w',
    Logger.log_success rt env c request
      (JObj None [("request", rq); ("response", JObj None [("time", t)]);
                  ("duration", dur); ("lag", lag)]) message w
    = (Ok (Request.set_response request response'), w')
    /\ is_object response' = true
    /\ is_object (prop response' "headers") = true
    /\ prop (prop response' "headers") "x-request-id" = Context.id c
    /\ (forall k, (k =? "headers")%string = false ->
        prop response' k = prop (Request.response request) k)
    /\ sink w' = (sink w ++
        [{| rec_level := INFO; rec_handle := l;
            rec_data :=
              JObj None
                [("request", rq);
                 ("response",
                  JObj None [("time", t);
                             ("headers", prop response' "headers");
                             ("statusCode", prop response' "statusCode")]);
                 ("duration", dur); ("lag", lag)];
            rec_msg :=
              message ++
              (ToString rt (prop response' "statusCode") ++ " (" ++
               ToString rt (js_sub rt (JNum (Date_now env (clock_reads w)))
                              (Context.start c)) ++ "ms)")%string;
            origin := None |}])%list
    /\ timers w' = timers w /\ next_timer w' = next_timer w
    /\ loop_time w' = loop_time w.
Proof.
  intros Hl Hh.
  pose proof (is_object_prop _ _ Hh) as Hr.
  destruct (set_ok (prop (Request.response request) "headers") "x-request-id"
              (Context.id c) Hh) as [h' [Hset [Hoh [Hid Hother]]]].
  destruct (update_ok (Request.response request) "headers"
              (fun h => set h "x-request-id" (Context.id c)) h' Hr Hset)
    as [r' [Hupd [Hor [Hph Hpo]]]].
  exists r'. unfold Logger.log_success.
  rewrite Hupd. unfold bindM at 1. cbn [lift].
  unfold bindM at 1.
  cbn [lift update get set bind prop lookup String.eqb Ascii.eqb Bool.eqb assign].
  unfold bindM at 1. cbn [lift].
  unfold bindM at 1. rewrite dt_run.
  unfold bindM at 1. rewrite Hl. cbn [emit ret].
  eexists. split; [reflexivity|].
  split; [exact Hor|]. split; [now rewrite Hph|].
  split; [now rewrite Hph|]. split; [exact Hpo|].
  cbn [sink timers next_timer loop_time]. repeat split.
Qed.

Lemma log_failure_spec (c : Context.t) (request : Request.t)
  (rq t dur lag : JsVal) (message : string) (w : World) (l : LogHandle) :
  Context.log c = Some l ->
  is_object (prop (Request.response request) "headers") = true ->
  exists response' w',
    Logger.log_failure rt env c request
      (JObj None [("request", rq); ("response", JObj None [("time", t)]);
                  ("duration", dur); ("lag", lag)]) message w
    = (Ok (Request.set_response request response'), w')
    /\ is_object response' = true
    /\ is_object (prop response' "headers") = true
    /\ prop (prop response' "headers") "x-request-id" = Context.id c
    /\ (forall k, (k =? "headers")%string = false ->
        prop response' k = prop (Request.response request) k)
    /\ sink w' = (sink w ++
        [{| rec_level := ERROR; rec_handle := l;
            rec_data :=
              JObj None
                [("request", rq);
                 ("response",
                  JObj None [("time", t);
                             ("headers", prop response' "headers");
                             ("statusCode", prop response' "statusCode")]);
                 ("duration", dur); ("lag", lag);
                 ("error", Logger.serializeError rt (prop response' "source"))];
            rec_msg :=
              (message ++
              (ToString rt (prop response' "statusCode") ++ " (" ++
               ToString rt (js_sub rt (JNum (Date_now env (clock_reads w)))
                              (Context.start c)) ++ "ms)"))%string;
            origin := None |}])%list
    /\ timers w' = timers w /\ next_timer w' = next_timer w
    /\ loop_time w' = loop_time w.
Proof.
  intros Hl Hh.
  pose proof (is_object_prop _ _ Hh) as Hr.
  destruct (set_ok (prop (Request.response request) "headers") "x-request-id"
              (Context.id c) Hh) as [h' [Hset [Hoh [Hid Hother]]]].
  destruct (update_ok (Request.response request) "headers"
              (fun h => set h "x-request-id" (Context.id c)) h' Hr Hset)
    as [r' [Hupd [Hor [Hph Hpo]]]].
  exists r'. unfold Logger.log_failure.
  rewrite Hupd. unfold bindM at 1. cbn [lift].
  unfold bindM at 1.
  cbn [lift update get set bind prop lookup String.eqb Ascii.eqb Bool.eqb assign].
  unfold bindM at 1. cbn [lift].
  unfold bindM at 1. cbn [lift set assign String.eqb Ascii.eqb Bool.eqb].
  unfold bindM at 1. rewrite dt_run.
  unfold bindM at 1. rewrite Hl. cbn [emit ret].
  eexists. split; [reflexivity|].
  split; [exact Hor|]. split; [now rewrite Hph|].
  split; [now rewrite Hph|]. split; [exact Hpo|].
  cbn [sink timers next_timer loop_time]. repeat split.
Qed.

Lemma serializeError_is_object (err : JsVal) :
  is_object err = true -> is_object (Logger.serializeError rt err) = true.
Proof.
  intros H. unfold Logger.serializeError.
  destruct (negb (truthy err) || negb (truthy (prop err "stack")));
    [exact H | reflexivity].
Qed.

Lemma log_boom_spec (c : Context.t) (request : Request.t)
  (rq t dur lag : JsVal) (message : string) (w : World) (l : LogHandle) :
  Context.log c = Some l ->
  is_object (prop (prop (Request.response request) "output") "headers") = true ->
  exists response' w',
    Logger.log_boom rt env c request
      (JObj None [("request", rq); ("response", JObj None [("time", t)]);
                  ("duration", dur); ("lag", lag)]) message w
    = (Ok (Request.set_response request response'), w')
    /\ is_object response' = true
    /\ is_object (prop (prop response' "output") "headers") = true
    /\ prop (prop (prop response' "output") "headers") "x-request-id" = Context.id c
    /\ (forall k, (k =? "output")%string = false ->
        prop response' k = prop (Request.response request) k)
    /\ (forall k, (k =? "headers")%string = false ->
        prop (prop response' "output") k
        = prop (prop (Request.response request) "output") k)
    /\ sink w' = (sink w ++
        [{| rec_level :=
              if truthy (prop (Request.response request) "isServer")
              then ERROR else WARN;
            rec_handle := l;
            rec_data :=
              JObj None
                [("request", rq);
                 ("response",
                  JObj None [("time", t);
                             ("headers", prop (prop response' "output") "headers");
                             ("statusCode",
                              prop (prop response' "output") "statusCode")]);
                 ("duration", dur); ("lag", lag);
                 ("error",
                  let e := Logger.serializeError rt response' in
                  if truthy (prop (Request.response request) "isServer") then e
                  else if truthy (prop e "stack") then delete e "stack" else e)];
            rec_msg :=
              (message ++
              (ToString rt (prop (prop response' "output") "statusCode") ++ " (" ++
               ToString rt (js_sub rt (JNum (Date_now env (clock_reads w)))
                              (Context.start c)) ++ "ms)"))%string;
            origin := None |}])%list
    /\ timers w' = timers w /\ next_timer w' = next_timer w
    /\ loop_time w' = loop_time w.
Proof.
  intros Hl Hh.
  pose proof (is_object_prop _ _ Hh) as Ho.
  pose proof (is_object_prop _ _ Ho) as Hr.
  destruct (set_ok (prop (prop (Request.response request) "output") "headers")
              "x-request-id" (Context.id c) Hh) as [h' [Hset [Hoh [Hid Hother]]]].
  destruct (update_ok (prop (Request.response request) "output") "headers"
              (fun h => set h "x-request-id" (Context.id c)) h' Ho Hset)
    as [o' [Hupo [Hoo [Hoh' Hoo']]]].
  destruct (update_ok (Request.response request) "output"
              (fun o => update o "headers"
                          (fun h => set h "x-request-id" (Context.id c)))
              o' Hr Hupo)
    as [r' [Hupd [Hor [Hpo Hpr]]]].
  exists r'. unfold Logger.log_boom.
  rewrite Hupd. unfold bindM at 1. cbn [lift].
  unfold bindM at 1. cbn [lift].
  rewrite (get_object _ _ (is_object_not_nullish _ Hor)).
  unfold bindM at 1.
  cbn [lift update get set bind prop lookup String.eqb Ascii.eqb Bool.eqb assign].
  unfold bindM at 1. cbn [lift].
  unfold bindM at 1. cbn [lift set assign String.eqb Ascii.eqb Bool.eqb].
  unfold bindM at 1. rewrite dt_run.
  unfold bindM at 1. cbn [lift].
  rewrite (get_object _ _ (is_object_not_nullish _ Hor)).
  rewrite (Hpr "isServer" eq_refl).
  assert (Hstamped : is_object (prop (prop r' "output") "headers") = true
                     /\ prop (prop (prop r' "output") "headers") "x-request-id"
                        = Context.id c) by (now rewrite Hpo, Hoh').
  assert (Hout : forall k, (k =? "headers")%string = false ->
                 prop (prop r' "output") k
                 = prop (prop (Request.response request) "output") k)
    by (intros k Hk; rewrite Hpo; exact (Hoo' k Hk)).
  destruct (truthy (prop (Request.response request) "isServer")).
  - unfold bindM at 1. rewrite Hl. cbn [emit ret].
    eexists. split; [reflexivity|].
    split; [exact Hor|]. split; [exact (proj1 Hstamped)|].
    split; [exact (proj2 Hstamped)|]. split; [exact Hpr|].
    split; [exact Hout|].
    cbn [sink timers next_timer loop_time]. repeat split.
  - unfold bindM at 1.
    cbn [lift get bind prop lookup String.eqb Ascii.eqb Bool.eqb].
    rewrite (get_object _ _
               (is_object_not_nullish _ (serializeError_is_object r' Hor))).
    cbn [bind].
    unfold bindM at 1. cbn [lift].
    destruct (truthy (prop (Logger.serializeError rt r') "stack")).
    + cbn [update get set bind prop lookup String.eqb Ascii.eqb Bool.eqb assign].
      unfold bindM at 1. rewrite Hl. cbn [emit ret].
      eexists. split; [reflexivity|].
      split; [exact Hor|]. split; [exact (proj1 Hstamped)|].
    split; [exact (proj2 Hstamped)|]. split; [exact Hpr|].
      split; [exact Hout|].
      cbn [sink timers next_timer loop_time]. repeat split.
    + unfold bindM at 1. rewrite Hl. cbn [emit ret].
      eexists. split; [reflexivity|].
      split; [exact Hor|]. split; [exact (proj1 Hstamped)|].
    split; [exact (proj2 Hstamped)|]. split; [exact Hpr|].
      split; [exact Hout|].
      cbn [sink timers next_timer loop_time]. repeat split.
Qed.

Lemma context_stage (this : Logger.t) (request : Request.t) (w : World) :
  nullish (Request.headers request) = false ->
  match Request.context request with
  | Some c => match Context.log c with Some _ => true | None => false end
  | None => true
  end = true ->
  exists c l w1,
    bindM (Logger.context_of env this request) Logger.disarm w = (Ok c, w1)
    /\ Context.log c = Some l
    /\ Context.id c = outgoing_id env request w
    /\ Context.start c = outgoing_start env request w
    /\ Context.timer c = None
    /\ match Request.context request with
       | Some c0 => Context.log c = Context.log c0
       | None => True
       end
    /\ sink w1 = sink w
    /\ next_timer w1 = next_timer w
    /\ loop_time w1 = loop_time w
    /\ timers w1
       = match Request.context request with
         | Some c0 =>
             match Context.timer c0 with
             | Some h => filter (fun t => negb (Nat.eqb (handle t) h)) (timers w)
             | None => timers w
             end
         | None => timers w
         end.
Proof.
  intros Hh Hlog. unfold Logger.context_of, outgoing_id, outgoing_start.
  destruct (Request.context request) as [c0|].
  - destruct (Context.log c0) as [l|] eqn:El; [|discriminate].
    unfold bindM, ret, Logger.disarm.
    destruct (Context.timer c0) as [h|] eqn:Et.
    + cbn. do 3 eexists. split; [reflexivity|]. cbn.
      repeat split; try reflexivity; eassumption.
    + cbn. do 3 eexists. split; [reflexivity|].
      repeat split; try reflexivity; eassumption.
  - rewrite (get_object _ _ Hh).
    destruct (new_Context_spec env (prop (Request.headers request) "x-request-id")
                JNull (Logger.log this) w)
      as [c [w' [Hc [Hl [Ht [Hi [Hs [Htm [Hsk [Hn Hlt]]]]]]]]]].
    unfold bindM at 1. unfold bindM at 1. cbn [lift]. rewrite Hc.
    unfold Logger.disarm. rewrite Ht. cbn [ret].
    do 3 eexists. split; [reflexivity|].
    rewrite Hi, Hs. cbn [truthy].
    repeat split; try reflexivity; eassumption.
Qed.

Lemma bindM_assoc {A B C : Type} (c : M A) (f : A -> M B) (g : B -> M C) (w : World) :
  bindM (bindM c f) g w = bindM c (fun a => bindM (f a) g) w.
Proof. unfold bindM. destruct (c w) as [[a|e] w']; reflexivity. Qed.

Lemma logOutgoingResponse_run (this : Logger.t) (request : Request.t) (w : World) :
  loggable request = true ->
  exists request' w' r,
    Logger.logOutgoingResponse rt env this request w = (Ok request', w')
    /\ sink w' = (sink w ++ [r])%list
    /\ is_object (Request.response request') = true
    /\ prop (response_headers (Request.response request')) "x-request-id"
       = outgoing_id env request w
    /\ classify (Request.response request') = classify (Request.response request)
    /\ rec_level r = level_for (classify (Request.response request))
    /\ match classify (Request.response request) with
       | ServerError =>
           prop (rec_data r) "error"
           = Logger.serializeError rt (Request.response request')
       | ClientError =>
           prop (rec_data r) "error"
           = (let e := Logger.serializeError rt (Request.response request') in
              if truthy (prop e "stack") then delete e "stack" else e)
       | BusinessFailure =>
           prop (rec_data r) "error"
           = Logger.serializeError rt (prop (Request.response request') "source")
       | Success => lookup "error" (own_enumerable (rec_data r)) = None
       end
    /\ (exists n,
          rec_msg r
          = (ToString rt (Request.method request) ++ " "
             ++ ToString rt (Request.path request) ++ " "
             ++ ToString rt (response_status (Request.response request')) ++ " ("
             ++ ToString rt (js_sub rt (JNum (Date_now env n))
                               (outgoing_start env request w))
             ++ "ms)")%string)
    /\ origin r = None
    /\ next_timer w' = next_timer w
    /\ loop_time w' = loop_time w
    /\ timers w'
       = match Request.context request with
         | Some c0 =>
             match Context.timer c0 with
             | Some h => filter (fun t => negb (Nat.eqb (handle t) h)) (timers w)
             | None => timers w
             end
         | None => timers w
         end
    /\ Request.headers request' = Request.headers request
    /\ is_object (response_headers (Request.response request')) = true
    /\ match Request.context request with
       | Some c0 =>
           exists c', Request.context request' = Some c'
             /\ Context.timer c' = None /\ Context.log c' = Context.log c0
             /\ Context.id c' = Context.id c0
             /\ Context.start c' = Context.start c0
       | None => Request.context request' = None
       end.
Proof.
  intros Hlog. unfold loggable in Hlog.
  apply andb_true_iff in Hlog. destruct Hlog as [Hlog Hresp].
  apply andb_true_iff in Hlog. destruct Hlog as [Hh Hctx].
  apply negb_true_iff in Hh.
  destruct (context_stage this request w Hh Hctx)
    as [c [l [w1 [Hrun [Hl [Hid [Hst [Htm [Hl0 [Hsk [Hnt [Hlt Htms]]]]]]]]]]]].
  unfold Logger.logOutgoingResponse.
  rewrite <- bindM_assoc. rewrite (bindM_ok _ _ _ _ _ Hrun).
  set (request1 := match Request.context request with
                   | Some _ => Request.set_context request (Some c)
                   | None => request
                   end).
  assert (Hr1 : Request.response request1 = Request.response request)
    by (unfold request1; destruct (Request.context request); reflexivity).
  assert (Hh1 : Request.headers request1 = Request.headers request)
    by (unfold request1; destruct (Request.context request); reflexivity).
  assert (Hm1 : Request.method request1 = Request.method request)
    by (unfold request1; destruct (Request.context request); reflexivity).
  assert (Hp1 : Request.path request1 = Request.path request)
    by (unfold request1; destruct (Request.context request); reflexivity).
  assert (Hc1 : forall r',
            match Request.context request with
            | Some c0 =>
                exists c', Request.context (Request.set_response request1 r') = Some c'
                  /\ Context.timer c' = None /\ Context.log c' = Context.log c0
                  /\ Context.id c' = Context.id c0
                  /\ Context.start c' = Context.start c0
            | None => Request.context (Request.set_response request1 r') = None
            end).
  { intros r'. unfold request1, outgoing_id, outgoing_start in *.
    destruct (Request.context request) as [c0|] eqn:E0; cbn.
    - exists c. repeat split; assumption.
    - exact E0. }
  destruct (outgoing_data_spec this request1 c w1)
    as [rq [dur [lag [w2 [Hdata [Hsk2 [Htm2 [Hnt2 Hlt2]]]]]]]];
    [now rewrite Hh1|].
  rewrite (bindM_ok _ _ _ _ _ Hdata).
  assert (Hobj : is_object (Request.response request) = true).
  { unfold response_headers in Hresp.
    destruct (truthy (prop (Request.response request) "isBoom")).
    - exact (is_object_prop _ _ (is_object_prop _ _ Hresp)).
    - exact (is_object_prop _ _ Hresp). }
  unfold bindM at 1. cbn [lift].
  rewrite (get_object _ _ (is_object_not_nullish _ Hobj)).
  unfold classify, response_headers, response_status. unfold response_headers in Hresp.
  rewrite Hm1, Hp1.
  destruct (truthy (prop (Request.response request) "isBoom")) eqn:Eb.
  - rewrite <- Hr1 in Hresp.
    destruct (log_boom_spec c request1 rq (JNum (Date_now env (clock_reads w1))) dur lag
                (ToString rt (Request.method request) ++ " "
                 ++ ToString rt (Request.path request) ++ " ")%string w2 l Hl Hresp)
      as [r' [w' [Hb [Hor [Hoh [Hstamp [Hpr [Hout [Hsink [Htm' [Hnt' Hlt']]]]]]]]]]].
    rewrite Hb. do 3 eexists. split; [reflexivity|].
    rewrite Hr1 in Hpr, Hsink.
    assert (Eb' : truthy (prop r' "isBoom") = true)
      by (rewrite (Hpr "isBoom" eq_refl); exact Eb).
    cbn [Request.response Request.set_response].
    rewrite Eb', (Hpr "isServer" eq_refl).
    split; [rewrite Hsink, Hsk2, Hsk; reflexivity|].
    split; [exact Hor|]. split; [now rewrite Hstamp|].
    split; [reflexivity|].
    cbn [rec_level rec_data rec_msg origin].
    split; [destruct (truthy (prop (Request.response request) "isServer")); reflexivity|].
    split; [destruct (truthy (prop (Request.response request) "isServer")); reflexivity|].
    split.
    { eexists. rewrite <- Hst. rewrite !append_assoc. reflexivity. }
    split; [reflexivity|]. split; [congruence|]. split; [congruence|].
    split; [rewrite Htm', Htm2; exact Htms|].
    split; [exact Hh1|]. split; [exact Hoh|]. exact (Hc1 r').
  - rewrite <- Hr1 in Hresp.
    destruct (log_failure_spec c request1 rq (JNum (Date_now env (clock_reads w1)))
                dur lag
                (ToString rt (Request.method request) ++ " "
                 ++ ToString rt (Request.path request) ++ " ")%string w2 l Hl Hresp)
      as [rf [wf [Hf [Horf [Hohf [Hstampf [Hprf [Hsinkf [Htmf [Hntf Hltf]]]]]]]]]].
    destruct (log_success_spec c request1 rq (JNum (Date_now env (clock_reads w1)))
                dur lag
                (ToString rt (Request.method request) ++ " "
                 ++ ToString rt (Request.path request) ++ " ")%string w2 l Hl Hresp)
      as [rs [ws [Hs [Hors [Hohs [Hstamps [Hprs [Hsinks [Htms' [Hnts Hlts]]]]]]]]]].
    rewrite Hr1 in Hprf, Hprs.
    unfold bindM at 1. cbn [lift].
    rewrite (get_object _ _ (is_object_not_nullish _ Hobj)).
    unfold bindM at 1. cbn [lift].
    assert (Hsucc :
      (if truthy (prop (Request.response request) "source")
       then get (prop (Request.response request) "source") "success"
       else Ok (prop (Request.response request) "source"))
      = Ok (if truthy (prop (Request.response request) "source")
            then prop (prop (Request.response request) "source") "success"
            else prop (Request.response request) "source")).
    { destruct (truthy (prop (Request.response request) "source")) eqn:Es;
        [apply get_truthy; exact Es | reflexivity]. }
    rewrite Hsucc. clear Hsucc.
    assert (Hcond :
      truthy (prop (Request.response request) "source")
      && strictly_false
           (if truthy (prop (Request.response request) "source")
            then prop (prop (Request.response request) "source") "success"
            else prop (Request.response request) "source")
      = truthy (prop (Request.response request) "source")
        && strictly_false
             (prop (prop (Request.response request) "source") "success")).
    { destruct (truthy (prop (Request.response request) "source")); reflexivity. }
    rewrite Hcond. clear Hcond.
    destruct (truthy (prop (Request.response request) "source")
              && strictly_false
                   (prop (prop (Request.response request) "source") "success"))
      eqn:Ec.
    + rewrite Hf. do 3 eexists. split; [reflexivity|].
      cbn [Request.response Request.set_response].
      rewrite (Hprf "isBoom" eq_refl), Eb.
      split; [rewrite Hsinkf, Hsk2, Hsk; reflexivity|].
      split; [exact Horf|]. split; [now rewrite Hstampf|].
      split; [rewrite (Hprf "source" eq_refl), Ec; reflexivity|].
      cbn [rec_level rec_data rec_msg origin level_for].
      split; [reflexivity|]. split; [reflexivity|].
      split.
      { eexists. rewrite <- Hst. rewrite !append_assoc. reflexivity. }
      split; [reflexivity|]. split; [congruence|]. split; [congruence|].
      split; [rewrite Htmf, Htm2; exact Htms|].
      split; [exact Hh1|]. split; [exact Hohf|]. exact (Hc1 rf).
    + rewrite Hs. do 3 eexists. split; [reflexivity|].
      cbn [Request.response Request.set_response].
      rewrite (Hprs "isBoom" eq_refl), Eb.
      split; [rewrite Hsinks, Hsk2, Hsk; reflexivity|].
      split; [exact Hors|]. split; [now rewrite Hstamps|].
      split; [rewrite (Hprs "source" eq_refl), Ec; reflexivity|].
      cbn [rec_level rec_data rec_msg origin level_for].
      split; [reflexivity|]. split; [reflexivity|].
      split.
      { eexists. rewrite <- Hst. rewrite !append_assoc. reflexivity. }
      split; [reflexivity|]. split; [congruence|]. split; [congruence|].
      split; [rewrite Htms', Htm2; exact Htms|].
      split; [exact Hh1|]. split; [exact Hohs|]. exact (Hc1 rs).
Qed.
Ltac inv_bind H H1 :=
  let a := fresh "a" in
  let w1 := fresh "w" in
  apply bindM_ok_inv in H; destruct H as [a [w1 [H1 H]]].

Lemma log_success_ok_inv c request data message w r w' :
  Logger.log_success rt env c request data message w = (Ok r, w') ->
  is_object (prop (Request.response request) "headers") = true
  /\ exists h, Context.log c = Some h.
Proof.
  unfold Logger.log_success. intros H.
  inv_bind H Hs1. apply lift_ok_inv in Hs1. destruct Hs1 as [Hu _].
  apply update_ok_inv in Hu. destruct Hu as [x' [Hset _]].
  apply set_ok_inv in Hset. split; [exact Hset|].
  inv_bind H Hs2. inv_bind H Hs3. inv_bind H Hs4. inv_bind H Hs5.
  exact (emit_ok_inv _ _ _ _ _ _ _ _ Hs5).
Qed.

Lemma log_failure_ok_inv c request data message w r w' :
  Logger.log_failure rt env c request data message w = (Ok r, w') ->
  is_object (prop (Request.response request) "headers") = true
  /\ exists h, Context.log c = Some h.
Proof.
  unfold Logger.log_failure. intros H.
  inv_bind H Hs1. apply lift_ok_inv in Hs1. destruct Hs1 as [Hu _].
  apply update_ok_inv in Hu. destruct Hu as [x' [Hset _]].
  apply set_ok_inv in Hset. split; [exact Hset|].
  inv_bind H Hs2. inv_bind H Hs3. inv_bind H Hs4. inv_bind H Hs5. inv_bind H Hs6.
  exact (emit_ok_inv _ _ _ _ _ _ _ _ Hs6).
Qed.

Lemma log_boom_ok_inv c request data message w r w' :
  Logger.log_boom rt env c request data message w = (Ok r, w') ->
  is_object (prop (prop (Request.response request) "output") "headers") = true
  /\ exists h, Context.log c = Some h.
Proof.
  unfold Logger.log_boom. intros H.
  inv_bind H Hs1. apply lift_ok_inv in Hs1. destruct Hs1 as [Hu _].
  apply update_ok_inv in Hu. destruct Hu as [x' [Hu _]].
  apply update_ok_inv in Hu. destruct Hu as [x'' [Hset _]].
  apply set_ok_inv in Hset. split; [exact Hset|].
  inv_bind H Hs2. inv_bind H Hs3. inv_bind H Hs4. inv_bind H Hs5.
  inv_bind H Hs6. inv_bind H Hs7.
  destruct (truthy a5).
  - inv_bind H Hs8. exact (emit_ok_inv _ _ _ _ _ _ _ _ Hs8).
  - inv_bind H Hs8. inv_bind H Hs9. inv_bind H Hs10.
    exact (emit_ok_inv _ _ _ _ _ _ _ _ Hs10).
Qed.

Lemma outgoing_data_ok_inv this request c w d w' :
  Logger.outgoing_data rt env this request c w = (Ok d, w') ->
  nullish (Request.headers request) = false.
Proof.
  unfold Logger.outgoing_data. intros H.
  inv_bind H Hs1. inv_bind H Hs2. inv_bind H Hs3. inv_bind H Hs4.
  apply lift_ok_inv in Hs4. destruct Hs4 as [Hg _].
  destruct (Request.headers request); simpl in Hg; try discriminate; reflexivity.
Qed.

(** [logOutgoingResponse] returns on loggable requests only. *)
Lemma logOutgoingResponse_ok_inv this request w request' w' :
  Logger.logOutgoingResponse rt env this request w = (Ok request', w') ->
  loggable request = true.
Proof.
  unfold Logger.logOutgoingResponse. intros H.
  inv_bind H Hc. inv_bind H Hd. inv_bind H Hdata.
  apply outgoing_data_ok_inv in Hdata.
  assert (Hh : nullish (Request.headers request) = false).
  { destruct (Request.context request); exact Hdata. }
  assert (Hlog : forall h, Context.log a0 = Some h ->
            match Request.context request with
            | Some c => match Context.log c with Some _ => true | None => false end
            | None => true
            end = true).
  { intros h Hl. unfold Logger.context_of in Hc.
    destruct (Request.context request) as [c0|]; [|reflexivity].
    unfold ret in Hc. inversion Hc; subst a w0.
    unfold Logger.disarm in Hd.
    destruct (Context.timer c0).
    - unfold bindM, clearTimeout, ret in Hd. inversion Hd; subst a0.
      cbn in Hl. now rewrite Hl.
    - unfold ret in Hd. inversion Hd; subst a0. now rewrite Hl. }
  inv_bind H Hb. apply lift_ok_inv in Hb. destruct Hb as [Hb _].
  assert (Hnn : nullish (Request.response request) = false).
  { destruct (Request.response request); simpl in Hb; try discriminate; reflexivity. }
  rewrite (get_object _ _ Hnn) in Hb. inversion Hb; subst a2. clear Hb.
  unfold loggable, response_headers. rewrite Hh. cbn [negb andb].
  destruct (truthy (prop (Request.response request) "isBoom")).
  - apply log_boom_ok_inv in H. destruct H as [Ho [h Hl]].
    assert (Hr : Request.response
                   match Request.context request with
                   | Some _ => Request.set_context request (Some a0)
                   | None => request
                   end = Request.response request)
      by (destruct (Request.context request); reflexivity).
    rewrite Hr in Ho. rewrite Ho, (Hlog h Hl). reflexivity.
  - inv_bind H Hsrc. inv_bind H Hsucc.
    assert (Hr : Request.response
                   match Request.context request with
                   | Some _ => Request.set_context request (Some a0)
                   | None => request
                   end = Request.response request)
      by (destruct (Request.context request); reflexivity).
    destruct (truthy a2 && strictly_false a3).
    + apply log_failure_ok_inv in H. destruct H as [Ho [h Hl]].
      rewrite Hr in Ho. rewrite Ho, (Hlog h Hl). reflexivity.
    + apply log_success_ok_inv in H. destruct H as [Ho [h Hl]].
      rewrite Hr in Ho. rewrite Ho, (Hlog h Hl). reflexivity.
Qed.
End OutgoingLog.

Lemma append_not_empty (a b : string) (x : ascii) :
  ((a ++ String x b) =? "")%string = false.
Proof. destruct a; reflexivity. Qed.

(** An error with a truthy stack has a truthy full stack. *)
Lemma getFullErrorStack_truthy (rt : JsRuntime) (ex : JsVal) :
  truthy (prop ex "stack") = true ->
  truthy (Logger.getFullErrorStack rt ex) = true.
Proof.
  intros H. rewrite getFullErrorStack_eq. cbn zeta.
  unfold js_or. rewrite H.
  destruct (prop ex "cause") as [| | | | | |[c|] ps]; try exact H.
  destruct (truthy c); [|exact H].
  simpl. now rewrite append_not_empty.
Qed.

(** The serialized error has a truthy stack exactly when the error has. *)
Lemma serializeError_stack_truthy (rt : JsRuntime) (err : JsVal) :
  is_object err = true ->
  truthy (prop (Logger.serializeError rt err) "stack")
  = truthy (prop err "stack").
Proof.
  intros Ho. unfold Logger.serializeError.
  assert (Ht : truthy err = true) by (destruct err; try discriminate; reflexivity).
  rewrite Ht. cbn [negb orb].
  destruct (truthy (prop err "stack")) eqn:Es; cbn [negb].
  - cbn. apply getFullErrorStack_truthy. exact Es.
  - exact Es.
Qed.

(** C6: [logOutgoingResponse] returns on every loggable request, and
    whenever it returns it has handed the sink exactly one record, classified
    by the response: at error level with the serialized error (its full
    stack included) for a Boom error with [isServer]; at warning level with
    the serialized error without its stack for any other Boom error; at error
    level with the serialized source for a response whose source has
    [success === false]; at info level without an error field for every other
    response.  The message is "<METHOD> <PATH> <STATUS> (<ELAPSED>ms)" in
    every branch. *)
Theorem logOutgoingResponse_classification (rt : JsRuntime) (env : Env)
  (this : Logger.t) (request : Request.t) (w : World) :
  (loggable request = true ->
   exists request' w',
     Logger.logOutgoingResponse rt env this request w = (Ok request', w'))
  /\ (forall request' w',
        Logger.logOutgoingResponse rt env this request w = (Ok request', w') ->
        exists r,
          sink w' = (sink w ++ [r])%list
          /\ (let response' := Request.response request' in
              let error := prop (rec_data r) "error" in
              match classify (Request.response request) with
              | ServerError =>
                  rec_level r = ERROR
                  /\ error = Logger.serializeError rt response'
                  /\ (truthy (prop response' "stack") = true ->
                      prop error "stack" = Logger.getFullErrorStack rt response')
              | ClientError =>
                  rec_level r = WARN
                  /\ truthy (prop error "stack") = false
                  /\ (truthy (prop response' "stack") = true ->
                      error = JObj None
                                [("message", prop response' "message");
                                 ("name", prop response' "name");
                                 ("code", prop response' "code");
                                 ("signal", prop response' "signal");
                                 ("data", prop response' "data")])
                  /\ (truthy (prop response' "stack") = false ->
                      error = response')
              | BusinessFailure =>
                  rec_level r = ERROR
                  /\ error = Logger.serializeError rt (prop response' "source")
              | Success =>
                  rec_level r = INFO
                  /\ lookup "error" (own_enumerable (rec_data r)) = None
              end)
          /\ (exists n,
                rec_msg r
                = (ToString rt (Request.method request) ++ " "
                   ++ ToString rt (Request.path request) ++ " "
                   ++ ToString rt (response_status (Request.response request'))
                   ++ " ("
                   ++ ToString rt (js_sub rt (JNum (Date_now env n))
                                     (outgoing_start env request w))
                   ++ "ms)")%string)).
Proof.
  split.
  { intros Hlog.
    destruct (logOutgoingResponse_run rt env this request w Hlog)
      as (request' & w' & r & Hrun & _).
    exists request', w'. exact Hrun. }
  intros request1 w1 Hret.
  pose proof (logOutgoingResponse_ok_inv rt env this request w _ _ Hret) as Hlog.
  destruct (logOutgoingResponse_run rt env this request w Hlog)
    as [request' [w' [r [Hrun [Hsink [Hobj [_ [_ [Hlevel [Herr [Hmsg _]]]]]]]]]]].
  rewrite Hret in Hrun. injection Hrun as <- <-.
  exists r.
  split; [exact Hsink|]. split; [|exact Hmsg].
  cbn zeta.
  destruct (classify (Request.response request)); cbn [level_for] in Hlevel.
  - split; [exact Hlevel|]. split; [exact Herr|].
    intros Hs. rewrite Herr. unfold Logger.serializeError.
    assert (Ht : truthy (Request.response request1) = true)
      by (destruct (Request.response request1); try discriminate; reflexivity).
    rewrite Ht, Hs. reflexivity.
  - split; [exact Hlevel|].
    cbn zeta in Herr.
    pose proof (serializeError_stack_truthy rt _ Hobj) as Hst.
    assert (Ht : truthy (Request.response request1) = true)
      by (destruct (Request.response request1); try discriminate; reflexivity).
    destruct (truthy (prop (Request.response request1) "stack")) eqn:Es.
    + rewrite Hst in Herr.
      assert (Hrec : prop (rec_data r) "error"
                     = JObj None
                         [("message", prop (Request.response request1) "message");
                          ("name", prop (Request.response request1) "name");
                          ("code", prop (Request.response request1) "code");
                          ("signal", prop (Request.response request1) "signal");
                          ("data", prop (Request.response request1) "data")]).
      { rewrite Herr. unfold Logger.serializeError. rewrite Ht, Es. reflexivity. }
      split; [rewrite Hrec; reflexivity|].
      split; [intros _; exact Hrec | discriminate].
    + rewrite Hst in Herr.
      assert (Hid : Logger.serializeError rt (Request.response request1)
                    = Request.response request1).
      { unfold Logger.serializeError. rewrite Ht, Es. reflexivity. }
      rewrite Hid in Herr.
      split; [rewrite Herr; exact Es|].
      split; [discriminate | intros _; exact Herr].
  - split; [exact Hlevel | exact Herr].
  - split; [exact Hlevel | exact Herr].
Qed.

(** C6, at a Boom error of the client class: one record at warning level,
    the error without a stack. *)
Lemma logOutgoingResponse_classification_witness :
  loggable (sample_request (sample_boom 404 false) None) = true
  /\ exists request' w' r,
       Logger.logOutgoingResponse (sample_rt stringify_circular node_globals)
         sample_env sample_logger
         (sample_request (sample_boom 404 false) None) empty_world
       = (Ok request', w')
       /\ sink w' = [r]
       /\ rec_level r = WARN
       /\ truthy (prop (prop (rec_data r) "error") "stack") = false.
Proof.
  split; [reflexivity|].
  destruct (logOutgoingResponse_classification
              (sample_rt stringify_circular node_globals) sample_env sample_logger
              (sample_request (sample_boom 404 false) None) empty_world)
    as [Hreturns Hrecord].
  destruct (Hreturns eq_refl) as [request' [w' Hrun]].
  destruct (Hrecord request' w' Hrun) as [r [Hsink [Hclass _]]].
  exists request', w', r.
  split; [exact Hrun|]. split; [exact Hsink|].
  cbn zeta in Hclass.
  change (classify (Request.response (sample_request (sample_boom 404 false) None)))
    with ClientError in Hclass.
  destruct Hclass as [Hl [Hs _]]. split; assumption.
Defined.

(** C7: [logOutgoingResponse] returns on every loggable request, and
    whenever it returns, the headers of the response ([output.headers] of a
    Boom error, [headers] of any other response) hold an [x-request-id] equal
    to the id of the context, in each of the branches. *)
Theorem logOutgoingResponse_stamps_request_id (rt : JsRuntime) (env : Env)
  (this : Logger.t) (request : Request.t) (w : World) :
  (loggable request = true ->
   exists request' w',
     Logger.logOutgoingResponse rt env this request w = (Ok request', w'))
  /\ (forall request' w',
        Logger.logOutgoingResponse rt env this request w = (Ok request', w') ->
        prop (response_headers (Request.response request')) "x-request-id"
        = outgoing_id env request w
        /\ is_object (response_headers (Request.response request')) = true
        /\ classify (Request.response request')
           = classify (Request.response request)).
Proof.
  split.
  { intros Hlog.
    destruct (logOutgoingResponse_run rt env this request w Hlog)
      as (request' & w' & r & Hrun & _).
    exists request', w'. exact Hrun. }
  intros request1 w1 Hret.
  pose proof (logOutgoingResponse_ok_inv rt env this request w _ _ Hret) as Hlog.
  destruct (logOutgoingResponse_run rt env this request w Hlog)
    as (request' & w' & r & Hrun & _ & _ & Hid & Hcl & _ & _ & _ & _ & _ & _ & _
        & _ & Ho & _).
  rewrite Hret in Hrun. injection Hrun as <- <-.
  repeat split; assumption.
Qed.

(** C7, at a plain response of a request whose context has the id [r-7]. *)
Lemma logOutgoingResponse_stamps_request_id_witness :
  let context :=
    {| Context.id := JStr "r-7"; Context.start := JNum 990;
       Context.log := Some (Child (RootLogger 30) [("request_id", JStr "r-7")]);
       Context.timer := Some 1%nat |} in
  let request :=
    sample_request (sample_response (JObj None [("items", JNum 3)])) (Some context) in
  loggable request = true
  /\ exists request' w',
       Logger.logOutgoingResponse (sample_rt stringify_circular node_globals)
         sample_env sample_logger request empty_world
       = (Ok request', w')
       /\ prop (prop (Request.response request') "headers") "x-request-id"
          = JStr "r-7".
Proof.
  intros context request.
  split; [reflexivity|].
  destruct (logOutgoingResponse_stamps_request_id
              (sample_rt stringify_circular node_globals) sample_env sample_logger
              request empty_world)
    as [Hreturns Hstamped].
  destruct (Hreturns eq_refl) as [request' [w' Hrun]].
  destruct (Hstamped request' w' Hrun) as [Hid [_ Hcl]].
  exists request', w'. split; [exact Hrun|].
  unfold response_headers in Hid.
  unfold classify in Hcl.
  destruct (truthy (prop (Request.response request') "isBoom")).
  - exfalso. revert Hcl.
    destruct (truthy (prop (Request.response request') "isServer"));
      vm_compute; discriminate.
  - exact Hid.
Defined.

(* ================================================================== *)
(** ** Properties of the unresponsiveness timer *)
(* ================================================================== *)

Lemma quiet_ret {A : Type} (a : A) : quiet (ret a).
Proof.
  intros w. cbn. repeat split. exists []. split; [now rewrite app_nil_r | constructor].
Qed.

Lemma quiet_lift {A : Type} (r : Res A) : quiet (lift r).
Proof.
  intros w. cbn. repeat split. exists []. split; [now rewrite app_nil_r | constructor].
Qed.

Lemma quiet_bind {A B : Type} (m : M A) (k : A -> M B) :
  quiet m -> (forall a, quiet (k a)) -> quiet (bindM m k).
Proof.
  intros Hm Hk w. unfold bindM.
  destruct (Hm w) as [Ht [Hn [Hlt [l [Hs Hl]]]]].
  destruct (m w) as [[a|e] w1]; cbn [snd] in *.
  - destruct (Hk a w1) as [Ht' [Hn' [Hlt' [l' [Hs' Hl']]]]].
    split; [congruence|]. split; [congruence|]. split; [congruence|].
    exists (l ++ l')%list. split.
    + rewrite Hs', Hs. now rewrite app_assoc.
    + apply Forall_app. split; assumption.
  - repeat split; try assumption. exists l. split; assumption.
Qed.

Lemma quiet_tame {A : Type} (m : M A) : quiet m -> tame m.
Proof.
  intros Hq w. destruct (Hq w) as [Ht [Hn [_ Hs]]].
  split; [rewrite Ht; apply incl_refl|]. split; assumption.
Qed.

Lemma tame_bind {A B : Type} (m : M A) (k : A -> M B) :
  tame m -> (forall a, tame (k a)) -> tame (bindM m k).
Proof.
  intros Hm Hk w. unfold bindM.
  destruct (Hm w) as [Ht [Hn [l [Hs Hl]]]].
  destruct (m w) as [[a|e] w1]; cbn [snd] in *.
  - destruct (Hk a w1) as [Ht' [Hn' [l' [Hs' Hl']]]].
    split; [exact (incl_tran Ht' Ht)|]. split; [congruence|].
    exists (l ++ l')%list. split.
    + rewrite Hs', Hs. now rewrite app_assoc.
    + apply Forall_app. split; assumption.
  - split; [exact Ht|]. split; [exact Hn|]. exists l. split; assumption.
Qed.

Lemma tame_clearTimeout (h : nat) : tame (clearTimeout h).
Proof.
  intros w. cbn. split; [apply incl_filter|]. split; [reflexivity|].
  exists []. split; [now rewrite app_nil_r | constructor].
Qed.

Lemma fresh_handles_tame {A : Type} (m : M A) (w : World) :
  tame m -> fresh_handles w -> fresh_handles (snd (m w)).
Proof.
  intros Hq [Ht Hs].
  destruct (Hq w) as [Etm [En [l [Es Hl]]]].
  split.
  - rewrite En. apply Forall_forall. intros t Hin.
    exact (proj1 (Forall_forall _ _) Ht t (Etm t Hin)).
  - rewrite Es, En. apply Forall_app. split; [exact Hs|].
    eapply Forall_impl; [|exact Hl]. intros r Hr. now rewrite Hr.
Qed.

Section Timers.
Variable rt : JsRuntime.
Variable env : Env.

Lemma quiet_Date_now : quiet (Date_now_call env).
Proof.
  intros w. cbn. repeat split. exists []. split; [now rewrite app_nil_r | constructor].
Qed.

Lemma quiet_uuid : quiet (uuid_v4_call env).
Proof.
  intros w. cbn. repeat split. exists []. split; [now rewrite app_nil_r | constructor].
Qed.

Lemma quiet_lag : quiet (lag_call env).
Proof.
  intros w. cbn. repeat split. exists []. split; [now rewrite app_nil_r | constructor].
Qed.

Lemma quiet_emit (lv : Level) (l : option LogHandle) (data : JsVal) (msg : string) :
  quiet (emit None lv l data msg).
Proof.
  intros w. unfold emit. destruct l as [h|]; cbn.
  - repeat split. eexists. split; [reflexivity|]. repeat constructor.
  - repeat split. exists []. split; [now rewrite app_nil_r | constructor].
Qed.

Ltac quiet_step :=
  first
    [ apply quiet_ret | apply quiet_lift | apply quiet_Date_now | apply quiet_uuid
    | apply quiet_lag | apply quiet_emit
    | apply quiet_bind; [ | intros ? ]
    | match goal with
      | |- quiet (if ?b then _ else _) => destruct b
      | |- quiet (match ?x with _ => _ end) => destruct x
      end ].

Lemma quiet_dt (c : Context.t) : quiet (Logger.dt rt env c).
Proof. unfold Logger.dt. repeat quiet_step. Qed.

Lemma quiet_new_Context (id start : JsVal) (l : option LogHandle) :
  quiet (Logger.new_Context env id start l).
Proof. unfold Logger.new_Context. repeat quiet_step. Qed.

Lemma quiet_outgoing_data (this : Logger.t) (request : Request.t) (c : Context.t) :
  quiet (Logger.outgoing_data rt env this request c).
Proof.
  unfold Logger.outgoing_data.
  repeat first [ apply quiet_dt | quiet_step ].
Qed.

Lemma quiet_log_boom c request data message :
  quiet (Logger.log_boom rt env c request data message).
Proof.
  unfold Logger.log_boom. repeat first [ apply quiet_dt | quiet_step ].
Qed.

Lemma quiet_log_failure c request data message :
  quiet (Logger.log_failure rt env c request data message).
Proof.
  unfold Logger.log_failure. repeat first [ apply quiet_dt | quiet_step ].
Qed.

Lemma quiet_log_success c request data message :
  quiet (Logger.log_success rt env c request data message).
Proof.
  unfold Logger.log_success. repeat first [ apply quiet_dt | quiet_step ].
Qed.


Lemma fired_by_app (h : nat) (w w' : World) (l : list LogRecord) :
  sink w' = (sink w ++ l)%list ->
  fired_by h w' = (fired_by h w ++ by_timer h l)%list.
Proof. intros H. unfold fired_by, by_timer. rewrite H. apply filter_app. Qed.

Lemma by_timer_direct (h : nat) (l : list LogRecord) :
  Forall (fun r => origin r = None) l -> by_timer h l = [].
Proof.
  induction 1 as [|r l Hr _ IH]; [reflexivity|].
  cbn. rewrite Hr. exact IH.
Qed.

(** A quiet computation changes neither the pending timers nor the records
    of any callback. *)
Lemma quiet_frame {A : Type} (m : M A) (h : nat) (w : World) :
  quiet m ->
  pending_as h (snd (m w)) = pending_as h w
  /\ fired_by h (snd (m w)) = fired_by h w.
Proof.
  intros Hq. destruct (Hq w) as [Ht [_ [_ [l [Hs Hl]]]]].
  split.
  - unfold pending_as. now rewrite Ht.
  - rewrite (fired_by_app h w _ l Hs), (by_timer_direct h l Hl).
    apply app_nil_r.
Qed.

(** The effect of a timer that fires. *)
Lemma fire_spec (t : Timer) (w : World) :
  timers (fire rt env t w)
  = filter (fun t' => negb (Nat.eqb (handle t') (handle t))) (timers w)
  /\ loop_time (fire rt env t w) = loop_time w
  /\ next_timer (fire rt env t w) = next_timer w
  /\ match Context.log (cl_context (callback t)) with
     | Some _ =>
         exists r, sink (fire rt env t w) = (sink w ++ [r])%list
                   /\ unresponsive_record rt env t r
     | None => sink (fire rt env t w) = sink w
     end.
Proof.
  unfold fire, bindM, clearTimeout, Logger.unresponsive.
  destruct (Context.log (cl_context (callback t))) as [l|] eqn:El; cbn.
  - repeat split. eexists. split; [reflexivity|].
    unfold unresponsive_record. cbn. rewrite El.
    repeat split. eexists. reflexivity.
  - repeat split.
Qed.

Lemma filter_filter_neq (h h' : nat) (ts : list Timer) :
  h' <> h ->
  filter (fun t => Nat.eqb (handle t) h)
    (filter (fun t => negb (Nat.eqb (handle t) h')) ts)
  = filter (fun t => Nat.eqb (handle t) h) ts.
Proof.
  intros Hne. induction ts as [|t ts IH]; [reflexivity|].
  cbn. destruct (Nat.eqb (handle t) h') eqn:E1; cbn.
  - apply Nat.eqb_eq in E1.
    destruct (Nat.eqb (handle t) h) eqn:E2; [|exact IH].
    apply Nat.eqb_eq in E2. congruence.
  - destruct (Nat.eqb (handle t) h); [now rewrite IH | exact IH].
Qed.

Lemma filter_filter_same (h : nat) (ts : list Timer) :
  filter (fun t => Nat.eqb (handle t) h)
    (filter (fun t => negb (Nat.eqb (handle t) h)) ts) = [].
Proof.
  induction ts as [|t ts IH]; [reflexivity|].
  cbn. destruct (Nat.eqb (handle t) h) eqn:E; cbn; [exact IH|].
  now rewrite E.
Qed.

(** A timer other than [h] that fires leaves [h] as it is. *)
Lemma fire_other (h : nat) (t : Timer) (w : World) :
  handle t <> h ->
  pending_as h (fire rt env t w) = pending_as h w
  /\ fired_by h (fire rt env t w) = fired_by h w.
Proof.
  intros Hne.
  destruct (fire_spec t w) as [Ht [_ [_ Hs]]].
  split.
  - unfold pending_as. rewrite Ht. apply filter_filter_neq. exact Hne.
  - destruct (Context.log (cl_context (callback t))).
    + destruct Hs as [r [Hs [_ [Ho _]]]].
      rewrite (fired_by_app h w _ [r] Hs). cbn. rewrite Ho.
      destruct (Nat.eqb (handle t) h) eqn:E;
        [apply Nat.eqb_eq in E; contradiction | apply app_nil_r].
    + unfold fired_by. now rewrite Hs.
Qed.

Lemma fire_due_loop_time (ts : list Timer) (w : World) :
  loop_time (fire_due rt env ts w) = loop_time w.
Proof.
  revert w. induction ts as [|t ts IH]; intros w; [reflexivity|].
  cbn [fire_due].
  destruct ((due t <=? loop_time w) && pending (handle t) w); rewrite IH;
    [exact (proj1 (proj2 (fire_spec t w))) | reflexivity].
Qed.

(** Timers other than [h] that fire leave [h] as it is. *)
Lemma fire_due_other (h : nat) (ts : list Timer) (w : World) :
  filter (fun t => Nat.eqb (handle t) h) ts = [] ->
  pending_as h (fire_due rt env ts w) = pending_as h w
  /\ fired_by h (fire_due rt env ts w) = fired_by h w.
Proof.
  revert w. induction ts as [|t ts IH]; intros w Hf; [split; reflexivity|].
  cbn in Hf. destruct (Nat.eqb (handle t) h) eqn:E; [discriminate|].
  apply Nat.eqb_neq in E.
  cbn [fire_due].
  destruct ((due t <=? loop_time w) && pending (handle t) w).
  - destruct (IH (fire rt env t w) Hf) as [H1 H2].
    destruct (fire_other h t w E) as [H3 H4].
    split; congruence.
  - exact (IH w Hf).
Qed.

Lemma pending_as_pending (h : nat) (w : World) (t : Timer) :
  pending_as h w = [t] -> pending h w = true.
Proof.
  unfold pending_as, pending. intros H.
  induction (timers w) as [|t' ts IH]; [discriminate|].
  cbn in *. destruct (Nat.eqb (handle t') h); [reflexivity | exact (IH H)].
Qed.

(** The timers of [ts] fire while [h] is pending as [t]: [t] fires, once,
    when it is due, and stays pending when it is not. *)
Lemma fire_due_self (h : nat) (t : Timer) (l : LogHandle) (ts : list Timer) (w : World) :
  Context.log (cl_context (callback t)) = Some l ->
  filter (fun t' => Nat.eqb (handle t') h) ts = [t] ->
  pending_as h w = [t] ->
  if due t <=? loop_time w then
    pending_as h (fire_due rt env ts w) = []
    /\ exists r, fired_by h (fire_due rt env ts w) = (fired_by h w ++ [r])%list
                 /\ unresponsive_record rt env t r
  else
    pending_as h (fire_due rt env ts w) = [t]
    /\ fired_by h (fire_due rt env ts w) = fired_by h w.
Proof.
  intros Hl. revert w. induction ts as [|t' ts IH]; intros w Hf Hp; [discriminate|].
  cbn in Hf. cbn [fire_due].
  destruct (Nat.eqb (handle t') h) eqn:E.
  - injection Hf as Heq Hrest. subst t'.
    apply Nat.eqb_eq in E.
    rewrite E, (pending_as_pending h w t Hp), andb_true_r.
    destruct (due t <=? loop_time w) eqn:Ed.
    + destruct (fire_due_other h ts (fire rt env t w) Hrest) as [H1 H2].
      destruct (fire_spec t w) as [Ht [_ [_ Hs]]]. rewrite Hl in Hs.
      destruct Hs as [r [Hs Hr]].
      split.
      * rewrite H1. unfold pending_as. rewrite Ht, E. apply filter_filter_same.
      * exists r. split; [|exact Hr].
        rewrite H2, (fired_by_app h w _ [r] Hs). cbn.
        destruct Hr as [_ [Ho _]]. rewrite Ho, E, Nat.eqb_refl. reflexivity.
    + destruct (fire_due_other h ts w Hrest) as [H1 H2].
      split; congruence.
  - apply Nat.eqb_neq in E.
    destruct ((due t' <=? loop_time w) && pending (handle t') w).
    + destruct (fire_other h t' w E) as [H3 H4].
      assert (Hlt : loop_time (fire rt env t' w) = loop_time w)
        by exact (proj1 (proj2 (fire_spec t' w))).
      specialize (IH (fire rt env t' w) Hf (eq_trans H3 Hp)).
      rewrite Hlt, H4 in IH. exact IH.
    + exact (IH w Hf Hp).
Qed.

Lemma timer_delay_pos (d : Z) : 1 <= timer_delay d.
Proof.
  unfold timer_delay.
  destruct ((1 <=? d) && (d <=? 2147483647)) eqn:E; [|lia].
  apply andb_true_iff in E. destruct E as [E _]. apply Z.leb_le in E. exact E.
Qed.

Lemma elapsed_nonneg (ds : list Z) : 0 <= elapsed ds.
Proof.
  induction ds as [|d ds IH]; unfold elapsed in *; cbn [fold_right]; lia.
Qed.

Lemma turn_loop_time (d : Z) (w : World) :
  loop_time (turn rt env d w) = loop_time w + Z.max 0 d.
Proof. unfold turn. now rewrite fire_due_loop_time. Qed.

(** A turn of the loop while [h] is not pending. *)
Lemma turn_idle (h : nat) (d : Z) (w : World) :
  pending_as h w = [] ->
  pending_as h (turn rt env d w) = []
  /\ fired_by h (turn rt env d w) = fired_by h w.
Proof.
  intros Hp. unfold turn. cbn zeta.
  destruct (fire_due_other h (timers (advance d w)) (advance d w) Hp) as [H1 H2].
  split; [rewrite H1; exact Hp | exact H2].
Qed.

Lemma run_idle (h : nat) (ds : list Z) (w : World) :
  pending_as h w = [] ->
  pending_as h (run rt env ds w) = []
  /\ fired_by h (run rt env ds w) = fired_by h w.
Proof.
  revert w. induction ds as [|d ds IH]; intros w Hp; [split; [exact Hp | reflexivity]|].
  change (run rt env (d :: ds) w) with (run rt env ds (turn rt env d w)).
  destruct (turn_idle h d w Hp) as [H1 H2].
  destruct (IH (turn rt env d w) H1) as [H3 H4].
  split; [exact H3 | congruence].
Qed.

(** A turn of the loop while [h] is pending as [t]. *)
Lemma turn_armed (h : nat) (t : Timer) (l : LogHandle) (d : Z) (w : World) :
  Context.log (cl_context (callback t)) = Some l ->
  pending_as h w = [t] ->
  if due t <=? loop_time w + Z.max 0 d then
    pending_as h (turn rt env d w) = []
    /\ exists r, fired_by h (turn rt env d w) = (fired_by h w ++ [r])%list
                 /\ unresponsive_record rt env t r
  else
    pending_as h (turn rt env d w) = [t]
    /\ fired_by h (turn rt env d w) = fired_by h w.
Proof.
  intros Hl Hp. unfold turn. cbn zeta.
  exact (fire_due_self h t l (timers (advance d w)) (advance d w) Hl Hp Hp).
Qed.

(** The loop runs while [h] is pending as [t] and not yet due: [t] fires
    once when its time has come, and not before. *)
Lemma run_armed (h : nat) (t : Timer) (l : LogHandle) (ds : list Z) (w : World) :
  Context.log (cl_context (callback t)) = Some l ->
  pending_as h w = [t] ->
  fired_by h w = [] ->
  loop_time w < due t ->
  (loop_time w + elapsed ds < due t ->
   pending_as h (run rt env ds w) = [t] /\ fired_by h (run rt env ds w) = [])
  /\ (due t <= loop_time w + elapsed ds ->
      pending_as h (run rt env ds w) = []
      /\ exists r, fired_by h (run rt env ds w) = [r] /\ unresponsive_record rt env t r).
Proof.
  intros Hl. revert w.
  induction ds as [|d ds IH]; intros w Hp Hf Hlt.
  - cbn. split; [intros _; split; assumption | lia].
  - change (run rt env (d :: ds) w) with (run rt env ds (turn rt env d w)).
    change (elapsed (d :: ds)) with (Z.max 0 d + elapsed ds).
    pose proof (turn_armed h t l d w Hl Hp) as Ht.
    pose proof (turn_loop_time d w) as Htime.
    pose proof (elapsed_nonneg ds) as Hnn.
    destruct (due t <=? loop_time w + Z.max 0 d) eqn:Ed.
    + apply Z.leb_le in Ed.
      destruct Ht as [Hp' [r [Hf' Hr]]].
      destruct (run_idle h ds (turn rt env d w) Hp') as [H1 H2].
      split; [lia|].
      intros _. split; [exact H1|].
      exists r. split; [|exact Hr].
      rewrite H2, Hf', Hf. reflexivity.
    + apply Z.leb_gt in Ed.
      destruct Ht as [Hp' Hf'].
      assert (Hlt' : loop_time (turn rt env d w) < due t) by lia.
      destruct (IH (turn rt env d w) Hp' (eq_trans Hf' Hf) Hlt') as [IH1 IH2].
      rewrite Htime in IH1, IH2.
      split; intros H; [apply IH1 | apply IH2]; lia.
Qed.

(** What [logIncomingRequest] does: one trace record, and one timer armed
    with a fresh handle, due after the unresponsiveness timeout. *)
Lemma logIncomingRequest_run (this : Logger.t) (request : Request.t) (w : World) :
  nullish (Request.headers request) = false ->
  exists c data w1 r,
    Logger.logIncomingRequest rt env this request w
    = (Ok (Request.set_context request
             (Some (Context.set_timer c (Some (next_timer w))))), w1)
    /\ Context.log c
       = Some (Child (Logger.log this)
                 [("request_id", prop (Request.headers request) "x-request-id")])
    /\ timers w1
       = (timers w ++
          [{| handle := next_timer w;
              due := loop_time w + timer_delay (Logger.unresponsiveTimeout this);
              callback :=
                {| cl_context := c; cl_data := data;
                   cl_message :=
                     (ToString rt (Request.method request) ++ " "
                      ++ ToString rt (Request.path request))%string |} |}])%list
    /\ sink w1 = (sink w ++ [r])%list
    /\ rec_level r = TRACE /\ origin r = None
    /\ loop_time w1 = loop_time w
    /\ next_timer w1 = S (next_timer w).
Proof.
  intros Hh. unfold Logger.logIncomingRequest.
  unfold bindM at 1. cbn [lift]. rewrite (get_object _ _ Hh).
  destruct (new_Context_spec env (prop (Request.headers request) "x-request-id")
              JNull (Logger.log this) w)
    as [c [w' [Hc [Hl [Ht [Hi [Hs [Htm [Hsk [Hn Hlt]]]]]]]]]].
  rewrite (bindM_ok _ _ _ _ _ Hc).
  unfold bindM at 1. cbn [lag_call].
  unfold bindM at 1. cbn [lift]. rewrite (get_object _ _ Hh).
  unfold bindM at 1. cbn [lift].
  destruct (truthy (prop (Request.headers request) "x-forwarded-for"));
    cbn [update get set bind prop lookup String.eqb Ascii.eqb Bool.eqb assign];
    unfold bindM at 1; rewrite Hl; cbn [emit];
    unfold bindM at 1; cbn [setTimeout ret];
    cbn [clock_reads uuid_reads lag_reads loop_time timers next_timer sink];
    rewrite Htm, Hsk, Hn, Hlt;
    do 4 eexists; (split; [reflexivity|]);
    cbn [timers sink loop_time next_timer rec_level origin];
    repeat split; exact Hl.
Qed.

(** Logging the response of a request whose context holds the timer [h]
    clears [h], whatever else happens. *)
Lemma logOutgoingResponse_disarms (this : Logger.t) (request : Request.t)
  (c : Context.t) (h : nat) (w : World) :
  Request.context request = Some c ->
  Context.timer c = Some h ->
  pending_as h (snd (Logger.logOutgoingResponse rt env this request w)) = []
  /\ fired_by h (snd (Logger.logOutgoingResponse rt env this request w))
     = fired_by h w.
Proof.
  intros Hc Ht.
  assert (Heq : exists (m : M Request.t) (w' : World),
            Logger.logOutgoingResponse rt env this request w = m w'
            /\ quiet m
            /\ pending_as h w' = [] /\ fired_by h w' = fired_by h w).
  { unfold Logger.logOutgoingResponse, Logger.context_of.
    rewrite Hc. unfold bindM at 1. cbn [ret].
    unfold Logger.disarm. rewrite Ht.
    unfold bindM at 1. unfold bindM at 1. cbn [clearTimeout ret].
    do 2 eexists. split; [reflexivity|]. split; [|split].
    - repeat first [ apply quiet_dt | apply quiet_outgoing_data
                   | apply quiet_log_boom | apply quiet_log_failure
                   | apply quiet_log_success | quiet_step ].
    - unfold pending_as. cbn [timers]. apply filter_filter_same.
    - reflexivity. }
  destruct Heq as [m [w' [Heq [Hq [Hp Hf]]]]].
  rewrite Heq.
  destruct (quiet_frame m h w' Hq) as [H1 H2].
  split; congruence.
Qed.


(** With fresh handles, the next handle is neither pending nor the origin
    of a record. *)
Lemma fresh_next (w : World) :
  fresh_handles w ->
  pending_as (next_timer w) w = [] /\ fired_by (next_timer w) w = [].
Proof.
  intros [Ht Hs]. split.
  - unfold pending_as. induction Ht as [|t ts Hlt _ IH]; [reflexivity|].
    cbn. destruct (Nat.eqb (handle t) (next_timer w)) eqn:E; [|exact IH].
    apply Nat.eqb_eq in E. lia.
  - unfold fired_by. induction Hs as [|r rs Hr _ IH]; [reflexivity|].
    cbn. destruct (origin r) as [h|]; [|exact IH].
    destruct (Nat.eqb h (next_timer w)) eqn:E; [|exact IH].
    apply Nat.eqb_eq in E. lia.
Qed.


Lemma tame_logOutgoingResponse (this : Logger.t) (request : Request.t) :
  tame (Logger.logOutgoingResponse rt env this request).
Proof.
  unfold Logger.logOutgoingResponse.
  apply tame_bind.
  { apply quiet_tame. unfold Logger.context_of.
    destruct (Request.context request).
    - apply quiet_ret.
    - apply quiet_bind; [apply quiet_lift | intros a; apply quiet_new_Context]. }
  intros c. apply tame_bind.
  { unfold Logger.disarm. destruct (Context.timer c).
    - apply tame_bind; [apply tame_clearTimeout | intros _; apply quiet_tame, quiet_ret].
    - apply quiet_tame, quiet_ret. }
  intros c'. apply quiet_tame.
  apply quiet_bind; [apply quiet_outgoing_data | intros data].
  apply quiet_bind; [apply quiet_lift | intros isBoom].
  destruct (truthy isBoom); [apply quiet_log_boom|].
  apply quiet_bind; [apply quiet_lift | intros source].
  apply quiet_bind; [apply quiet_lift | intros success].
  destruct (truthy source && strictly_false success);
    [apply quiet_log_failure | apply quiet_log_success].
Qed.

(** Handles stay fresh when a response goes out. *)
Lemma fresh_handles_logOutgoingResponse (this : Logger.t) (request : Request.t)
  (w : World) :
  fresh_handles w ->
  fresh_handles (snd (Logger.logOutgoingResponse rt env this request w)).
Proof. apply fresh_handles_tame, tame_logOutgoingResponse. Qed.

Lemma fresh_handles_empty : fresh_handles empty_world.
Proof. split; constructor. Qed.

Lemma fresh_handles_quiet {A : Type} (m : M A) (w : World) :
  quiet m -> fresh_handles w -> fresh_handles (snd (m w)).
Proof.
  intros Hq [Ht Hs].
  destruct (Hq w) as [Etm [En [_ [l [Es Hl]]]]].
  split.
  - rewrite Etm, En. exact Ht.
  - rewrite Es, En. apply Forall_app. split; [exact Hs|].
    eapply Forall_impl; [|exact Hl]. intros r Hr. now rewrite Hr.
Qed.

Lemma fresh_handles_fire (t : Timer) (w : World) :
  (handle t < next_timer w)%nat ->
  fresh_handles w -> fresh_handles (fire rt env t w).
Proof.
  intros Hlt [Ht Hs].
  destruct (fire_spec t w) as [Etm [_ [En Hsk]]].
  split.
  - rewrite Etm, En. apply Forall_forall. intros t' Hin.
    apply filter_In in Hin. destruct Hin as [Hin _].
    exact (proj1 (Forall_forall _ _) Ht t' Hin).
  - rewrite En.
    destruct (Context.log (cl_context (callback t))).
    + destruct Hsk as [r [Es [_ [Ho _]]]]. rewrite Es.
      apply Forall_app. split; [exact Hs|].
      constructor; [now rewrite Ho | constructor].
    + now rewrite Hsk.
Qed.

Lemma fire_next_timer (t : Timer) (w : World) :
  next_timer (fire rt env t w) = next_timer w.
Proof. exact (proj1 (proj2 (proj2 (fire_spec t w)))). Qed.

Lemma fresh_handles_fire_due (ts : list Timer) (w : World) :
  Forall (fun t => (handle t < next_timer w)%nat) ts ->
  fresh_handles w -> fresh_handles (fire_due rt env ts w).
Proof.
  revert w. induction ts as [|t ts IH]; intros w Hts Hw; [exact Hw|].
  inversion Hts as [|? ? Ht Hts']; subst.
  cbn [fire_due].
  destruct ((due t <=? loop_time w) && pending (handle t) w).
  - apply IH.
    + now rewrite fire_next_timer.
    + exact (fresh_handles_fire t w Ht Hw).
  - exact (IH w Hts' Hw).
Qed.

(** Handles stay fresh as the loop runs. *)
Lemma fresh_handles_run (ds : list Z) (w : World) :
  fresh_handles w -> fresh_handles (run rt env ds w).
Proof.
  revert w. induction ds as [|d ds IH]; intros w Hw; [exact Hw|].
  change (run rt env (d :: ds) w) with (run rt env ds (turn rt env d w)).
  apply IH. unfold turn. cbn zeta.
  apply fresh_handles_fire_due.
  - exact (proj1 Hw).
  - exact Hw.
Qed.

(** Handles stay fresh when a request comes in. *)
Lemma fresh_handles_logIncomingRequest (this : Logger.t) (request : Request.t)
  (w : World) :
  fresh_handles w ->
  fresh_handles (snd (Logger.logIncomingRequest rt env this request w)).
Proof.
  intros [Ht Hs].
  destruct (nullish (Request.headers request)) eqn:Hh.
  - assert (E : Logger.logIncomingRequest rt env this request w
                = (Throw (TypeError CannotReadPropertyOfNullish), w)).
    { unfold Logger.logIncomingRequest, bindM, lift.
      destruct (Request.headers request); try discriminate; reflexivity. }
    rewrite E. split; assumption.
  - destruct (logIncomingRequest_run this request w Hh)
      as (c & data & w1 & r & Hrun & _ & Htm & Hsk & _ & Ho & _ & Hn).
    rewrite Hrun. cbn [snd]. split.
    + rewrite Htm, Hn. apply Forall_app. split.
      * eapply Forall_impl; [|exact Ht]. intros t Hlt. cbn beta in *. lia.
      * constructor; [cbn; lia | constructor].
    + rewrite Hsk, Hn. apply Forall_app. split.
      * eapply Forall_impl; [|exact Hs]. intros r' Hr'.
        cbn beta in *. destruct (origin r'); [lia | exact I].
      * constructor; [now rewrite Ho | constructor].
Qed.
End Timers.


(* ================================================================== *)
(** ** Properties of [Object.assign] on property lists *)
(* ================================================================== *)

Lemma lookup_app (k : string) (a b : list (string * JsVal)) :
  lookup k (a ++ b)
  = match lookup k a with Some v => Some v | None => lookup k b end.
Proof.
  induction a as [|[k' v'] a IH]; [reflexivity|].
  cbn. destruct (k =? k')%string; [reflexivity | exact IH].
Qed.

Lemma lookup_not_in (k : string) (ps : list (string * JsVal)) :
  ~ In k (map fst ps) -> lookup k ps = None.
Proof.
  induction ps as [|[k' v'] ps IH]; [reflexivity|].
  cbn. intros H. destruct (k =? k')%string eqn:E.
  - apply String.eqb_eq in E. subst. exfalso. apply H. now left.
  - apply IH. intros Hin. apply H. now right.
Qed.

(** The last binding wins in [Object.assign]. *)
Lemma lookup_fold_assign (k : string) (src target : list (string * JsVal)) :
  lookup k (fold_left (fun acc kv => assign (fst kv) (snd kv) acc) src target)
  = match lookup k (rev src) with Some v => Some v | None => lookup k target end.
Proof.
  revert target. induction src as [|[k1 v1] src IH]; intros target; [reflexivity|].
  cbn [fold_left rev fst snd]. rewrite IH, lookup_app.
  destruct (lookup k (rev src)) as [v|]; [reflexivity|].
  cbn [lookup]. destruct (k =? k1)%string eqn:E.
  - apply String.eqb_eq in E. subst. apply lookup_assign_same.
  - now apply lookup_assign_other.
Qed.

Lemma lookup_rev_unique (k : string) (ps : list (string * JsVal)) :
  NoDup (map fst ps) -> lookup k (rev ps) = lookup k ps.
Proof.
  induction ps as [|[k' v'] ps IH]; [reflexivity|].
  cbn [map fst rev]. intros H. inversion H as [|? ? Hn Hd]; subst.
  rewrite lookup_app, (IH Hd). cbn [lookup].
  destruct (k =? k')%string eqn:E; [|now destruct (lookup k ps)].
  apply String.eqb_eq in E. subst. now rewrite (lookup_not_in _ _ Hn).
Qed.

(** [Object.assign(target, source)]: a key of the source has the value of
    the source, any other key keeps the value of the target. *)
Lemma lookup_Object_assign (k : string) (target : list (string * JsVal))
  (source : JsVal) :
  unique_keys source ->
  lookup k (Object_assign target source)
  = match lookup k (own_enumerable source) with
    | Some v => Some v
    | None => lookup k target
    end.
Proof.
  intros H. unfold Object_assign. rewrite lookup_fold_assign.
  now rewrite (lookup_rev_unique _ _ H).
Qed.

Lemma keys_assign (k : string) (v : JsVal) (ps : list (string * JsVal)) :
  map fst (assign k v ps)
  = if existsb (String.eqb k) (map fst ps) then map fst ps
    else (map fst ps ++ [k])%list.
Proof.
  induction ps as [|[k' v'] ps IH]; [reflexivity|].
  cbn. destruct (k =? k')%string eqn:E; cbn.
  - apply String.eqb_eq in E. now subst.
  - rewrite IH. now destruct (existsb (String.eqb k) (map fst ps)).
Qed.

Lemma NoDup_assign (k : string) (v : JsVal) (ps : list (string * JsVal)) :
  NoDup (map fst ps) -> NoDup (map fst (assign k v ps)).
Proof.
  intros H. rewrite keys_assign.
  destruct (existsb (String.eqb k) (map fst ps)) eqn:E; [exact H|].
  apply NoDup_app; [exact H | repeat constructor; intros [] |].
  intros x Hx [Hk|[]]. subst x.
  assert (Ht : existsb (String.eqb k) (map fst ps) = true).
  { apply existsb_exists. exists k. split; [exact Hx | apply String.eqb_refl]. }
  congruence.
Qed.

(** The result of [Object.assign] on an object is an object: its keys are
    unique when those of the target are. *)
Lemma unique_keys_Object_assign (c : option JsVal) (target : list (string * JsVal))
  (source : JsVal) :
  NoDup (map fst target) -> unique_keys (JObj c (Object_assign target source)).
Proof.
  unfold unique_keys, Object_assign. cbn [own_enumerable].
  generalize (own_enumerable source) as src. intros src. revert target.
  induction src as [|[k v] src IH]; intros target H; [exact H|].
  cbn [fold_left fst snd]. apply IH. now apply NoDup_assign.
Qed.

(* ================================================================== *)
(** ** More of [microservice.js]: error headers and redirects *)
(* ================================================================== *)

(** X1: the reply to an error carries the headers of the error.  Whenever
    [replyHandler] returns for a truthy [err], what it returns is a Boom
    error whose [output.headers] hold exactly the own enumerable properties
    of [err.headers] when that is truthy, and nothing otherwise; [data],
    [cacheControl] and the toolkit play no part in it. *)
Theorem replyHandler_error_headers (rt : JsRuntime) (R : Type)
  (responseToolkit : Hapi.Toolkit R) (err data cacheControl : JsVal)
  (r : MicroService.Reply R) :
  truthy err = true ->
  unique_keys (prop err "headers") ->
  MicroService.replyHandler rt err data responseToolkit cacheControl = Ok r ->
  exists b hs,
    r = MicroService.ReplyBoom b
    /\ Boom.headers (Boom.output b) = JObj None hs
    /\ (forall k,
          lookup k hs
          = if truthy (prop err "headers")
            then lookup k (own_enumerable (prop err "headers"))
            else None)
    /\ (forall (R' : Type) (responseToolkit' : Hapi.Toolkit R')
               (data' cacheControl' : JsVal),
          MicroService.replyHandler rt err data' responseToolkit' cacheControl'
          = Ok (MicroService.ReplyBoom b)).
Proof.
  intros Herr Hu Hr.
  destruct (statusCode_of_cases rt err Herr) as [sc [Hsc _]].
  rewrite (replyHandler_error_run rt R responseToolkit err data cacheControl sc
             Herr Hsc) in Hr.
  pose proof (Boom_new_cases rt err sc) as Hb.
  destruct (parseInt (ToString rt sc)) as [m|]; [|rewrite Hb in Hr; discriminate].
  destruct (400 <=? m); [|rewrite Hb in Hr; discriminate].
  rewrite Hb in Hr. injection Hr as <-.
  assert (Hsame : forall (R' : Type) (responseToolkit' : Hapi.Toolkit R')
                         (data' cacheControl' : JsVal),
            MicroService.replyHandler rt err data' responseToolkit' cacheControl'
            = Ok (MicroService.ReplyBoom
                    (if truthy (prop err "headers")
                     then Boom.set_output_headers (Boom.initialize m)
                            (JObj None
                               (Object_assign
                                  (own_enumerable
                                     (Boom.headers (Boom.output (Boom.initialize m))))
                                  (prop err "headers")))
                     else Boom.initialize m))).
  { intros R' tk' data' cc'.
    rewrite (replyHandler_error_run rt R' tk' err data' cc' sc Herr Hsc).
    now rewrite Hb. }
  destruct (truthy (prop err "headers")) eqn:Eh.
  - do 2 eexists. split; [reflexivity|]. split; [reflexivity|]. split.
    + intros k.
      cbn [Boom.initialize Boom.output Boom.headers own_enumerable].
      rewrite (lookup_Object_assign k [] _ Hu).
      now destruct (lookup k (own_enumerable (prop err "headers"))).
    + exact Hsame.
  - do 2 eexists. split; [reflexivity|]. split; [reflexivity|].
    split; [reflexivity | exact Hsame].
Qed.

(** X1, at an error with status 429 and a [retry-after] header. *)
Lemma replyHandler_error_headers_witness :
  let rt := sample_rt stringify_circular node_globals in
  let err :=
    JObj None
      [("statusCode", JNum 429);
       ("headers", JObj None [("retry-after", JStr "120")])] in
  exists b hs,
    MicroService.replyHandler rt err JNull Hapi.toolkit JUndefined
    = Ok (MicroService.ReplyBoom b)
    /\ Boom.statusCode (Boom.output b) = JNum 429
    /\ Boom.headers (Boom.output b) = JObj None hs
    /\ lookup "retry-after" hs = Some (JStr "120")
    /\ lookup "set-cookie" hs = None.
Proof.
  intros rt err.
  assert (Hu : unique_keys (prop err "headers")).
  { repeat constructor. intros []. }
  destruct (replyHandler_error_headers rt _ Hapi.toolkit err JNull JUndefined _
              eq_refl Hu eq_refl) as (b & hs & Hb & Hh & Hl & _).
  exists b, hs. injection Hb as Hb. rewrite <- Hb.
  split; [reflexivity|]. split; [reflexivity|]. rewrite <- Hb in Hh.
  split; [exact Hh|].
  split; rewrite Hl; reflexivity.
Defined.

(** X2: [redirectHandler] on the recording toolkit, for every value of
    [context]: the response redirects to [redirectUrl], and its only header
    is [set-cookie], present exactly when [context], [context.headers] and
    [context.headers['set-cookie']] are all truthy; no other header of the
    context is forwarded. *)
Theorem redirectHandler_forwards_set_cookie_only (redirectUrl context : JsVal) :
  let r := MicroService.redirectHandler redirectUrl context Hapi.toolkit in
  let cookie := prop (prop context "headers") "set-cookie" in
  Hapi.location r = Some redirectUrl
  /\ Hapi.contentType r = None
  /\ Hapi.etagOf r = None
  /\ (forall k,
        lookup k (Hapi.headers r)
        = if (k =? "set-cookie")%string && truthy cookie
          then Some cookie else None).
Proof.
  intros r cookie. unfold r, MicroService.redirectHandler. fold cookie.
  assert (Hc : truthy cookie = true ->
               truthy context = true /\ truthy (prop context "headers") = true).
  { unfold cookie. intros H.
    destruct context as [| | | | | |c ps]; try discriminate H.
    split; [reflexivity|].
    destruct (prop (JObj c ps) "headers"); try discriminate H; reflexivity. }
  destruct (truthy cookie) eqn:Ec.
  - destruct (Hc eq_refl) as [H1 H2]. rewrite H1, H2. cbn.
    repeat split. intros k. rewrite andb_true_r.
    now destruct (k =? "set-cookie")%string.
  - rewrite andb_false_r. cbn. repeat split.
    intros k. now rewrite andb_false_r.
Qed.

(* ================================================================== *)
(** ** More of the logger: the log methods and the serializer *)
(* ================================================================== *)

(** What [logInfo], [logWarning] and [logTrace] make of their data. *)
Lemma wrap_data_shape (data : JsVal) :
  truthy (Logger.wrap_data data) = true
  /\ isString (Logger.wrap_data data) = false
  /\ (truthy data = false -> Logger.wrap_data data = JObj None [])
  /\ (forall s, data = JStr s -> s <> ""%string ->
      Logger.wrap_data data = JObj None [("info", JStr s)])
  /\ (truthy data = true -> isString data = false -> Logger.wrap_data data = data).
Proof.
  unfold Logger.wrap_data, js_or.
  split; [|split; [|split; [|split]]].
  - destruct (truthy data) eqn:E; [|reflexivity].
    destruct (isString data); [reflexivity | exact E].
  - destruct (truthy data) eqn:E; [|reflexivity].
    destruct (isString data) eqn:E'; [reflexivity | exact E'].
  - intros H. now rewrite H.
  - intros s -> Hs. cbn.
    destruct (s =? "")%string eqn:E; [apply String.eqb_eq in E; contradiction|].
    reflexivity.
  - intros H1 H2. now rewrite H1, H2.
Qed.

(** X3: [logInfo], [logWarning] and [logTrace] never throw and hand the sink
    exactly one record each, at their own level, on the logger's own handle
    and with the message as given.  The data of the record is never a string
    and never falsy: falsy data (the empty string included) becomes [{}], a
    string becomes [{info: string}], and anything else goes through
    unchanged; data that went through once goes through unchanged again. *)
Theorem log_methods_hand_over_one_record (this : Logger.t) (msg : string)
  (data : JsVal) (w : World) :
  let logged (m : Logger.t -> string -> JsVal -> M unit) (lv : Level) : Prop :=
    exists w',
      m this msg data w = (Ok tt, w')
      /\ sink w'
         = (sink w ++ [{| rec_level := lv; rec_handle := Logger.log this;
                          rec_data := Logger.wrap_data data; rec_msg := msg;
                          origin := None |}])%list
      /\ timers w' = timers w in
  logged Logger.logInfo INFO
  /\ logged Logger.logWarning WARN
  /\ logged Logger.logTrace TRACE
  /\ truthy (Logger.wrap_data data) = true
  /\ isString (Logger.wrap_data data) = false
  /\ (truthy data = false -> Logger.wrap_data data = JObj None [])
  /\ (forall s, data = JStr s -> s <> ""%string ->
      Logger.wrap_data data = JObj None [("info", JStr s)])
  /\ (truthy data = true -> isString data = false -> Logger.wrap_data data = data)
  /\ Logger.wrap_data (Logger.wrap_data data) = Logger.wrap_data data.
Proof.
  intros logged.
  destruct (wrap_data_shape data) as (H1 & H2 & H3 & H4 & H5).
  split; [|split; [|split]];
    try (eexists; split; [reflexivity|]; split; reflexivity).
  split; [exact H1|]. split; [exact H2|]. split; [exact H3|].
  split; [exact H4|]. split; [exact H5|].
  destruct (wrap_data_shape (Logger.wrap_data data)) as (_ & _ & _ & _ & H6).
  exact (H6 H1 H2).
Qed.

(** The record [serializeError] builds is one it leaves alone. *)
Lemma serializeError_record (rt : JsRuntime) (message name stack code signal data : JsVal) :
  truthy stack = true ->
  let record :=
    JObj None
      [("message", message); ("name", name); ("stack", stack); ("code", code);
       ("signal", signal); ("data", data)] in
  Logger.serializeError rt record = record.
Proof.
  intros Hs record.
  assert (Hp : prop record "stack" = stack) by reflexivity.
  assert (Hc : prop record "cause" = JUndefined) by reflexivity.
  unfold Logger.serializeError. rewrite Hp, Hs.
  change (truthy record) with true. cbn [negb orb].
  rewrite getFullErrorStack_eq. cbn zeta. rewrite Hc, Hp.
  unfold js_or. rewrite Hs. reflexivity.
Qed.

(** X5: serializing twice is serializing once: the record [serializeError]
    builds has no [cause], and its stack is already the full one. *)
Theorem serializeError_idempotent (rt : JsRuntime) (err : JsVal) :
  Logger.serializeError rt (Logger.serializeError rt err)
  = Logger.serializeError rt err.
Proof.
  unfold Logger.serializeError at 2 3.
  destruct (negb (truthy err) || negb (truthy (prop err "stack"))) eqn:E.
  - unfold Logger.serializeError. now rewrite E.
  - apply orb_false_iff in E. destruct E as [_ E].
    apply negb_false_iff in E.
    apply serializeError_record.
    exact (getFullErrorStack_truthy rt err E).
Qed.

(* ================================================================== *)
(** ** More of the request log *)
(* ================================================================== *)

(** What [logIncomingRequest] does on a request that has headers. *)
Lemma logIncomingRequest_returns (rt : JsRuntime) (env : Env) (this : Logger.t)
  (request : Request.t) (w : World) :
  let headers := Request.headers request in
  let id := prop headers "x-request-id" in
  let xff := prop headers "x-forwarded-for" in
  nullish headers = false ->
  exists c r t w1,
    Logger.logIncomingRequest rt env this request w
    = (Ok (Request.set_context request (Some c)), w1)
    /\ Context.id c
       = (if truthy id then id else JStr (uuid_v4 env (uuid_reads w)))
    /\ Context.start c = JNum (Date_now env (clock_reads w))
    /\ Context.log c = Some (Child (Logger.log this) [("request_id", id)])
    /\ Context.timer c = Some (next_timer w)
    /\ sink w1 = (sink w ++ [r])%list
    /\ rec_level r = TRACE
    /\ Some (rec_handle r) = Context.log c
    /\ origin r = None
    /\ rec_msg r
       = (ToString rt (Request.method request) ++ " "
          ++ ToString rt (Request.path request))%string
    /\ prop (rec_data r) "lag" = JStr (decimal (lag_rounded env (lag_reads w)))
    /\ (let logged := prop (rec_data r) "request" in
        prop logged "method" = Request.method request
        /\ prop logged "headers" = headers
        /\ prop logged "params" = Request.params request
        /\ prop logged "path" = Request.path request
        /\ prop logged "query" = Request.query request
        /\ prop logged "state" = Request.state request
        /\ prop logged "url" = Request.url request
        /\ prop logged "time" = Context.start c
        /\ prop logged "remote" = (if truthy xff then xff else JUndefined))
    /\ timers w1 = (timers w ++ [t])%list
    /\ handle t = next_timer w
    /\ due t = loop_time w + timer_delay (Logger.unresponsiveTimeout this)
    /\ cl_data (callback t) = rec_data r
    /\ cl_message (callback t) = rec_msg r
    /\ Context.id (cl_context (callback t)) = Context.id c
    /\ clock_reads w1 = S (clock_reads w)
    /\ lag_reads w1 = S (lag_reads w).
Proof.
  intros headers id xff Hh. unfold Logger.logIncomingRequest.
  unfold bindM at 1. cbn [lift]. fold headers. rewrite (get_object _ _ Hh).
  fold id.
  destruct (new_Context_spec env id JNull (Logger.log this) w)
    as [c [w' [Hc [Hl [Ht [Hi [Hs [Htm [Hsk [Hn Hlt]]]]]]]]]].
  assert (Hreads : clock_reads w' = S (clock_reads w)
                   /\ lag_reads w' = lag_reads w).
  { revert Hc. unfold Logger.new_Context, bindM, ret, uuid_v4_call, Date_now_call.
    destruct (truthy id); cbn; intros E; inversion E; split; reflexivity. }
  destruct Hreads as [Hcr Hlr].
  rewrite (bindM_ok _ _ _ _ _ Hc).
  unfold bindM at 1. cbn [lag_call].
  unfold bindM at 1. cbn [lift]. rewrite (get_object _ _ Hh). fold xff.
  unfold bindM at 1. cbn [lift].
  cbn [truthy] in Hs.
  destruct (truthy xff) eqn:Ex;
    cbn [update get set bind prop lookup String.eqb Ascii.eqb Bool.eqb assign];
    unfold bindM at 1; rewrite Hl; cbn [emit];
    unfold bindM at 1; cbn [setTimeout ret];
    cbn [clock_reads uuid_reads lag_reads loop_time timers next_timer sink];
    rewrite Htm, Hsk, Hn, Hlt, Hcr, Hlr;
    do 4 eexists; (split; [reflexivity|]);
    cbn [Context.set_timer Context.id Context.start Context.log Context.timer
         timers sink loop_time next_timer rec_level rec_handle rec_msg rec_data
         origin handle due callback cl_data cl_message cl_context
         clock_reads lag_reads
         prop lookup String.eqb Ascii.eqb Bool.eqb];
    rewrite Hi, Hs, Hl; repeat split; exact Hi.
Qed.

(** X6: what [logIncomingRequest] does, in full.  On a request without headers
    it throws before anything has happened.  On any other request it
    returns, with a context attached whose id is the [x-request-id] header
    when that is truthy and a fresh uuid otherwise, whose start is the clock
    reading and whose log handle is the child tagged with the header; it
    hands the sink exactly one record, at trace level on that handle, with
    the message "METHOD PATH" and with the request's own fields, its start
    time and the lag as data, [remote] being there exactly when
    [x-forwarded-for] is truthy; and it arms exactly one timer, whose
    callback keeps that same data. *)
Theorem logIncomingRequest_outcome (rt : JsRuntime) (env : Env) (this : Logger.t)
  (request : Request.t) (w : World) :
  let headers := Request.headers request in
  let id := prop headers "x-request-id" in
  let xff := prop headers "x-forwarded-for" in
  (nullish headers = true ->
   Logger.logIncomingRequest rt env this request w
   = (Throw (TypeError CannotReadPropertyOfNullish), w))
  /\ (nullish headers = false ->
      exists c r t w1,
        Logger.logIncomingRequest rt env this request w
        = (Ok (Request.set_context request (Some c)), w1)
        /\ Context.id c
           = (if truthy id then id else JStr (uuid_v4 env (uuid_reads w)))
        /\ Context.start c = JNum (Date_now env (clock_reads w))
        /\ Context.log c = Some (Child (Logger.log this) [("request_id", id)])
        /\ Context.timer c = Some (next_timer w)
        /\ sink w1 = (sink w ++ [r])%list
        /\ rec_level r = TRACE
        /\ Some (rec_handle r) = Context.log c
        /\ origin r = None
        /\ rec_msg r
           = (ToString rt (Request.method request) ++ " "
              ++ ToString rt (Request.path request))%string
        /\ prop (rec_data r) "lag" = JStr (decimal (lag_rounded env (lag_reads w)))
        /\ (let logged := prop (rec_data r) "request" in
            prop logged "method" = Request.method request
            /\ prop logged "headers" = headers
            /\ prop logged "params" = Request.params request
            /\ prop logged "path" = Request.path request
            /\ prop logged "query" = Request.query request
            /\ prop logged "state" = Request.state request
            /\ prop logged "url" = Request.url request
            /\ prop logged "time" = Context.start c
            /\ prop logged "remote" = (if truthy xff then xff else JUndefined))
        /\ timers w1 = (timers w ++ [t])%list
        /\ handle t = next_timer w
        /\ due t = loop_time w + timer_delay (Logger.unresponsiveTimeout this)
        /\ cl_data (callback t) = rec_data r
        /\ cl_message (callback t) = rec_msg r
        /\ Context.id (cl_context (callback t)) = Context.id c
        /\ clock_reads w1 = S (clock_reads w)
        /\ lag_reads w1 = S (lag_reads w)).
Proof.
  intros headers id xff. split.
  - intros Hh. unfold Logger.logIncomingRequest, bindM, lift.
    fold headers. destruct headers; try discriminate Hh; reflexivity.
  - exact (logIncomingRequest_returns rt env this request w).
Qed.

(* ================================================================== *)
(** ** More of the unresponsiveness timer *)
(* ================================================================== *)

Lemma run_loop_time (rt : JsRuntime) (env : Env) (ds : list Z) (w : World) :
  loop_time (run rt env ds w) = loop_time w + elapsed ds.
Proof.
  revert w. induction ds as [|d ds IH]; intros w.
  - cbn. lia.
  - change (run rt env (d :: ds) w) with (run rt env ds (turn rt env d w)).
    change (elapsed (d :: ds)) with (Z.max 0 d + elapsed ds).
    rewrite IH, turn_loop_time. lia.
Qed.

(** With fresh handles, no handle from the next one on is pending or the
    origin of a record. *)
Lemma fresh_above (h : nat) (w : World) :
  fresh_handles w -> (next_timer w <= h)%nat ->
  pending_as h w = [] /\ fired_by h w = [].
Proof.
  intros [Ht Hs] Hle. split.
  - unfold pending_as. induction Ht as [|t ts Hlt _ IH]; [reflexivity|].
    cbn. destruct (Nat.eqb (handle t) h) eqn:E; [|exact IH].
    apply Nat.eqb_eq in E. lia.
  - unfold fired_by. induction Hs as [|r rs Hr _ IH]; [reflexivity|].
    cbn. destruct (origin r) as [h'|]; [|exact IH].
    destruct (Nat.eqb h' h) eqn:E; [|exact IH].
    apply Nat.eqb_eq in E. lia.
Qed.

(** Logging the response of a request whose context holds the timer [h]
    leaves every other timer as it is. *)
Lemma logOutgoingResponse_other (rt : JsRuntime) (env : Env) (this : Logger.t)
  (request : Request.t) (c : Context.t) (h h' : nat) (w : World) :
  Request.context request = Some c ->
  Context.timer c = Some h ->
  h <> h' ->
  let w' := snd (Logger.logOutgoingResponse rt env this request w) in
  pending_as h' w' = pending_as h' w
  /\ fired_by h' w' = fired_by h' w
  /\ loop_time w' = loop_time w.
Proof.
  intros Hc Ht Hne.
  assert (Heq : exists (m : M Request.t) (w1 : World),
            Logger.logOutgoingResponse rt env this request w = m w1
            /\ quiet m
            /\ pending_as h' w1 = pending_as h' w
            /\ fired_by h' w1 = fired_by h' w
            /\ loop_time w1 = loop_time w).
  { unfold Logger.logOutgoingResponse, Logger.context_of.
    rewrite Hc. unfold bindM at 1. cbn [ret].
    unfold Logger.disarm. rewrite Ht.
    unfold bindM at 1. unfold bindM at 1. cbn [clearTimeout ret].
    do 2 eexists. split; [reflexivity|]. split; [|split; [|split]].
    - apply quiet_bind; [apply quiet_outgoing_data | intros data].
      apply quiet_bind; [apply quiet_lift | intros isBoom].
      destruct (truthy isBoom); [apply quiet_log_boom|].
      apply quiet_bind; [apply quiet_lift | intros source].
      apply quiet_bind; [apply quiet_lift | intros success].
      destruct (truthy source && strictly_false success);
        [apply quiet_log_failure | apply quiet_log_success].
    - unfold pending_as. cbn [timers]. apply filter_filter_neq. exact Hne.
    - reflexivity.
    - reflexivity. }
  destruct Heq as [m [w1 [Heq [Hq [Hp [Hf Hl]]]]]].
  cbn zeta. rewrite Heq.
  destruct (quiet_frame m h' w1 Hq) as [H1 H2].
  destruct (Hq w1) as [_ [_ [H3 _]]].
  split; [congruence|]. split; congruence.
Qed.

(** X7: logging the same request as incoming twice (as the listener of the
    [request] event does when that event comes more than once for a
    request) leaks a timer.  The second
    call attaches a new context with a new timer and the timer of the first
    call is no longer reachable from the request: a response logged in time
    clears the second timer only, and the first one still fires, once, when
    the timeout has elapsed since the first call, reporting as unresponsive
    a request that was answered. *)
Theorem logIncomingRequest_twice_leaks_timer (rt : JsRuntime) (env : Env)
  (this : Logger.t) (request : Request.t) (w0 : World) :
  nullish (Request.headers request) = false ->
  fresh_handles w0 ->
  let h1 := next_timer w0 in
  let h2 := S (next_timer w0) in
  let timeout := timer_delay (Logger.unresponsiveTimeout this) in
  exists request1 w1 request2 w2 c2,
    Logger.logIncomingRequest rt env this request w0 = (Ok request1, w1)
    /\ Logger.logIncomingRequest rt env this request1 w1 = (Ok request2, w2)
    /\ Request.context request2 = Some c2
    /\ Context.timer c2 = Some h2
    /\ forall response before after,
         elapsed before < timeout ->
         let w3 :=
           snd (Logger.logOutgoingResponse rt env this
                  (Request.set_response request2 response)
                  (run rt env before w2)) in
         fired_by h2 (run rt env after w3) = []
         /\ (elapsed before + elapsed after < timeout ->
             fired_by h1 (run rt env after w3) = [])
         /\ (timeout <= elapsed before + elapsed after ->
             exists r,
               fired_by h1 (run rt env after w3) = [r]
               /\ rec_level r = ERROR
               /\ origin r = Some h1
               /\ exists n,
                    rec_msg r
                    = (ToString rt (Request.method request) ++ " "
                       ++ ToString rt (Request.path request)
                       ++ " is unresponsive ("
                       ++ ToString rt
                            (js_sub rt (JNum (Date_now env n))
                               (JNum (Date_now env (clock_reads w0))))
                       ++ "ms)")%string).
Proof.
  intros Hh Hfresh h1 h2 timeout.
  destruct (logIncomingRequest_run rt env this request w0 Hh)
    as (c1 & data1 & w1 & r1 & Hrun1 & Hl1 & Htm1 & Hsk1 & _ & Ho1 & Hlt1 & Hn1).
  set (request1 := Request.set_context request
                     (Some (Context.set_timer c1 (Some (next_timer w0))))) in *.
  assert (Hh1 : nullish (Request.headers request1) = false) by exact Hh.
  destruct (logIncomingRequest_run rt env this request1 w1 Hh1)
    as (c2 & data2 & w2 & r2 & Hrun2 & Hl2 & Htm2 & Hsk2 & _ & Ho2 & Hlt2 & Hn2).
  destruct (fresh_next w0 Hfresh) as [Hp0 Hf0].
  assert (Hstart : Context.start c1 = JNum (Date_now env (clock_reads w0))).
  { destruct (logIncomingRequest_returns rt env this request w0 Hh)
      as (c & r & t & w & Hrun & _ & Hs & _ & Ht & _).
    rewrite Hrun1 in Hrun. injection Hrun as Hreq _.
    rewrite <- Hreq in Hs. exact Hs. }
  set (t1 := {| handle := next_timer w0;
                due := loop_time w0 + timer_delay (Logger.unresponsiveTimeout this);
                callback :=
                  {| cl_context := c1; cl_data := data1;
                     cl_message :=
                       (ToString rt (Request.method request) ++ " "
                        ++ ToString rt (Request.path request))%string |} |}) in *.
  assert (Hp1 : pending_as h1 w1 = [t1]).
  { unfold pending_as. rewrite Htm1, filter_app. fold (pending_as h1 w0).
    unfold h1. rewrite Hp0. cbn. now rewrite Nat.eqb_refl. }
  assert (Hf1 : fired_by h1 w1 = []).
  { rewrite (fired_by_app h1 w0 w1 [r1] Hsk1). unfold h1. rewrite Hf0.
    cbn. now rewrite Ho1. }
  assert (Hp2 : pending_as h1 w2 = [t1]).
  { unfold pending_as. rewrite Htm2, filter_app. fold (pending_as h1 w1).
    rewrite Hp1. cbn [filter handle]. rewrite Hn1.
    destruct (Nat.eqb (S (next_timer w0)) h1) eqn:E; [|reflexivity].
    apply Nat.eqb_eq in E. unfold h1 in E. lia. }
  assert (Hf2 : fired_by h1 w2 = []).
  { rewrite (fired_by_app h1 w1 w2 [r2] Hsk2), Hf1. cbn. now rewrite Ho2. }
  assert (Hdue : loop_time w2 < due t1).
  { pose proof (timer_delay_pos (Logger.unresponsiveTimeout this)).
    cbn. rewrite Hlt2, Hlt1. lia. }
  assert (Hlog : Context.log (cl_context (callback t1))
                 = Some (Child (Logger.log this)
                           [("request_id",
                             prop (Request.headers request) "x-request-id")]))
    by exact Hl1.
  exists request1, w1,
    (Request.set_context request1
       (Some (Context.set_timer c2 (Some (next_timer w1))))), w2,
    (Context.set_timer c2 (Some (next_timer w1))).
  split; [exact Hrun1|]. split; [exact Hrun2|]. split; [reflexivity|].
  split; [cbn; now rewrite Hn1|].
  intros response before after Hb w3.
  (* before the response: neither timer is due *)
  destruct (run_armed rt env h1 t1 _ before w2 Hlog Hp2 Hf2 Hdue) as [Hnot _].
  destruct Hnot as [Hp3 Hf3]; [cbn; rewrite Hlt2, Hlt1; fold timeout; lia|].
  set (request2 := Request.set_response
                     (Request.set_context request1
                        (Some (Context.set_timer c2 (Some (next_timer w1)))))
                     response) in *.
  (* the response clears the second timer *)
  destruct (logOutgoingResponse_disarms rt env this request2
              (Context.set_timer c2 (Some (next_timer w1))) (next_timer w1)
              (run rt env before w2) eq_refl eq_refl) as [Hp4 Hf4].
  fold w3 in Hp4, Hf4.
  assert (Hh2 : h2 = next_timer w1) by (unfold h2; now rewrite Hn1).
  assert (Hf2' : fired_by h2 (run rt env before w2) = []).
  { set (t2 := {| handle := next_timer w1;
                  due := loop_time w1
                         + timer_delay (Logger.unresponsiveTimeout this);
                  callback :=
                    {| cl_context := c2; cl_data := data2;
                       cl_message :=
                         (ToString rt (Request.method request1) ++ " "
                          ++ ToString rt (Request.path request1))%string |} |})
      in *.
    assert (Hq : pending_as h2 w2 = [t2]).
    { unfold pending_as. rewrite Htm2, filter_app, Htm1, filter_app.
      fold (pending_as h2 w0).
      assert (E0 : pending_as h2 w0 = []).
      { apply (fresh_above h2 w0 Hfresh). unfold h2. lia. }
      rewrite E0. cbn [filter handle app].
      unfold t2 at 1. cbn [handle]. rewrite Hh2, Nat.eqb_refl. unfold t1. cbn [handle].
      destruct (Nat.eqb (next_timer w0) (next_timer w1)) eqn:E; [|reflexivity].
      apply Nat.eqb_eq in E. lia. }
    assert (Hg : fired_by h2 w2 = []).
    { rewrite (fired_by_app h2 w1 w2 [r2] Hsk2), (fired_by_app h2 w0 w1 [r1] Hsk1).
      cbn. rewrite Ho1, Ho2. cbn. rewrite !app_nil_r.
      apply (fresh_above h2 w0 Hfresh). unfold h2. lia. }
    assert (Hlog2 : Context.log (cl_context (callback t2))
                    = Some (Child (Logger.log this)
                              [("request_id",
                                prop (Request.headers request1) "x-request-id")]))
      by exact Hl2.
    destruct (run_armed rt env h2 t2 _ before w2 Hlog2 Hq Hg) as [Hnot _].
    { pose proof (timer_delay_pos (Logger.unresponsiveTimeout this)).
      cbn. rewrite Hlt2. lia. }
    destruct Hnot as [_ H]; [cbn; rewrite Hlt2; fold timeout; lia | exact H]. }
  split; [|split].
  - destruct (run_idle rt env h2 after w3) as [_ H]; [now rewrite Hh2|].
    rewrite H, Hh2, Hf4, <- Hh2. exact Hf2'.
  - (* the first timer is still pending after the response *)
    intros Hlt.
    destruct (logOutgoingResponse_other rt env this request2
                (Context.set_timer c2 (Some (next_timer w1))) (next_timer w1) h1
                (run rt env before w2) eq_refl eq_refl) as (Hp5 & Hf5 & Hl5).
    { unfold h1. lia. }
    fold w3 in Hp5, Hf5, Hl5.
    destruct (run_armed rt env h1 t1 _ after w3 Hlog) as [Hnot _];
      [congruence | congruence | |].
    { rewrite Hl5, run_loop_time. cbn. rewrite Hlt2, Hlt1. fold timeout. lia. }
    destruct Hnot as [_ H]; [|exact H].
    rewrite Hl5, run_loop_time. cbn. rewrite Hlt2, Hlt1. fold timeout. lia.
  - intros Hge.
    destruct (logOutgoingResponse_other rt env this request2
                (Context.set_timer c2 (Some (next_timer w1))) (next_timer w1) h1
                (run rt env before w2) eq_refl eq_refl) as (Hp5 & Hf5 & Hl5).
    { unfold h1. lia. }
    fold w3 in Hp5, Hf5, Hl5.
    destruct (run_armed rt env h1 t1 _ after w3 Hlog) as [_ Hyes];
      [congruence | congruence | |].
    { rewrite Hl5, run_loop_time. cbn. rewrite Hlt2, Hlt1. fold timeout. lia. }
    destruct Hyes as [_ [r [Hr1 Hr2]]].
    { rewrite Hl5, run_loop_time. cbn. rewrite Hlt2, Hlt1. fold timeout. lia. }
    exists r. split; [exact Hr1|].
    destruct Hr2 as [Hlv [Hor [_ [_ [n Hmsg]]]]].
    split; [exact Hlv|]. split; [exact Hor|].
    exists n. rewrite Hmsg. unfold t1. cbn [callback cl_message cl_context].
    rewrite Hstart, !append_assoc. reflexivity.
Qed.

(** X7, at [GET /items]: answered after 100 ms, and reported as
    unresponsive once 40100 ms have passed. *)
Lemma logIncomingRequest_twice_leaks_timer_witness :
  let rt := sample_rt stringify_circular node_globals in
  nullish (Request.headers (sample_request JNull None)) = false
  /\ fresh_handles empty_world
  /\ exists request1 w1 request2 w2,
       Logger.logIncomingRequest rt sample_env sample_logger
         (sample_request JNull None) empty_world = (Ok request1, w1)
       /\ Logger.logIncomingRequest rt sample_env sample_logger request1 w1
          = (Ok request2, w2)
       /\ let w3 :=
            snd (Logger.logOutgoingResponse rt sample_env sample_logger
                   (Request.set_response request2 (sample_response JNull))
                   (run rt sample_env [100] w2)) in
          fired_by 2 (run rt sample_env [40000] w3) = []
          /\ exists r, fired_by 1 (run rt sample_env [40000] w3) = [r]
                       /\ rec_level r = ERROR.
Proof.
  intros rt.
  assert (Hfresh : fresh_handles empty_world) by (split; constructor).
  split; [reflexivity|]. split; [exact Hfresh|].
  destruct (logIncomingRequest_twice_leaks_timer rt sample_env sample_logger
              (sample_request JNull None) empty_world eq_refl Hfresh)
    as (request1 & w1 & request2 & w2 & c2 & Hrun1 & Hrun2 & _ & _ & Hleak).
  exists request1, w1, request2, w2.
  split; [exact Hrun1|]. split; [exact Hrun2|].
  destruct (Hleak (sample_response JNull) [100] [40000]) as (H2 & _ & H1).
  { vm_compute. reflexivity. }
  cbn zeta. split; [exact H2|].
  destruct H1 as (r & Hr & Hl & _).
  { vm_compute. discriminate. }
  exists r. split; assumption.
Defined.



(* ================================================================== *)
(** ** More of [logOutgoingResponse]: what the record says of the request *)
(* ================================================================== *)

Lemma outgoing_data_exact (rt : JsRuntime) (env : Env) (this : Logger.t)
  (request : Request.t) (c : Context.t) (w : World) :
  nullish (Request.headers request) = false ->
  exists w',
    Logger.outgoing_data rt env this request c w
    = (Ok (JObj None
             [("request", logged_request this request (Context.start c));
              ("response", JObj None [("time", JNum (Date_now env (clock_reads w)))]);
              ("duration",
               js_sub rt (JNum (Date_now env (S (clock_reads w)))) (Context.start c));
              ("lag", JStr (decimal (lag_rounded env (lag_reads w))))]), w')
    /\ sink w' = sink w.
Proof.
  intros Hh. unfold Logger.outgoing_data, logged_request.
  unfold bindM at 1. cbn [Date_now_call].
  unfold bindM at 1. rewrite dt_run.
  unfold bindM at 1. cbn [lag_call].
  unfold bindM at 1. cbn [lift]. rewrite (get_object _ _ Hh).
  unfold bindM, lift.
  destruct (truthy (prop (Request.headers request) "x-forwarded-for"));
    destruct (level_of (Logger.log this) <? 30); cbn;
    eexists; (split; [reflexivity|]); reflexivity.
Qed.

(** The fields of the request part of the outgoing record. *)
Lemma logged_request_fields (this : Logger.t) (request : Request.t) (start : JsVal) :
  let logged := logged_request this request start in
  let fields := own_enumerable logged in
  let xff := prop (Request.headers request) "x-forwarded-for" in
  lookup "method" fields = Some (Request.method request)
  /\ lookup "path" fields = Some (Request.path request)
  /\ lookup "query" fields = Some (Request.query request)
  /\ lookup "url" fields = Some (Request.url request)
  /\ lookup "time" fields = Some start
  /\ lookup "remote" fields = (if truthy xff then Some xff else None)
  /\ lookup "headers" fields
     = (if level_of (Logger.log this) <? 30
        then Some (Request.headers request) else None)
  /\ lookup "params" fields
     = (if level_of (Logger.log this) <? 30
        then Some (Request.params request) else None)
  /\ lookup "state" fields
     = (if level_of (Logger.log this) <? 30
        then Some (Request.state request) else None).
Proof.
  unfold logged_request. cbn zeta.
  destruct (truthy (prop (Request.headers request) "x-forwarded-for"));
    destruct (level_of (Logger.log this) <? 30); cbn; repeat split.
Qed.

(** The request part, the duration and the lag of the record of an outgoing
    response. *)
Lemma logOutgoingResponse_data (rt : JsRuntime) (env : Env) (this : Logger.t)
  (request : Request.t) (w : World) :
  loggable request = true ->
  exists request' w' r n,
    Logger.logOutgoingResponse rt env this request w = (Ok request', w')
    /\ sink w' = (sink w ++ [r])%list
    /\ prop (rec_data r) "request"
       = logged_request this request (outgoing_start env request w)
    /\ prop (prop (rec_data r) "response") "time" = JNum (Date_now env n)
    /\ prop (rec_data r) "duration"
       = js_sub rt (JNum (Date_now env (S n))) (outgoing_start env request w)
    /\ prop (rec_data r) "lag" = JStr (decimal (lag_rounded env (lag_reads w))).
Proof.
  intros Hlog. unfold loggable in Hlog.
  apply andb_true_iff in Hlog. destruct Hlog as [Hlog Hresp].
  apply andb_true_iff in Hlog. destruct Hlog as [Hh Hctx].
  apply negb_true_iff in Hh.
  destruct (context_stage env this request w Hh Hctx)
    as [c [l [w1 [Hrun [Hl [Hid [Hst [Htm [Hl0 [Hsk [Hnt [Hlt Htms]]]]]]]]]]]].
  assert (Hlag : lag_reads w1 = lag_reads w).
  { revert Hrun. unfold Logger.context_of.
    destruct (Request.context request) as [c0|].
    - unfold bindM, ret, Logger.disarm.
      destruct (Context.timer c0); cbn; intros E; inversion E; reflexivity.
    - rewrite (get_object _ _ Hh).
      unfold Logger.new_Context, Logger.disarm, bindM, lift, ret,
        uuid_v4_call, Date_now_call.
      destruct (truthy (prop (Request.headers request) "x-request-id")); cbn;
        intros E; inversion E; reflexivity. }
  unfold Logger.logOutgoingResponse.
  rewrite <- bindM_assoc. rewrite (bindM_ok _ _ _ _ _ Hrun).
  set (request1 := match Request.context request with
                   | Some _ => Request.set_context request (Some c)
                   | None => request
                   end).
  assert (Hr1 : Request.response request1 = Request.response request)
    by (unfold request1; destruct (Request.context request); reflexivity).
  assert (Hh1 : Request.headers request1 = Request.headers request)
    by (unfold request1; destruct (Request.context request); reflexivity).
  assert (Hrq : logged_request this request1 (Context.start c)
                = logged_request this request (outgoing_start env request w)).
  { rewrite Hst. unfold request1.
    destruct (Request.context request); reflexivity. }
  destruct (outgoing_data_exact rt env this request1 c w1) as [w2 [Hdata Hsk2]];
    [now rewrite Hh1|].
  rewrite (bindM_ok _ _ _ _ _ Hdata).
  assert (Hobj : is_object (Request.response request) = true).
  { unfold response_headers in Hresp.
    destruct (truthy (prop (Request.response request) "isBoom")).
    - exact (is_object_prop _ _ (is_object_prop _ _ Hresp)).
    - exact (is_object_prop _ _ Hresp). }
  unfold bindM at 1. cbn [lift].
  rewrite (get_object _ _ (is_object_not_nullish _ Hobj)).
  unfold response_headers in Hresp.
  destruct (truthy (prop (Request.response request) "isBoom")) eqn:Eb.
  - rewrite <- Hr1 in Hresp.
    destruct (log_boom_spec rt env c request1
                (logged_request this request1 (Context.start c))
                (JNum (Date_now env (clock_reads w1)))
                (js_sub rt (JNum (Date_now env (S (clock_reads w1)))) (Context.start c))
                (JStr (decimal (lag_rounded env (lag_reads w1))))
                (ToString rt (Request.method request1) ++ " "
                 ++ ToString rt (Request.path request1) ++ " ")%string w2 l Hl Hresp)
      as [r' [w' [Hb [_ [_ [_ [_ [_ [Hsink _]]]]]]]]].
    rewrite Hb. do 3 eexists. exists (clock_reads w1).
    split; [reflexivity|].
    split; [rewrite Hsink, Hsk2, Hsk; reflexivity|].
    cbn [rec_data prop lookup String.eqb Ascii.eqb Bool.eqb].
    rewrite Hst in *. rewrite Hlag.
    split; [exact Hrq|]. repeat split.
  - rewrite <- Hr1 in Hresp.
    destruct (log_failure_spec rt env c request1
                (logged_request this request1 (Context.start c))
                (JNum (Date_now env (clock_reads w1)))
                (js_sub rt (JNum (Date_now env (S (clock_reads w1)))) (Context.start c))
                (JStr (decimal (lag_rounded env (lag_reads w1))))
                (ToString rt (Request.method request1) ++ " "
                 ++ ToString rt (Request.path request1) ++ " ")%string w2 l Hl Hresp)
      as [rf [wf [Hf [_ [_ [_ [_ [Hsinkf _]]]]]]]].
    destruct (log_success_spec rt env c request1
                (logged_request this request1 (Context.start c))
                (JNum (Date_now env (clock_reads w1)))
                (js_sub rt (JNum (Date_now env (S (clock_reads w1)))) (Context.start c))
                (JStr (decimal (lag_rounded env (lag_reads w1))))
                (ToString rt (Request.method request1) ++ " "
                 ++ ToString rt (Request.path request1) ++ " ")%string w2 l Hl Hresp)
      as [rs [ws [Hs [_ [_ [_ [_ [Hsinks _]]]]]]]].
    unfold bindM at 1. cbn [lift].
    rewrite (get_object _ _ (is_object_not_nullish _ Hobj)).
    unfold bindM at 1. cbn [lift].
    assert (Hsucc :
      (if truthy (prop (Request.response request) "source")
       then get (prop (Request.response request) "source") "success"
       else Ok (prop (Request.response request) "source"))
      = Ok (if truthy (prop (Request.response request) "source")
            then prop (prop (Request.response request) "source") "success"
            else prop (Request.response request) "source")).
    { destruct (truthy (prop (Request.response request) "source")) eqn:Es;
        [apply get_truthy; exact Es | reflexivity]. }
    rewrite Hsucc. clear Hsucc.
    match goal with
    | |- context [if ?b then Logger.log_failure _ _ _ _ _ _ else _] => destruct b
    end.
    + rewrite Hf. do 3 eexists. exists (clock_reads w1).
      split; [reflexivity|].
      split; [rewrite Hsinkf, Hsk2, Hsk; reflexivity|].
      cbn [rec_data prop lookup String.eqb Ascii.eqb Bool.eqb].
      rewrite Hst in *. rewrite Hlag.
      split; [exact Hrq|]. repeat split.
    + rewrite Hs. do 3 eexists. exists (clock_reads w1).
      split; [reflexivity|].
      split; [rewrite Hsinks, Hsk2, Hsk; reflexivity|].
      cbn [rec_data prop lookup String.eqb Ascii.eqb Bool.eqb].
      rewrite Hst in *. rewrite Hlag.
      split; [exact Hrq|]. repeat split.
Qed.


(** X8: what the record of an outgoing response says of the request.  The
    method, the path, the query, the url and the start time of the context
    are always there; [remote] is there exactly for a request with a truthy
    [x-forwarded-for] header; the headers, the parameters and the state of
    the request are there exactly when the level of the logger is below 30
    (trace or debug), and absent from 30 (info) on.  The time of the
    response and the duration come from two successive readings of the
    clock. *)
Theorem logOutgoingResponse_request_fields (rt : JsRuntime) (env : Env)
  (this : Logger.t) (request : Request.t) (w : World) :
  loggable request = true ->
  exists request' w' r,
    Logger.logOutgoingResponse rt env this request w = (Ok request', w')
    /\ sink w' = (sink w ++ [r])%list
    /\ (let fields := own_enumerable (prop (rec_data r) "request") in
        let xff := prop (Request.headers request) "x-forwarded-for" in
        lookup "method" fields = Some (Request.method request)
        /\ lookup "path" fields = Some (Request.path request)
        /\ lookup "query" fields = Some (Request.query request)
        /\ lookup "url" fields = Some (Request.url request)
        /\ lookup "time" fields = Some (outgoing_start env request w)
        /\ lookup "remote" fields = (if truthy xff then Some xff else None)
        /\ (level_of (Logger.log this) < 30 ->
            lookup "headers" fields = Some (Request.headers request)
            /\ lookup "params" fields = Some (Request.params request)
            /\ lookup "state" fields = Some (Request.state request))
        /\ (30 <= level_of (Logger.log this) ->
            lookup "headers" fields = None
            /\ lookup "params" fields = None
            /\ lookup "state" fields = None))
    /\ (exists n,
          prop (prop (rec_data r) "response") "time" = JNum (Date_now env n)
          /\ prop (rec_data r) "duration"
             = js_sub rt (JNum (Date_now env (S n))) (outgoing_start env request w))
    /\ prop (rec_data r) "lag" = JStr (decimal (lag_rounded env (lag_reads w))).
Proof.
  intros Hlog.
  destruct (logOutgoingResponse_data rt env this request w Hlog)
    as (request' & w' & r & n & Hrun & Hsk & Hrq & Ht & Hd & Hlag).
  exists request', w', r.
  split; [exact Hrun|]. split; [exact Hsk|].
  split; [|split; [exists n; split; assumption | exact Hlag]].
  cbn zeta. rewrite Hrq.
  destruct (logged_request_fields this request (outgoing_start env request w))
    as (H1 & H2 & H3 & H4 & H5 & H6 & H7 & H8 & H9).
  split; [exact H1|]. split; [exact H2|]. split; [exact H3|].
  split; [exact H4|]. split; [exact H5|]. split; [exact H6|].
  split.
  - intros Hlv. apply Z.ltb_lt in Hlv. rewrite Hlv in H7, H8, H9.
    split; [exact H7|]. split; [exact H8 | exact H9].
  - intros Hlv. apply Z.ltb_ge in Hlv. rewrite Hlv in H7, H8, H9.
    split; [exact H7|]. split; [exact H8 | exact H9].
Qed.

(** X8, at [GET /items]: no headers in the record of a logger at level 30,
    the headers in the record of one at level 10. *)
Lemma logOutgoingResponse_request_fields_witness :
  let rt := sample_rt stringify_circular node_globals in
  let request := sample_request (sample_response JNull) None in
  let trace_logger :=
    {| Logger.log := RootLogger 10; Logger.unresponsiveTimeout := 30000 |} in
  let fields (this : Logger.t) : list (string * JsVal) :=
    match Logger.logOutgoingResponse rt sample_env this request empty_world with
    | (Ok _, w') =>
        match sink w' with
        | [r] => own_enumerable (prop (rec_data r) "request")
        | _ => []
        end
    | _ => []
    end in
  loggable request = true
  /\ lookup "method" (fields sample_logger) = Some (JStr "GET")
  /\ lookup "headers" (fields sample_logger) = None
  /\ lookup "headers" (fields trace_logger)
     = Some (JObj None [("x-request-id", JStr "r-1")]).
Proof.
  intros rt request trace_logger fields.
  split; [reflexivity|].
  destruct (logOutgoingResponse_request_fields rt sample_env sample_logger request
              empty_world eq_refl)
    as (request1 & w1 & r1 & Hrun1 & Hsk1 & Hf1 & _).
  destruct (logOutgoingResponse_request_fields rt sample_env trace_logger request
              empty_world eq_refl)
    as (request2 & w2 & r2 & Hrun2 & Hsk2 & Hf2 & _).
  cbn zeta in Hf1, Hf2.
  destruct Hf1 as (Hm & _ & _ & _ & _ & _ & _ & Habsent).
  destruct Hf2 as (_ & _ & _ & _ & _ & _ & Hpresent & _).
  unfold fields. rewrite Hrun1, Hrun2, Hsk1, Hsk2. cbn [sink empty_world app].
  split; [exact Hm|]. split.
  - apply Habsent. cbn. lia.
  - apply Hpresent. cbn. lia.
Defined.

(* ================================================================== *)
(** ** More of [class Context]: the elapsed time *)
(* ================================================================== *)

(** X9: the elapsed time of a context.  A context made without a start time
    (any falsy one, 0 included) starts at the reading of the clock, and with
    a clock that does not run backwards its [dt()] is then a number that is
    never negative and never decreases from one call to a later one.  A
    context made with a start time keeps it, and its [dt()] is the clock
    minus that start, which is [NaN] when the start is no number. *)
Theorem Context_dt_elapsed (rt : JsRuntime) (env : Env) (id start : JsVal)
  (l : option LogHandle) (w : World) :
  (forall m n, (m <= n)%nat -> Date_now env m <= Date_now env n) ->
  exists c w1,
    Logger.new_Context env id start l w = (Ok c, w1)
    /\ Context.start c
       = (if truthy start then start else JNum (Date_now env (clock_reads w)))
    /\ (forall w2,
          exists w3,
            Logger.dt rt env c w2
            = (Ok (js_sub rt (JNum (Date_now env (clock_reads w2))) (Context.start c)),
               w3)
            /\ clock_reads w3 = S (clock_reads w2)
            /\ sink w3 = sink w2 /\ timers w3 = timers w2)
    /\ (truthy start = false ->
        forall w2 w4,
          (clock_reads w1 <= clock_reads w2)%nat ->
          (clock_reads w2 <= clock_reads w4)%nat ->
          exists d d',
            fst (Logger.dt rt env c w2) = Ok (JNum d)
            /\ fst (Logger.dt rt env c w4) = Ok (JNum d')
            /\ 0 <= d <= d')
    /\ (truthy start = true -> ToNumber rt start = None ->
        forall w2, fst (Logger.dt rt env c w2) = Ok JNaN).
Proof.
  intros Hmono.
  assert (Hnew : exists c w1,
            Logger.new_Context env id start l w = (Ok c, w1)
            /\ Context.start c
               = (if truthy start then start
                  else JNum (Date_now env (clock_reads w)))
            /\ (truthy start = false -> clock_reads w1 = S (clock_reads w))).
  { unfold Logger.new_Context, bindM, ret, uuid_v4_call, Date_now_call.
    destruct (truthy id), (truthy start); cbn; do 2 eexists;
      (split; [reflexivity|]); split; try reflexivity; intros H;
      try discriminate H; reflexivity. }
  destruct Hnew as (c & w1 & Hc & Hs & Hr).
  exists c, w1. split; [exact Hc|]. split; [exact Hs|].
  split; [|split].
  - intros w2. eexists. rewrite dt_run. split; [reflexivity|]. repeat split.
  - intros Hf w2 w4 H12 H24. rewrite !dt_run. cbn [fst].
    rewrite Hs, Hf. cbn [js_sub ToNumber].
    do 2 eexists. split; [reflexivity|]. split; [reflexivity|].
    pose proof (Hr Hf) as Hr'.
    pose proof (Hmono (clock_reads w) (clock_reads w2)) as M1.
    pose proof (Hmono (clock_reads w2) (clock_reads w4)) as M2.
    lia.
  - intros Ht Hn w2. rewrite dt_run. cbn [fst]. rewrite Hs, Ht.
    unfold js_sub. cbn [ToNumber]. now rewrite Hn.
Qed.

(** X9, at a context made with the start time 0 when the clock reads 1000,
    and asked 5 ms later. *)
Lemma Context_dt_elapsed_witness :
  let rt := sample_rt stringify_circular node_globals in
  (forall m n, (m <= n)%nat -> Date_now sample_env m <= Date_now sample_env n)
  /\ exists c w1,
       Logger.new_Context sample_env (JStr "r-1") (JNum 0) None empty_world
       = (Ok c, w1)
       /\ Context.start c = JNum 1000
       /\ fst (Logger.dt rt sample_env c w1) = Ok (JNum 5).
Proof.
  intros rt.
  assert (Hmono : forall m n, (m <= n)%nat ->
                              Date_now sample_env m <= Date_now sample_env n).
  { intros m n H. unfold sample_env. cbn [Date_now]. lia. }
  split; [exact Hmono|].
  destruct (Context_dt_elapsed rt sample_env (JStr "r-1") (JNum 0) None empty_world
              Hmono) as (c & w1 & Hc & Hs & Hdt & _).
  exists c, w1. split; [exact Hc|]. split; [exact Hs|].
  destruct (Hdt w1) as (w3 & Hrun & _). rewrite Hrun. cbn [fst].
  rewrite Hs.
  assert (Hw : clock_reads w1 = 1%nat).
  { revert Hc. vm_compute. intros E. inversion E. reflexivity. }
  rewrite Hw. reflexivity.
Defined.

(* ================================================================== *)
(** ** The constructors, [createHapiServer], [addRoutes] and [start] *)
(* ================================================================== *)

Lemma prop_Object_assign (k : string) (target : list (string * JsVal))
  (source : JsVal) :
  unique_keys source ->
  prop (JObj None (Object_assign target source)) k
  = match lookup k (own_enumerable source) with
    | Some v => v
    | None => prop (JObj None target) k
    end.
Proof.
  intros Hu. cbn [prop]. rewrite (lookup_Object_assign k target source Hu).
  now destruct (lookup k (own_enumerable source)).
Qed.

Lemma Logger_constructor_ok_inv (createLogger : JsVal -> Res LogHandle)
  (logOptions lagProbeInterval unresponsiveTimeout : JsVal) (l : LoggerObject) :
  Logger_constructor createLogger logOptions lagProbeInterval unresponsiveTimeout
  = Ok l ->
  l = {| lg_options := JObj None (Object_assign Logger_defaults logOptions);
         lg_log := lg_log l;
         lg_lagProbeInterval := default_param lagProbeInterval (JNum 250);
         lg_unresponsiveTimeout := default_param unresponsiveTimeout (JNum 30000) |}
  /\ createLogger (JObj None (Object_assign Logger_defaults logOptions))
     = Ok (lg_log l)
  /\ isNumber (default_param lagProbeInterval (JNum 250)) = true.
Proof.
  unfold Logger_constructor, start_lag_probe. cbn zeta.
  destruct (createLogger (JObj None (Object_assign Logger_defaults logOptions)))
    as [h|e]; [|discriminate].
  cbn [bind].
  destruct (isNumber (default_param lagProbeInterval (JNum 250)));
    [|discriminate].
  cbn [bind]. intros E. injection E as E'. rewrite <- E'.
  split; [|split]; reflexivity.
Qed.

(** X10: the options of a [Logger] are the given ones over the defaults: a key
    of [logOptions] has the value given, and any other key has its default
    ([service] for the name and the process, [info] for the level).  These
    are the options bunyan makes the log handle from.  The default of a
    parameter stands in for [undefined] only: without a timeout the timer of
    an unanswered request runs 30000 ms, and with [null] for a timeout it
    runs 1 ms. *)
Theorem Logger_constructor_options (rt : JsRuntime)
  (createLogger : JsVal -> Res LogHandle)
  (logOptions lagProbeInterval unresponsiveTimeout : JsVal) (l : LoggerObject) :
  unique_keys logOptions ->
  Logger_constructor createLogger logOptions lagProbeInterval unresponsiveTimeout
  = Ok l ->
  createLogger (lg_options l) = Ok (lg_log l)
  /\ (forall k,
        prop (lg_options l) k
        = match lookup k (own_enumerable logOptions) with
          | Some v => v
          | None => prop (JObj None Logger_defaults) k
          end)
  /\ lg_lagProbeInterval l = default_param lagProbeInterval (JNum 250)
  /\ lg_unresponsiveTimeout l = default_param unresponsiveTimeout (JNum 30000)
  /\ (unresponsiveTimeout = JUndefined ->
      timer_delay (Logger.unresponsiveTimeout (as_logger rt l)) = 30000)
  /\ (unresponsiveTimeout = JNull ->
      timer_delay (Logger.unresponsiveTimeout (as_logger rt l)) = 1).
Proof.
  intros Hu H.
  destruct (Logger_constructor_ok_inv _ _ _ _ _ H) as [Hl [Hc _]].
  split; [rewrite Hl at 1; exact Hc|].
  split; [intros k; rewrite Hl; now apply prop_Object_assign|].
  split; [now rewrite Hl|]. split; [now rewrite Hl|].
  split; intros ->; rewrite Hl; reflexivity.
Qed.

(** X10, at [new Logger({name: 'orders', level: 'debug'}, undefined, null)]. *)
Lemma Logger_constructor_options_witness :
  let rt := sample_rt stringify_circular node_globals in
  let logOptions := JObj None [("name", JStr "orders"); ("level", JStr "debug")] in
  unique_keys logOptions
  /\ exists l,
       Logger_constructor sample_createLogger logOptions JUndefined JNull = Ok l
       /\ prop (lg_options l) "name" = JStr "orders"
       /\ prop (lg_options l) "process" = JStr "service"
       /\ prop (lg_options l) "level" = JStr "debug"
       /\ lg_log l = RootLogger 20
       /\ timer_delay (Logger.unresponsiveTimeout (as_logger rt l)) = 1.
Proof.
  intros rt logOptions.
  assert (Hu : unique_keys logOptions).
  { repeat constructor; cbn; intuition discriminate. }
  split; [exact Hu|].
  eexists. split; [reflexivity|].
  destruct (Logger_constructor_options rt sample_createLogger logOptions
              JUndefined JNull _ Hu eq_refl) as (_ & Hk & _ & _ & _ & Hnull).
  split; [exact (Hk "name")|]. split; [exact (Hk "process")|].
  split; [exact (Hk "level")|]. split; [reflexivity|].
  exact (Hnull eq_refl).
Defined.

(** X11: the configuration of the hapi server is the given one over the
    defaults, key by key and no deeper: a key of [userServerConfig] has the
    value given, whole, so that a configuration that brings its own [routes]
    loses the defaults for CORS unless it repeats them; any other key has
    its default.  The listeners log through the logger given, or through a
    [Logger] made without arguments when none is given. *)
Theorem createHapiServer_config (createLogger : JsVal -> Res LogHandle)
  (Hapi_server : JsVal -> Res unit) (userServerConfig : JsVal)
  (logger : option LoggerObject) (s : HapiServer) :
  unique_keys userServerConfig ->
  createHapiServer createLogger Hapi_server userServerConfig logger = Ok s ->
  (forall k,
     prop (serverConfig s) k
     = match lookup k (own_enumerable userServerConfig) with
       | Some v => v
       | None => prop (JObj None server_defaults) k
       end)
  /\ (forall routes,
        lookup "routes" (own_enumerable userServerConfig) = Some routes ->
        prop (prop (serverConfig s) "routes") "cors" = prop routes "cors")
  /\ (lookup "routes" (own_enumerable userServerConfig) = None ->
      prop (prop (prop (serverConfig s) "routes") "cors") "credentials"
      = JBool true)
  /\ Hapi_server (serverConfig s) = Ok tt
  /\ match logger with
     | Some l => listener s = l
     | None =>
         Logger_constructor createLogger JUndefined JUndefined JUndefined
         = Ok (listener s)
     end.
Proof.
  intros Hu. unfold createHapiServer.
  assert (Hk : forall k,
            prop (JObj None (Object_assign server_defaults userServerConfig)) k
            = match lookup k (own_enumerable userServerConfig) with
              | Some v => v
              | None => prop (JObj None server_defaults) k
              end)
    by (intros k; now apply prop_Object_assign).
  destruct (match logger with
            | Some l => Ok l
            | None => Logger_constructor createLogger JUndefined JUndefined JUndefined
            end) as [lg|e] eqn:El; [|discriminate].
  cbn [bind].
  destruct (Hapi_server (JObj None (Object_assign server_defaults userServerConfig)))
    as [[]|e] eqn:Eh; [|discriminate].
  cbn [bind]. intros H. inversion H; subst s. clear H.
  cbn [serverConfig listener].
  split; [exact Hk|]. split; [|split; [|split]].
  - intros routes Hr. rewrite (Hk "routes"), Hr. reflexivity.
  - intros Hr. rewrite (Hk "routes"), Hr. reflexivity.
  - exact Eh.
  - destruct logger as [l0|]; [now inversion El | exact El].
Qed.

(** X11, at a configuration with a port and with routes of its own. *)
Lemma createHapiServer_config_witness :
  let userServerConfig :=
    JObj None
      [("port", JNum 8080);
       ("routes", JObj None [("timeout", JObj None [("server", JNum 10000)])])] in
  unique_keys userServerConfig
  /\ exists s,
       createHapiServer sample_createLogger sample_Hapi_server userServerConfig None
       = Ok s
       /\ prop (serverConfig s) "port" = JNum 8080
       /\ prop (serverConfig s) "debug" = JBool false
       /\ prop (prop (serverConfig s) "routes") "cors" = JUndefined.
Proof.
  intros userServerConfig.
  assert (Hu : unique_keys userServerConfig).
  { repeat constructor; cbn; intuition discriminate. }
  split; [exact Hu|].
  eexists. split; [reflexivity|].
  destruct (createHapiServer_config sample_createLogger sample_Hapi_server
              userServerConfig None _ Hu eq_refl) as (Hk & Hr & _).
  split; [exact (Hk "port")|]. split; [exact (Hk "debug")|].
  exact (Hr _ eq_refl).
Defined.

(** What it takes to construct a service and what reaches its parts: the
    steps of the constructor, one by one. *)
Lemma constructor_ok_inv (createLogger : JsVal -> Res LogHandle)
  (Hapi_server : JsVal -> Res unit) (name config : JsVal) (ms : Service.t) :
  Service.constructor createLogger Hapi_server name config = Ok ms ->
  nullish config = false
  /\ createHapiServer createLogger Hapi_server (prop config "server") None
     = Ok (Service.server ms)
  /\ Logger_constructor createLogger
       (JObj None
          (Object_assign [("name", name); ("process", name)] (prop config "log")))
       (prop config "lagProbeInterval") (prop config "unresponsiveTimeout")
     = Ok (Service.log ms)
  /\ nullish (prop config "server") = false
  /\ nullish (prop (prop config "server") "app") = false
  /\ Service.name ms = name
  /\ Service.routePrefix ms = prop config "routePrefix"
  /\ Service.port ms = prop (prop (prop config "server") "app") "port"
  /\ Service.healthCheckRoute ms
     = JObj None
         [("method", JStr "GET");
          ("path", default_param (prop config "healthCheckPath") (JStr "/health"));
          ("handler", JObj (Some Service.healthy) [])].
Proof.
  unfold Service.constructor. intros H.
  assert (Hc : nullish config = false).
  { destruct config; try reflexivity; discriminate H. }
  rewrite (get_object _ _ Hc) in H. cbn [bind] in H.
  destruct (createHapiServer createLogger Hapi_server (prop config "server") None)
    as [s|e] eqn:Es; [|discriminate H].
  cbn [bind] in H.
  destruct (Logger_constructor createLogger _ _ _) as [lg|e] eqn:El;
    [|discriminate H].
  cbn [bind] in H.
  assert (Hs : nullish (prop config "server") = false).
  { destruct (prop config "server"); try reflexivity; discriminate H. }
  rewrite (get_object _ _ Hs) in H. cbn [bind] in H.
  assert (Ha : nullish (prop (prop config "server") "app") = false).
  { destruct (prop (prop config "server") "app"); try reflexivity; discriminate H. }
  rewrite (get_object _ _ Ha) in H. cbn [bind] in H.
  inversion H; subst ms. clear H. cbn.
  repeat split; assumption.
Qed.

(** The logger behind the listeners of a constructed service. *)
Lemma constructor_listener (createLogger : JsVal -> Res LogHandle)
  (Hapi_server : JsVal -> Res unit) (name config : JsVal) (ms : Service.t) :
  Service.constructor createLogger Hapi_server name config = Ok ms ->
  let requests := listener (Service.server ms) in
  requests
  = {| lg_options := JObj None Logger_defaults;
       lg_log := lg_log requests;
       lg_lagProbeInterval := JNum 250;
       lg_unresponsiveTimeout := JNum 30000 |}
  /\ createLogger (JObj None Logger_defaults) = Ok (lg_log requests).
Proof.
  intros H requests.
  destruct (constructor_ok_inv _ _ _ _ _ H) as (_ & Hs & _).
  assert (Hreq : Logger_constructor createLogger JUndefined JUndefined JUndefined
                 = Ok requests).
  { revert Hs. unfold createHapiServer.
    destruct (Logger_constructor createLogger JUndefined JUndefined JUndefined)
      as [lg|e]; [|discriminate].
    cbn [bind]. destruct (Hapi_server _) as [[]|e]; [|discriminate].
    cbn [bind]. intros E. injection E as E'. unfold requests. rewrite <- E'.
    reflexivity. }
  destruct (Logger_constructor_ok_inv _ _ _ _ _ Hreq) as [Hshape [Hcl _]].
  change (Object_assign Logger_defaults JUndefined) with Logger_defaults
    in Hshape, Hcl.
  cbn [default_param] in Hshape.
  split; assumption.
Qed.

(** X12: the requests of a service are logged by a logger its configuration does
    not reach.  The constructor hands [this.log] to [createServer] one line
    before it assigns it, so the listeners of the server log through a
    [Logger] made without arguments: its options are the defaults, its lag
    probe runs every 250 ms and the timer of an unanswered request runs
    30000 ms, whatever [config.log], [config.lagProbeInterval] and
    [config.unresponsiveTimeout] say; these reach [this.log] only. *)
Theorem constructor_request_log_ignores_config (rt : JsRuntime)
  (createLogger : JsVal -> Res LogHandle) (Hapi_server : JsVal -> Res unit)
  (name config : JsVal) (ms : Service.t) :
  Service.constructor createLogger Hapi_server name config = Ok ms ->
  let requests := listener (Service.server ms) in
  lg_options requests = JObj None Logger_defaults
  /\ createLogger (JObj None Logger_defaults) = Ok (lg_log requests)
  /\ lg_lagProbeInterval requests = JNum 250
  /\ lg_unresponsiveTimeout requests = JNum 30000
  /\ lg_lagProbeInterval (Service.log ms)
     = default_param (prop config "lagProbeInterval") (JNum 250)
  /\ lg_unresponsiveTimeout (Service.log ms)
     = default_param (prop config "unresponsiveTimeout") (JNum 30000)
  /\ (forall (env : Env) (request : Request.t) (w : World),
        nullish (Request.headers request) = false ->
        exists request1 w1 t,
          on_request rt env (Service.server ms) request w = (Ok request1, w1)
          /\ timers w1 = (timers w ++ [t])%list
          /\ due t = loop_time w + 30000).
Proof.
  intros H requests.
  destruct (constructor_ok_inv _ _ _ _ _ H) as (_ & _ & Hl & _).
  destruct (constructor_listener _ _ _ _ _ H) as [Hshape Hcl].
  fold requests in Hshape, Hcl.
  destruct (Logger_constructor_ok_inv _ _ _ _ _ Hl) as [Hlog _].
  split; [now rewrite Hshape|]. split; [exact Hcl|].
  split; [now rewrite Hshape|]. split; [now rewrite Hshape|].
  split; [now rewrite Hlog|]. split; [now rewrite Hlog|].
  intros env request w Hh. unfold on_request. fold requests.
  destruct (logIncomingRequest_run rt env (as_logger rt requests) request w Hh)
    as (c & data & w1 & r & Hrun & _ & Htm & _).
  do 3 eexists. split; [exact Hrun|]. split; [exact Htm|].
  cbn [due]. rewrite Hshape. reflexivity.
Qed.

(** X12, at a service configured for trace logs and a timeout of 5000 ms:
    its requests are logged at level 30 and timed out after 30000 ms. *)
Lemma constructor_request_log_ignores_config_witness :
  let rt := sample_rt stringify_circular node_globals in
  exists ms,
    Service.constructor sample_createLogger sample_Hapi_server (JStr "orders")
      sample_config = Ok ms
    /\ lg_log (Service.log ms) = RootLogger 10
    /\ lg_unresponsiveTimeout (Service.log ms) = JNum 5000
    /\ lg_log (listener (Service.server ms)) = RootLogger 30
    /\ lg_unresponsiveTimeout (listener (Service.server ms)) = JNum 30000
    /\ exists request1 w1 t,
         on_request rt sample_env (Service.server ms) (sample_request JNull None)
           empty_world = (Ok request1, w1)
         /\ timers w1 = [t]
         /\ due t = 30000.
Proof.
  intros rt. eexists. split; [reflexivity|].
  match goal with
  | |- lg_log (Service.log ?m) = _ /\ _ =>
      destruct (constructor_request_log_ignores_config rt sample_createLogger
                  sample_Hapi_server (JStr "orders") sample_config m eq_refl)
        as (_ & _ & _ & Ht & _ & _ & Hreq)
  end.
  split; [reflexivity|]. split; [reflexivity|]. split; [reflexivity|].
  split; [exact Ht|].
  exact (Hreq sample_env (sample_request JNull None) empty_world eq_refl).
Defined.

(** X13: a service is constructed exactly when [config.server.app] can be
    read, the lag probe gets a number and bunyan and hapi accept what they
    are given: the constructor returns if and only if [config],
    [config.server] and [config.server.app] are neither [undefined] nor
    [null], [config.lagProbeInterval] is a number or [undefined], bunyan
    accepts the default options and the options of the service, and hapi
    accepts the server configuration.  In particular a configuration without
    [server.app] throws, although [createHapiServer] itself takes it, and so
    does one whose [lagProbeInterval] is [null] or a text. *)
Theorem constructor_returns_iff (createLogger : JsVal -> Res LogHandle)
  (Hapi_server : JsVal -> Res unit) (name config : JsVal) :
  (exists ms, Service.constructor createLogger Hapi_server name config = Ok ms)
  <-> nullish config = false
      /\ nullish (prop config "server") = false
      /\ nullish (prop (prop config "server") "app") = false
      /\ match prop config "lagProbeInterval" with
         | JUndefined | JNum _ | JNaN => True
         | _ => False
         end
      /\ (exists h, createLogger (JObj None Logger_defaults) = Ok h)
      /\ Hapi_server
           (JObj None (Object_assign server_defaults (prop config "server")))
         = Ok tt
      /\ (exists h,
            createLogger
              (JObj None
                 (Object_assign Logger_defaults
                    (JObj None
                       (Object_assign [("name", name); ("process", name)]
                          (prop config "log")))))
            = Ok h).
Proof.
  assert (Hprobe : forall v,
            isNumber (default_param v (JNum 250)) = true
            <-> match v with
                | JUndefined | JNum _ | JNaN => True
                | _ => False
                end).
  { intros v. destruct v; cbn; split; intros H; try exact I; try reflexivity;
      try discriminate H; try contradiction. }
  split.
  - intros [ms H].
    destruct (constructor_ok_inv _ _ _ _ _ H) as (Hc & Hs & Hl & Hsv & Ha & _).
    split; [exact Hc|]. split; [exact Hsv|]. split; [exact Ha|].
    destruct (Logger_constructor_ok_inv _ _ _ _ _ Hl) as (_ & Hh' & Hn).
    split; [apply Hprobe; exact Hn|].
    revert Hs. unfold createHapiServer.
    destruct (Logger_constructor createLogger JUndefined JUndefined JUndefined)
      as [lg|e] eqn:Elg; [|discriminate].
    cbn [bind].
    destruct (Logger_constructor_ok_inv _ _ _ _ _ Elg) as (_ & Hh & _).
    change (Object_assign Logger_defaults JUndefined) with Logger_defaults in Hh.
    destruct (Hapi_server _) as [[]|e] eqn:Eh; [|discriminate].
    intros _. split; [now exists (lg_log lg)|]. split; [reflexivity|].
    now exists (lg_log (Service.log ms)).
  - intros (Hc & Hsv & Ha & Hn & [h Hh] & Hhapi & [h' Hh']).
    apply Hprobe in Hn.
    unfold Service.constructor.
    rewrite (get_object _ _ Hc). cbn [bind].
    unfold createHapiServer, Logger_constructor, start_lag_probe. cbn zeta.
    change (Object_assign Logger_defaults JUndefined) with Logger_defaults.
    rewrite Hh. cbn [bind default_param isNumber]. rewrite Hhapi. cbn [bind].
    rewrite Hh'. cbn [bind]. rewrite Hn. cbn [bind].
    rewrite (get_object _ _ Hsv). cbn [bind].
    rewrite (get_object _ _ Ha). cbn [bind].
    eexists. reflexivity.
Qed.

(** X14: the name of the logger of a service.  The options of [this.log] are
    [config.log] over the name of the service over the defaults of [Logger]:
    a key of [config.log] has the value given; without it the name and the
    process are the name of the service (also when that is [undefined]: the
    default [service] never applies), the level is [info], and no other key
    is there. *)
Theorem constructor_log_options (createLogger : JsVal -> Res LogHandle)
  (Hapi_server : JsVal -> Res unit) (name config : JsVal) (ms : Service.t) :
  unique_keys (prop config "log") ->
  Service.constructor createLogger Hapi_server name config = Ok ms ->
  forall k,
    prop (lg_options (Service.log ms)) k
    = match lookup k (own_enumerable (prop config "log")) with
      | Some v => v
      | None =>
          if (k =? "name")%string || (k =? "process")%string then name
          else if (k =? "level")%string then JStr "info"
          else JUndefined
      end.
Proof.
  intros Hu H k.
  destruct (constructor_ok_inv _ _ _ _ _ H) as (_ & _ & Hl & _).
  destruct (Logger_constructor_ok_inv _ _ _ _ _ Hl) as [Hlog _].
  rewrite Hlog. cbn [lg_options].
  assert (Hin : unique_keys
                  (JObj None
                     (Object_assign [("name", name); ("process", name)]
                        (prop config "log")))).
  { apply unique_keys_Object_assign. repeat constructor; cbn; intuition discriminate. }
  rewrite (prop_Object_assign k Logger_defaults _ Hin).
  cbn [own_enumerable].
  rewrite (lookup_Object_assign k _ _ Hu).
  destruct (lookup k (own_enumerable (prop config "log"))) as [v|]; [reflexivity|].
  cbn [lookup prop Logger_defaults].
  destruct (k =? "name")%string; [reflexivity|].
  destruct (k =? "process")%string; [reflexivity|].
  cbn [orb]. destruct (k =? "level")%string; reflexivity.
Qed.

(** X14, at the service [orders] configured with a level only. *)
Lemma constructor_log_options_witness :
  unique_keys (prop sample_config "log")
  /\ exists ms,
       Service.constructor sample_createLogger sample_Hapi_server (JStr "orders")
         sample_config = Ok ms
       /\ prop (lg_options (Service.log ms)) "name" = JStr "orders"
       /\ prop (lg_options (Service.log ms)) "level" = JStr "trace".
Proof.
  assert (Hu : unique_keys (prop sample_config "log")).
  { repeat constructor; cbn; intuition discriminate. }
  split; [exact Hu|].
  eexists. split; [reflexivity|].
  match goal with
  | |- prop (lg_options (Service.log ?m)) _ = _ /\ _ =>
      pose proof (constructor_log_options sample_createLogger sample_Hapi_server
                    (JStr "orders") sample_config m Hu eq_refl) as Hk
  end.
  split; [exact (Hk "name") | exact (Hk "level")].
Defined.


(** X15: the prefix and the routes [addRoutes] registers.  The prefix handed to
    hapi always starts with a slash: a prefix that is a slash followed by a
    character other than a line terminator is handed over as it is, and
    every other one has a slash put before its text, which makes
    ["/undefined"] of a missing prefix, ["/"] of the empty text and ["//"]
    of a single slash.  The routes registered are the given ones, in order,
    followed by the health check route, which thus lives under the same
    prefix. *)
Theorem addRoutes_registration (rt : JsRuntime) (pkg_version : JsVal)
  (this : Service.t) (routes : list JsVal) :
  let reg := Service.addRoutes rt pkg_version this routes in
  let text := ToString rt (Service.routePrefix this) in
  (exists rest, ToString rt (routes_prefix reg) = String "/" rest)
  /\ (slash_and_more text = true -> routes_prefix reg = Service.routePrefix this)
  /\ (slash_and_more text = false -> routes_prefix reg = JStr ("/" ++ text))
  /\ (slash_and_more (ToString rt (routes_prefix reg)) = false
      <-> text = ""
          \/ exists c rest, text = String c rest /\ line_terminator c = true)
  /\ (Service.routePrefix this = JUndefined -> routes_prefix reg = JStr "/undefined")
  /\ (Service.routePrefix this = JStr "" -> routes_prefix reg = JStr "/")
  /\ (Service.routePrefix this = JStr "/" -> routes_prefix reg = JStr "//")
  /\ plugin_routes reg = (routes ++ [Service.healthCheckRoute this])%list
  /\ length (plugin_routes reg) = S (length routes)
  /\ plugin_name reg = Service.name this.
Proof.
  intros reg text. unfold reg, Service.addRoutes, Service.prefix_of.
  cbn [routes_prefix plugin_routes plugin_name]. fold text.
  split; [|split; [|split; [|split; [|split; [|split; [|split; [|split]]]]]]].
  - destruct (slash_and_more text) eqn:E; cbn [negb].
    + fold text. destruct text as [|c rest]; [discriminate E|].
      cbn in E. destruct (Ascii.eqb c "/") eqn:Ec.
      * apply Ascii.eqb_eq in Ec. subst c. now exists rest.
      * destruct c as [[] [] [] [] [] [] [] []]; discriminate.
    + exists text. reflexivity.
  - intros E. now rewrite E.
  - intros E. now rewrite E.
  - destruct (slash_and_more text) eqn:E; cbn [negb].
    + fold text. rewrite E. split; [discriminate|].
      intros [H | (c & rest & H & Hc)]; rewrite H in E; [discriminate E|].
      cbn in E. destruct c as [[] [] [] [] [] [] [] []]; cbn in Hc, E;
        try discriminate Hc; discriminate E.
    + cbn [ToString slash_and_more]. split.
      * destruct text as [|c rest]; [now left|].
        cbn. intros H. right. exists c, rest. split; [reflexivity|].
        now apply negb_false_iff in H.
      * intros [H | (c & rest & H & Hc)]; rewrite H; [reflexivity|].
        cbn. now rewrite Hc.
  - intros H. unfold text. now rewrite H.
  - intros H. unfold text. now rewrite H.
  - intros H. unfold text. now rewrite H.
  - reflexivity.
  - split; [|reflexivity]. rewrite length_app. cbn. lia.
Qed.

(** X17: what [start] logs.  When [server.start()] fails, [start] hands the sink
    one record at error level, "NAME failed to start", whose [err] field is
    [undefined] (the error caught is not passed on to [logError]), and then
    throws the error caught; nothing says that the server started.  When it
    succeeds, [start] returns after one record at info level, "NAME Server
    Started", with the port and the prefix as configured.  Either record
    goes through the logger of the service. *)
Theorem start_logs_outcome (rt : JsRuntime) (this : Service.t)
  (server_start : M unit) (w : World) :
  let logger := lg_log (Service.log this) in
  let name := ToString rt (Service.name this) in
  match server_start w with
  | (Throw err, w1) =>
      exists w2,
        Service.start rt this server_start w = (Throw err, w2)
        /\ sink w2
           = (sink w1
              ++ [{| rec_level := ERROR; rec_handle := logger;
                     rec_data := JObj None [("err", JUndefined)];
                     rec_msg := (name ++ " failed to start")%string;
                     origin := None |}])%list
        /\ timers w2 = timers w1
  | (Ok _, w1) =>
      exists w2,
        Service.start rt this server_start w = (Ok tt, w2)
        /\ sink w2
           = (sink w1
              ++ [{| rec_level := INFO; rec_handle := logger;
                     rec_data :=
                       JObj None
                         [("port", Service.port this);
                          ("prefix", Service.routePrefix this)];
                     rec_msg := (name ++ " Server Started")%string;
                     origin := None |}])%list
        /\ timers w2 = timers w1
  end.
Proof.
  intros logger name. unfold Service.start, try_catchM, bindM.
  destruct (server_start w) as [[[]|err] w1].
  - eexists. split; [reflexivity|]. split; reflexivity.
  - unfold Logger.logError, Logger.serializeError, lift. cbn [truthy negb orb emit].
    eexists. split; [reflexivity|]. split; reflexivity.
Qed.

(** X16: the health check of a service.  Whatever routes are added, the last one
    registered is a [GET] route whose path is [config.healthCheckPath], or
    ["/health"] when the configuration has none ([null] is not replaced),
    and whose handler answers [{statusCode: 200, healthy: true}]; it is
    registered in the same plugin as the routes given, under their prefix. *)
Theorem service_health_check_route (rt : JsRuntime)
  (createLogger : JsVal -> Res LogHandle) (Hapi_server : JsVal -> Res unit)
  (pkg_version name config : JsVal) (ms : Service.t) (routes : list JsVal) :
  Service.constructor createLogger Hapi_server name config = Ok ms ->
  let reg := Service.addRoutes rt pkg_version ms routes in
  exists health,
    plugin_routes reg = (routes ++ [health])%list
    /\ prop health "method" = JStr "GET"
    /\ prop health "path"
       = (match prop config "healthCheckPath" with
          | JUndefined => JStr "/health"
          | path => path
          end)
    /\ prop health "handler"
       = JObj (Some (JObj None [("statusCode", JNum 200); ("healthy", JBool true)])) []
    /\ plugin_name reg = name.
Proof.
  intros H reg.
  destruct (constructor_ok_inv _ _ _ _ _ H)
    as (_ & _ & _ & _ & _ & Hn & _ & _ & Hr).
  exists (Service.healthCheckRoute ms).
  unfold reg, Service.addRoutes. cbn [plugin_routes plugin_name].
  split; [reflexivity|]. rewrite Hr, Hn.
  unfold default_param, Service.healthy.
  destruct (prop config "healthCheckPath"); repeat split.
Qed.

(** X16, at a service without routes of its own and with the prefix [api]. *)
Lemma service_health_check_route_witness :
  let rt := sample_rt stringify_circular node_globals in
  exists ms health,
    Service.constructor sample_createLogger sample_Hapi_server (JStr "orders")
      sample_config = Ok ms
    /\ plugin_routes (Service.addRoutes rt (JStr "1.0.0") ms []) = [health]
    /\ prop health "path" = JStr "/health"
    /\ routes_prefix (Service.addRoutes rt (JStr "1.0.0") ms []) = JStr "/api".
Proof.
  intros rt. eexists.
  match goal with
  | |- exists health, Service.constructor _ _ _ _ = Ok ?m /\ _ =>
      destruct (service_health_check_route rt sample_createLogger
                  sample_Hapi_server (JStr "1.0.0") (JStr "orders") sample_config
                  m [] eq_refl) as (health & Hr & _ & Hp & _)
  end.
  exists health. split; [reflexivity|]. split; [exact Hr|].
  split; [exact Hp | reflexivity].
Defined.

(** X18: the response log of a service never shows the headers of a request.
    With a bunyan that gives the level 30 to the level name [info], the
    logger behind the [response] listener of a constructed service has
    level 30, whatever level [config.log] asks for; so the record of an
    outgoing response carries neither the headers nor the parameters nor the
    state of the request, also for a service configured to log at trace
    level. *)
Theorem service_response_log_omits_headers (rt : JsRuntime) (env : Env)
  (createLogger : JsVal -> Res LogHandle) (Hapi_server : JsVal -> Res unit)
  (name config : JsVal) (ms : Service.t) (request : Request.t) (w : World) :
  (forall options h,
     createLogger options = Ok h -> prop options "level" = JStr "info" ->
     level_of h = 30) ->
  Service.constructor createLogger Hapi_server name config = Ok ms ->
  loggable request = true ->
  exists request' w' r,
    on_response rt env (Service.server ms) request w = (Ok request', w')
    /\ sink w' = (sink w ++ [r])%list
    /\ (let fields := own_enumerable (prop (rec_data r) "request") in
        lookup "headers" fields = None
        /\ lookup "params" fields = None
        /\ lookup "state" fields = None
        /\ lookup "method" fields = Some (Request.method request)
        /\ lookup "path" fields = Some (Request.path request)).
Proof.
  intros Hbunyan H Hlog.
  destruct (constructor_listener _ _ _ _ _ H) as [_ Hc].
  assert (Hlv : level_of (lg_log (listener (Service.server ms))) = 30).
  { apply (Hbunyan _ _ Hc). reflexivity. }
  unfold on_response.
  destruct (logOutgoingResponse_data rt env
              (as_logger rt (listener (Service.server ms))) request w Hlog)
    as (request' & w' & r & n & Hrun & Hsk & Hrq & _).
  exists request', w', r. split; [exact Hrun|]. split; [exact Hsk|].
  cbn zeta. rewrite Hrq.
  destruct (logged_request_fields (as_logger rt (listener (Service.server ms)))
              request (outgoing_start env request w))
    as (Hm & Hp & _ & _ & _ & _ & H1 & H2 & H3).
  cbn [as_logger Logger.log] in H1, H2, H3. rewrite Hlv in H1, H2, H3.
  repeat split; assumption.
Qed.

(** X18, at a service configured for trace logs. *)
Lemma service_response_log_omits_headers_witness :
  let rt := sample_rt stringify_circular node_globals in
  let request := sample_request (sample_response JNull) None in
  (forall options h,
     sample_createLogger options = Ok h -> prop options "level" = JStr "info" ->
     level_of h = 30)
  /\ loggable request = true
  /\ exists ms request' w' r,
       Service.constructor sample_createLogger sample_Hapi_server (JStr "orders")
         sample_config = Ok ms
       /\ lg_log (Service.log ms) = RootLogger 10
       /\ on_response rt sample_env (Service.server ms) request empty_world
          = (Ok request', w')
       /\ sink w' = [r]
       /\ lookup "headers" (own_enumerable (prop (rec_data r) "request")) = None.
Proof.
  intros rt request.
  assert (Hbunyan : forall options h,
            sample_createLogger options = Ok h ->
            prop options "level" = JStr "info" -> level_of h = 30).
  { intros options h. unfold sample_createLogger.
    destruct (prop options "name"); try discriminate.
    intros E Hl. rewrite Hl in E. cbn in E. now inversion E. }
  split; [exact Hbunyan|]. split; [reflexivity|].
  eexists.
  match goal with
  | |- exists request' w' r, Service.constructor _ _ _ _ = Ok ?m /\ _ =>
      destruct (service_response_log_omits_headers rt sample_env
                  sample_createLogger sample_Hapi_server (JStr "orders")
                  sample_config m request empty_world Hbunyan eq_refl eq_refl)
        as (request' & w' & r & Hrun & Hsk & Hh & _)
  end.
  exists request', w', r. split; [reflexivity|]. split; [reflexivity|].
  split; [exact Hrun|]. split; [exact Hsk | exact Hh].
Defined.
